(** * SuperClaude hooks: routing and resilience layer

    A shallow embedding of the Python hooks

    - [SuperClaude/Hooks/Utils/performance_optimizer.py]
      ([LRUCache], [PerformanceMonitor]),
    - [SuperClaude/Hooks/morph_error_handler.py] ([MorphErrorHandler]),
    - [SuperClaude/Hooks/morph_tool_interceptor.py] ([MorphToolInterceptor]),
    - [SuperClaude/Hooks/pre_tool_use.py] ([PreToolUseHook.route_to_bridge]),

    followed by the properties of the specification that concern them.

    Conventions of the embedding.
    - Python [int] is [Z]; a [float] is an IEEE 754 binary64 number
      ([Binary64], over the Standard Library's [SpecFloat]), and its
      arithmetic rounds as Python's does.
    - [str] is [string]: its characters are the code points below 256
      (Latin-1), on which [lower] is [str.lower()].
    - Values that arrive from JSON are [pyval]s; an operation that Python
      rejects at run time returns [Raise].
    - [datetime.now()] and [time.time()] are read from the state or passed
      as an argument; a naive [datetime] is its number of microseconds, so
      [isoformat]/[fromisoformat] is the identity.
    - The files under [~/.claude] are fields of the state.  They are taken
      to be reliable: the handlers that only log an I/O failure are not
      represented.
    - A lock held for a whole method makes the method atomic; the methods
      are modelled as functions from state to state. *)

From Stdlib Require Import ZArith QArith List String Ascii Bool Lia.
From Stdlib Require Import Sorted Permutation.
From Stdlib Require Import SpecFloat.
From stdpp Require Import gmap strings.
Import ListNotations.

Set Warnings "-register-all".

Local Open Scope string_scope.
Local Open Scope Z_scope.

(** ** Python substrate *)

Module Py.

(** Exceptions: the class and the message. *)
Inductive exc_class :=
| AttributeError | TypeError | KeyError | IndexError | OSError
| OverflowError | ValueError | ZeroDivisionError | RequestsTimeout.

Record exc := mkExc { exc_cls : exc_class; exc_msg : string }.

Inductive res (A : Type) :=
| Ok (a : A)
| Raise (e : exc).
Arguments Ok {A} a.
Arguments Raise {A} e.

Definition bind {A B} (m : res A) (k : A -> res B) : res B :=
  match m with
  | Ok a => k a
  | Raise e => Raise e
  end.

(** Values: what [json.loads] produces, plus [datetime].  A dictionary is
    the list of its items in insertion order; its keys are distinct. *)
Inductive pyval :=
| PNone
| PBool (b : bool)
| PInt (z : Z)
| PStr (s : string)
| PList (l : list pyval)
| PDict (d : list (string * pyval))
| PDatetime (t : Z).

Definition type_name (v : pyval) : string :=
  match v with
  | PNone => "NoneType"
  | PBool _ => "bool"
  | PInt _ => "int"
  | PStr _ => "str"
  | PList _ => "list"
  | PDict _ => "dict"
  | PDatetime _ => "datetime"
  end.

(** [str.lower()] on the code points below 256: the letters A-Z and the
    letters U+00C0 to U+00DE (all of that range but the multiplication
    sign U+00D7) are lowered, 32 code points up; every other character is
    kept. *)
Definition lower_ascii (c : ascii) : ascii :=
  let n := nat_of_ascii c in
  if ((Nat.leb 65 n && Nat.leb n 90)
      || (Nat.leb 192 n && Nat.leb n 222 && negb (Nat.eqb n 215)))%bool
  then ascii_of_nat (n + 32)
  else c.

Fixpoint lower (s : string) : string :=
  match s with
  | EmptyString => EmptyString
  | String c s' => String (lower_ascii c) (lower s')
  end.

Fixpoint is_prefix (k s : string) : bool :=
  match k, s with
  | EmptyString, _ => true
  | String a k', String b s' => (Ascii.eqb a b && is_prefix k' s')%bool
  | String _ _, EmptyString => false
  end.

(** [k in s] for two strings. *)
Fixpoint str_contains (k s : string) : bool :=
  (is_prefix k s ||
   match s with
   | EmptyString => false
   | String _ s' => str_contains k s'
   end)%bool.

(** [any(keyword in s for keyword in keywords)] *)
Definition any_in (keywords : list string) (s : string) : bool :=
  existsb (fun k => str_contains k s) keywords.

(** [x in names] for a list of string literals; [==] between a string and
    a value of another type is [False]. *)
Definition in_strs (x : pyval) (names : list string) : bool :=
  match x with
  | PStr s => existsb (String.eqb s) names
  | _ => false
  end.

Definition hashable (v : pyval) : bool :=
  match v with
  | PList _ | PDict _ => false
  | _ => true
  end.

Definition unhashable (v : pyval) : exc :=
  mkExc TypeError ("unhashable type: '" ++ type_name v ++ "'").

Fixpoint assoc {A} (k : string) (d : list (string * A)) : option A :=
  match d with
  | [] => None
  | (k', v) :: d' => if String.eqb k k' then Some v else assoc k d'
  end.

(** [k in d] for a dictionary with string keys. *)
Definition mem {A} (k : string) (d : list (string * A)) : bool :=
  match assoc k d with
  | Some _ => true
  | None => false
  end.

(** [table.get(x, default)] for a table with string keys. *)
Definition table_get {A} (table : list (string * A)) (x : pyval) (default : A)
  : res A :=
  match x with
  | PStr s => Ok (match assoc s table with Some v => v | None => default end)
  | _ => if hashable x then Ok default else Raise (unhashable x)
  end.

(** [x in table] for a table with string keys. *)
Definition table_mem {A} (table : list (string * A)) (x : pyval) : res bool :=
  match x with
  | PStr s => Ok (match assoc s table with Some _ => true | None => false end)
  | _ => if hashable x then Ok false else Raise (unhashable x)
  end.

Definition is_str (k : string) (v : pyval) : bool :=
  match v with
  | PStr s => String.eqb k s
  | _ => false
  end.

(** [k in c] for a string literal [k]. *)
Definition contains (k : string) (c : pyval) : res bool :=
  match c with
  | PDict d => Ok (match assoc k d with Some _ => true | None => false end)
  | PList l => Ok (existsb (is_str k) l)
  | PStr s => Ok (str_contains k s)
  | _ => Raise (mkExc TypeError
                  ("argument of type '" ++ type_name c ++ "' is not iterable"))
  end.

(** [c[k]] for a string literal [k]. *)
Definition getitem (c : pyval) (k : string) : res pyval :=
  match c with
  | PDict d =>
      match assoc k d with
      | Some v => Ok v
      | None => Raise (mkExc KeyError ("'" ++ k ++ "'"))
      end
  | PList _ =>
      Raise (mkExc TypeError "list indices must be integers or slices, not str")
  | PStr _ =>
      Raise (mkExc TypeError "string indices must be integers, not 'str'")
  | _ => Raise (mkExc TypeError
                  ("'" ++ type_name c ++ "' object is not subscriptable"))
  end.

(** [c.get(k, default)] *)
Definition dict_get (c : pyval) (k : string) (default : pyval) : res pyval :=
  match c with
  | PDict d => Ok (match assoc k d with Some v => v | None => default end)
  | _ => Raise (mkExc AttributeError
                  ("'" ++ type_name c ++ "' object has no attribute 'get'"))
  end.

(** [len(v)] *)
Definition len (v : pyval) : res Z :=
  match v with
  | PStr s => Ok (Z.of_nat (String.length s))
  | PList l => Ok (Z.of_nat (List.length l))
  | PDict d => Ok (Z.of_nat (List.length d))
  | _ => Raise (mkExc TypeError
                  ("object of type '" ++ type_name v ++ "' has no len()"))
  end.

(** [v.copy()] *)
Definition copy (v : pyval) : res pyval :=
  match v with
  | PDict _ | PList _ => Ok v
  | _ => Raise (mkExc AttributeError
                  ("'" ++ type_name v ++ "' object has no attribute 'copy'"))
  end.

Fixpoint assoc_set {A} (k : string) (v : A) (d : list (string * A))
  : list (string * A) :=
  match d with
  | [] => [(k, v)]
  | (k', v') :: d' =>
      if String.eqb k k' then (k', v) :: d' else (k', v') :: assoc_set k v d'
  end.

Fixpoint assoc_del {A} (k : string) (d : list (string * A))
  : list (string * A) :=
  match d with
  | [] => []
  | (k', v') :: d' =>
      if String.eqb k k' then d' else (k', v') :: assoc_del k d'
  end.

(** [c[k] = v] for a string literal [k]. *)
Definition setitem (c : pyval) (k : string) (v : pyval) : res pyval :=
  match c with
  | PDict d => Ok (PDict (assoc_set k v d))
  | PList _ =>
      Raise (mkExc TypeError "list indices must be integers or slices, not str")
  | _ => Raise (mkExc TypeError
                  ("'" ++ type_name c ++
                   "' object does not support item assignment"))
  end.

(** [c.pop(k, None)], keeping only the container. *)
Definition pop_default (c : pyval) (k : string) : res pyval :=
  match c with
  | PDict d => Ok (PDict (assoc_del k d))
  | PList _ => Raise (mkExc TypeError "pop expected at most 1 argument, got 2")
  | _ => Raise (mkExc AttributeError
                  ("'" ++ type_name c ++ "' object has no attribute 'pop'"))
  end.

(** [l[i]] with Python's negative indices. *)
Definition index {A} (l : list A) (i : Z) : res A :=
  let n := Z.of_nat (List.length l) in
  let j := if i <? 0 then i + n else i in
  if (0 <=? j) && (j <? n) then
    match nth_error l (Z.to_nat j) with
    | Some x => Ok x
    | None => Raise (mkExc IndexError "list index out of range")
    end
  else Raise (mkExc IndexError "list index out of range").

(** [json.dumps] accepts a value iff no [datetime] occurs in it. *)
Fixpoint json_serializable (v : pyval) : bool :=
  match v with
  | PDatetime _ => false
  | PList l => forallb json_serializable l
  | PDict d => forallb (fun kv => json_serializable (snd kv)) d
  | _ => true
  end.

(** [json.dumps(v)]: the line written is represented by the value. *)
Definition json_dumps (v : pyval) : res pyval :=
  if json_serializable v then Ok v
  else Raise (mkExc TypeError
                "Object of type datetime is not JSON serializable").

End Py.

Import Py.

#[global] Instance res_ret : MRet res := @Ok.
#[global] Instance res_bind : MBind res := fun A B k m => Py.bind m k.

(** ** morph_error_handler.py *)

Module MorphErrorHandler.

Inductive ErrorType :=
| SERVER_UNAVAILABLE
| API_KEY_INVALID
| TIMEOUT
| FILE_LOCK
| PERMISSION_DENIED
| MEMORY_ERROR
| NETWORK_ERROR
| TOOL_MAPPING_ERROR
| UNKNOWN_ERROR.

(** [ErrorType.value] *)
Definition value (e : ErrorType) : string :=
  match e with
  | SERVER_UNAVAILABLE => "server_unavailable"
  | API_KEY_INVALID => "api_key_invalid"
  | TIMEOUT => "timeout"
  | FILE_LOCK => "file_lock"
  | PERMISSION_DENIED => "permission_denied"
  | MEMORY_ERROR => "memory_error"
  | NETWORK_ERROR => "network_error"
  | TOOL_MAPPING_ERROR => "tool_mapping_error"
  | UNKNOWN_ERROR => "unknown_error"
  end.

Inductive FallbackStrategy :=
| NATIVE_TOOL
| RETRY_WITH_BACKOFF
| BATCH_OPERATION
| ALTERNATIVE_TOOL
| GRACEFUL_DEGRADATION
| FAIL_FAST.

Definition FallbackStrategy_eqb (a b : FallbackStrategy) : bool :=
  match a, b with
  | NATIVE_TOOL, NATIVE_TOOL
  | RETRY_WITH_BACKOFF, RETRY_WITH_BACKOFF
  | BATCH_OPERATION, BATCH_OPERATION
  | ALTERNATIVE_TOOL, ALTERNATIVE_TOOL
  | GRACEFUL_DEGRADATION, GRACEFUL_DEGRADATION
  | FAIL_FAST, FAIL_FAST => true
  | _, _ => false
  end.

Record ErrorContext := {
  tool_name : pyval;
  tool_input : pyval;
  error_type : ErrorType;
  error_message : string;
  timestamp : Z;
  session_id : string;
  retry_count : Z;
  fallback_attempted : bool
}.

(** [self.config] *)
Record Config := {
  max_retry_attempts : Z;
  retry_delay_seconds : list Z;
  timeout_threshold_seconds : Z;
  memory_threshold_mb : Z;
  enable_circuit_breaker : bool;
  circuit_breaker_failure_threshold : Z;
  circuit_breaker_reset_timeout : Z
}.

Definition config : Config := {|
  max_retry_attempts := 3;
  retry_delay_seconds := [1; 2; 4];
  timeout_threshold_seconds := 30;
  memory_threshold_mb := 1024;
  enable_circuit_breaker := true;
  circuit_breaker_failure_threshold := 5;
  circuit_breaker_reset_timeout := 300
|}.

Definition tool_fallback_mapping : list (string * string) :=
  [ ("mcp__morph__read_file", "Read");
    ("mcp__morph__write_file", "Write");
    ("mcp__morph__edit_file", "Edit");
    ("mcp__morph__list_directory", "LS");
    ("mcp__morph__search_files", "Glob") ].

(** [self.error_strategies]: every member of [ErrorType] is a key. *)
Definition error_strategies (e : ErrorType) : FallbackStrategy :=
  match e with
  | SERVER_UNAVAILABLE => NATIVE_TOOL
  | API_KEY_INVALID => NATIVE_TOOL
  | TIMEOUT => RETRY_WITH_BACKOFF
  | FILE_LOCK => RETRY_WITH_BACKOFF
  | PERMISSION_DENIED => NATIVE_TOOL
  | MEMORY_ERROR => GRACEFUL_DEGRADATION
  | NETWORK_ERROR => RETRY_WITH_BACKOFF
  | TOOL_MAPPING_ERROR => ALTERNATIVE_TOOL
  | UNKNOWN_ERROR => NATIVE_TOOL
  end.

Definition classify_error (error_message : string) : ErrorType :=
  let error_lower := lower error_message in
  if any_in ["connection"; "server"; "unavailable"; "unreachable"] error_lower
  then SERVER_UNAVAILABLE
  else if any_in ["api key"; "authentication"; "unauthorized"; "forbidden"]
            error_lower
  then API_KEY_INVALID
  else if any_in ["timeout"; "timed out"; "deadline"] error_lower
  then TIMEOUT
  else if any_in ["file lock"; "locked"; "busy"] error_lower
  then FILE_LOCK
  else if any_in ["permission"; "access denied"; "not permitted"] error_lower
  then PERMISSION_DENIED
  else if any_in ["memory"; "out of memory"; "allocation"] error_lower
  then MEMORY_ERROR
  else if any_in ["network"; "dns"; "connection reset"] error_lower
  then NETWORK_ERROR
  else if any_in ["tool mapping"; "invalid tool"; "unknown tool"] error_lower
  then TOOL_MAPPING_ERROR
  else UNKNOWN_ERROR.

(** The keyword groups in the order of the specification. *)
Definition keyword_groups : list (list string * ErrorType) :=
  [ (["connection"; "server"; "unavailable"; "unreachable"],
     SERVER_UNAVAILABLE);
    (["api key"; "authentication"; "unauthorized"; "forbidden"],
     API_KEY_INVALID);
    (["timeout"; "timed out"; "deadline"], TIMEOUT);
    (["file lock"; "locked"; "busy"], FILE_LOCK);
    (["permission"; "access denied"; "not permitted"], PERMISSION_DENIED);
    (["memory"; "out of memory"; "allocation"], MEMORY_ERROR);
    (["network"; "dns"; "connection reset"], NETWORK_ERROR);
    (["tool mapping"; "invalid tool"; "unknown tool"], TOOL_MAPPING_ERROR) ].

(** First matching group wins; no match is [UNKNOWN_ERROR]. *)
Fixpoint first_match (groups : list (list string * ErrorType)) (s : string)
  : ErrorType :=
  match groups with
  | [] => UNKNOWN_ERROR
  | (keywords, kind) :: rest =>
      if any_in keywords s then kind else first_match rest s
  end.

(** *** Persisted state and the handler's monad *)

(** One entry of ["circuit_breaker"] in [morph_fallback_stats.json]. *)
Record CircuitState := {
  failure_count : Z;
  last_failure : option Z
}.

(** The contents of [morph_fallback_stats.json].  A missing
    ["circuit_breaker"], ["error_types"] or ["fallback_strategies"] key is
    the empty map: the code reads them with [get(key, {})] or creates them
    before use. *)
Record Stats := {
  total_errors : Z;
  error_types : gmap string Z;
  fallback_strategies : gmap string Z;
  circuit_breaker : gmap string CircuitState;
  last_error : option Z;
  created : option Z
}.

Record World := {
  clock : Z;                      (* datetime.now(), in microseconds *)
  error_log : list pyval;         (* lines of morph_errors.log *)
  stats_file : option Stats       (* morph_fallback_stats.json, if present *)
}.

Definition M (A : Type) : Type := World -> res A * World.

Definition ret {A} (a : A) : M A := fun w => (Ok a, w).

Definition raise {A} (e : exc) : M A := fun w => (Raise e, w).

Definition bind {A B} (m : M A) (k : A -> M B) : M B :=
  fun w =>
    match m w with
    | (Ok a, w') => k a w'
    | (Raise e, w') => (Raise e, w')
    end.

Definition lift {A} (r : res A) : M A := fun w => (r, w).

Definition get_world : M World := fun w => (Ok w, w).

Definition modify (f : World -> World) : M unit := fun w => (Ok tt, f w).

#[global] Instance M_ret : MRet M := @ret.
#[global] Instance M_bind : MBind M := fun A B k m => bind m k.

Definition default_stats (now : Z) : Stats := {|
  total_errors := 0;
  error_types := ∅;
  fallback_strategies := ∅;
  circuit_breaker := ∅;
  last_error := None;
  created := Some now
|}.

Definition load_fallback_stats (w : World) : Stats :=
  match stats_file w with
  | Some stats => stats
  | None => default_stats (clock w)
  end.

Definition save_fallback_stats (stats : Stats) (w : World) : World :=
  {| clock := clock w; error_log := error_log w; stats_file := Some stats |}.

(** [d[k] = 0] if [k] is missing, then [d[k] += 1] *)
Definition count_up (k : string) (d : gmap string Z) : gmap string Z :=
  <[k := default 0 (d !! k) + 1]> d.

Section Handler.

(** [self.config], [self.session_id], and the rendering of a [datetime]. *)
Variable cfg : Config.
Variable pid : string.
Variable isoformat : Z -> string.

Definition create_error_context
    (tool_name tool_input error_message tool_result : pyval)
  : M ErrorContext :=
  fun w =>
    match error_message with
    | PStr msg =>
        (Ok {| tool_name := tool_name;
               tool_input := tool_input;
               error_type := classify_error msg;
               error_message := msg;
               timestamp := clock w;
               session_id := pid;
               retry_count := 0;
               fallback_attempted := false |}, w)
    | _ =>
        (Raise (mkExc AttributeError
                  ("'" ++ type_name error_message ++
                   "' object has no attribute 'lower'")), w)
    end.

Definition log_error (error_context : ErrorContext) : M unit :=
  let log_entry := PDict
    [ ("timestamp", PStr (isoformat (timestamp error_context)));
      ("session_id", PStr (session_id error_context));
      ("tool_name", tool_name error_context);
      ("error_type", PStr (value (error_type error_context)));
      ("error_message", PStr (error_message error_context));
      ("retry_count", PInt (retry_count error_context));
      ("fallback_attempted", PBool (fallback_attempted error_context)) ] in
  modify (fun w =>
    match json_dumps log_entry with
    | Ok line =>
        {| clock := clock w;
           error_log := error_log w ++ [line];
           stats_file := stats_file w |}
    | Raise _ => w
    end).

Definition is_circuit_breaker_open (error_type : ErrorType) (w : World)
  : bool :=
  if negb (enable_circuit_breaker cfg) then false
  else
    let stats := load_fallback_stats w in
    let circuit_state := circuit_breaker stats !! value error_type in
    let failure_count := default 0 (failure_count <$> circuit_state) in
    let last_failure := circuit_state ≫= last_failure in
    if failure_count >=? circuit_breaker_failure_threshold cfg then
      match last_failure with
      | Some last_failure_time =>
          if clock w - last_failure_time
             <? circuit_breaker_reset_timeout cfg * 1000000
          then true else false
      | None => false
      end
    else false.

Definition update_circuit_breaker (error_type : ErrorType) (is_failure : bool)
  : M unit :=
  modify (fun w =>
    if negb (enable_circuit_breaker cfg) then w
    else
      let stats := load_fallback_stats w in
      let circuit_state :=
        default {| failure_count := 0; last_failure := None |}
                (circuit_breaker stats !! value error_type) in
      let circuit_state' :=
        if is_failure then
          {| failure_count := failure_count circuit_state + 1;
             last_failure := Some (clock w) |}
        else
          {| failure_count := 0; last_failure := None |} in
      save_fallback_stats
        {| total_errors := total_errors stats;
           error_types := error_types stats;
           fallback_strategies := fallback_strategies stats;
           circuit_breaker :=
             <[value error_type := circuit_state']> (circuit_breaker stats);
           last_error := last_error stats;
           created := created stats |} w).

Definition update_fallback_stats (error_context : ErrorContext)
    (strategy : string) : M unit :=
  modify (fun w =>
    let stats := load_fallback_stats w in
    save_fallback_stats
      {| total_errors := total_errors stats + 1;
         error_types :=
           count_up (value (error_type error_context)) (error_types stats);
         fallback_strategies := count_up strategy (fallback_strategies stats);
         circuit_breaker := circuit_breaker stats;
         last_error := Some (clock w);
         created := created stats |} w).

Definition get_fallback_strategy (error_context : ErrorContext) (w : World)
  : FallbackStrategy :=
  if is_circuit_breaker_open (error_type error_context) w then NATIVE_TOOL
  else
    let strategy := error_strategies (error_type error_context) in
    if retry_count error_context >=? max_retry_attempts cfg then
      if FallbackStrategy_eqb strategy RETRY_WITH_BACKOFF then NATIVE_TOOL
      else strategy
    else strategy.

Definition fallback_to_native_tool (error_context : ErrorContext)
  : M pyval :=
  native_tool ← lift (table_get tool_fallback_mapping
                                (tool_name error_context) "Read");
  _ ← update_fallback_stats error_context "native_tool";
  mret (PDict
    [ ("action", PStr "fallback");
      ("fallback_tool", PStr native_tool);
      ("fallback_input", tool_input error_context);
      ("reason", PStr ("MorphLLM " ++ value (error_type error_context) ++
                       ": " ++ error_message error_context));
      ("performance_note",
       PStr "Using native tool due to MorphLLM failure");
      ("original_error", PStr (error_message error_context)) ]).

Definition retry_with_backoff (error_context : ErrorContext) : M pyval :=
  if retry_count error_context >=? max_retry_attempts cfg then
    fallback_to_native_tool error_context
  else
    delay ← lift (index (retry_delay_seconds cfg)
                        (Z.min (retry_count error_context)
                               (Z.of_nat (length (retry_delay_seconds cfg))
                                - 1)));
    mret (PDict
      [ ("action", PStr "retry");
        ("retry_delay", PInt delay);
        ("retry_count", PInt (retry_count error_context + 1));
        ("max_retries", PInt (max_retry_attempts cfg));
        ("reason", PStr ("Retrying after " ++
                         value (error_type error_context))) ]).

Definition handle_batch_operation (error_context : ErrorContext) : M pyval :=
  is_batch ← lift (contains "edits" (tool_input error_context));
  if is_batch : bool then
    edits ← lift (getitem (tool_input error_context) "edits");
    n ← lift (len edits);
    if n >? 1 then
      mret (PDict
        [ ("action", PStr "split_batch");
          ("batch_size", PInt (Z.max 1 (n / 2)));
          ("reason", PStr "Splitting batch operation due to error");
          ("original_batch_size", PInt n) ])
    else fallback_to_native_tool error_context
  else fallback_to_native_tool error_context.

Definition adapt_input_for_alternative (original_input : pyval)
    (alternative_tool : string) : res pyval :=
  adapted_input ← copy original_input;
  if String.eqb alternative_tool "mcp__morph__write_file" then
    adapted_input ← pop_default adapted_input "old_string";
    pop_default adapted_input "new_string"
  else mret adapted_input.

Definition alternative_tools : list (string * option string) :=
  [ ("mcp__morph__edit_file", Some "mcp__morph__write_file");
    ("mcp__morph__search_files", Some "mcp__morph__list_directory") ].

Definition use_alternative_tool (error_context : ErrorContext) : M pyval :=
  match error_type error_context with
  | TOOL_MAPPING_ERROR =>
      alternative ← lift (table_get alternative_tools
                                    (tool_name error_context) None);
      match alternative with
      | Some alternative =>
          alternative_input ←
            lift (adapt_input_for_alternative (tool_input error_context)
                                              alternative);
          mret (PDict
            [ ("action", PStr "alternative");
              ("alternative_tool", PStr alternative);
              ("alternative_input", alternative_input);
              ("reason",
               PStr "Using alternative tool due to mapping error") ])
      | None => fallback_to_native_tool error_context
      end
  | _ => fallback_to_native_tool error_context
  end.

Definition graceful_degradation (error_context : ErrorContext) : M pyval :=
  match error_type error_context with
  | MEMORY_ERROR =>
      modified_input ← lift (copy (tool_input error_context));
      has_limit ← lift (contains "limit" modified_input);
      modified_input ←
        lift (if has_limit : bool then Ok modified_input
              else setitem modified_input "limit" (PInt 1000));
      mret (PDict
        [ ("action", PStr "degrade");
          ("degraded_input", modified_input);
          ("reason",
           PStr "Reducing operation scope due to memory constraints");
          ("degradation_type", PStr "memory_optimization") ])
  | _ => fallback_to_native_tool error_context
  end.

Definition fail_fast (error_context : ErrorContext) : M pyval :=
  mret (PDict
    [ ("action", PStr "fail");
      ("error", PStr (error_message error_context));
      ("error_type", PStr (value (error_type error_context)));
      ("reason", PStr "Unrecoverable error - failing fast");
      ("recovery_suggestion",
       PStr "Check MorphLLM configuration and server status") ]).

Definition execute_fallback_strategy (error_context : ErrorContext)
    (strategy : FallbackStrategy) : M pyval :=
  match strategy with
  | NATIVE_TOOL => fallback_to_native_tool error_context
  | RETRY_WITH_BACKOFF => retry_with_backoff error_context
  | BATCH_OPERATION => handle_batch_operation error_context
  | ALTERNATIVE_TOOL => use_alternative_tool error_context
  | GRACEFUL_DEGRADATION => graceful_degradation error_context
  | FAIL_FAST => fail_fast error_context
  end.

(** The body of the [try] block of [handle_error]. *)
Definition handle_error_try
    (tool_name tool_input error_message tool_result : pyval) : M pyval :=
  error_context ←
    create_error_context tool_name tool_input error_message tool_result;
  _ ← log_error error_context;
  w ← get_world;
  let strategy := get_fallback_strategy error_context w in
  response ← execute_fallback_strategy error_context strategy;
  _ ← update_circuit_breaker (error_type error_context) true;
  mret response.

(** [handle_error]: the [except Exception] clause turns every exception
    of the body into the ultimate fallback. *)
Definition handle_error
    (tool_name tool_input error_message tool_result : pyval) (w : World)
  : pyval * World :=
  match handle_error_try tool_name tool_input error_message tool_result w
  with
  | (Ok response, w') => (response, w')
  | (Raise e, w') =>
      (PDict
         [ ("action", PStr "fallback");
           ("fallback_tool", PStr "Read");
           ("fallback_input", tool_input);
           ("reason", PStr ("Error handler failure: " ++ exc_msg e));
           ("ultimate_fallback", PBool true) ], w')
  end.

End Handler.

End MorphErrorHandler.

(** ** performance_optimizer.py *)

(** [a < b] on rationals, as a boolean. *)
Definition Qlt_bool (a b : Q) : bool := negb (Qle_bool b a).

(** *** Python floats: IEEE 754 binary64 *)

Module Binary64.

Definition prec : Z := 53.
Definition emax : Z := 1024.

Definition float : Type := spec_float.

(** An [int] or a [float]. *)
Inductive number :=
| Int (z : Z)
| Float (x : float).

(** [float(n)] for an [int] of magnitude below 2^1024: the nearest
    float. *)
Definition of_int (n : Z) : float := binary_normalize prec emax n 0 false.

(** [x - y] and [x * y] on floats. *)
Definition sub (x y : float) : float := SFsub prec emax x y.
Definition mul (x y : float) : float := SFmul prec emax x y.

(** An [int] as an unrounded mantissa. *)
Definition exact_int (n : Z) : float :=
  match n with
  | Z0 => S754_zero false
  | Zpos p => S754_finite false p 0
  | Zneg p => S754_finite true p 0
  end.

(** [a / b] for two [int]s: the float nearest to the exact quotient. *)
Definition int_truediv (a b : Z) : res float :=
  if b =? 0 then Raise (mkExc ZeroDivisionError "division by zero")
  else
    match SFdiv prec emax (exact_int a) (exact_int b) with
    | S754_infinity _ =>
        Raise (mkExc OverflowError
                 "integer division result too large for a float")
    | q => Ok q
    end.

(** [x < n] for a float [x] and an [int] [n]: Python compares the exact
    values. *)
Definition lt_int (x : float) (n : Z) : bool :=
  match x with
  | S754_nan => false
  | S754_infinity s => s
  | S754_zero _ => 0 <? n
  | S754_finite s m e =>
      let a := if s then Z.neg m else Z.pos m in
      if 0 <=? e then a * 2 ^ e <? n else a <? n * 2 ^ (- e)
  end.

(** The number that a finite float stands for. *)
Definition value (x : float) : option Q :=
  match x with
  | S754_zero _ => Some 0%Q
  | S754_finite s m e =>
      let a := if s then Z.neg m else Z.pos m in
      Some (if 0 <=? e then inject_Z (a * 2 ^ e)
            else (a # Z.to_pos (2 ^ (- e))))
  | _ => None
  end.

(** The number that an [int] or a finite float stands for. *)
Definition number_value (n : number) : option Q :=
  match n with
  | Int z => Some (inject_Z z)
  | Float x => value x
  end.

End Binary64.


Module LRUCache.

(** [collections.OrderedDict] with string keys: an association list in
    insertion order without repeated keys, oldest entry first. *)
Section OrderedDict.

Context {A : Type}.

(** [d.move_to_end(key)] *)
Definition move_to_end (key : string) (d : list (string * A))
  : res (list (string * A)) :=
  match assoc key d with
  | Some v => Ok (assoc_del key d ++ [(key, v)])%list
  | None => Raise (mkExc KeyError ("'" ++ key ++ "'"))
  end.

(** [d.popitem(last=False)], keeping only the dictionary. *)
Definition popitem_first (d : list (string * A)) : res (list (string * A)) :=
  match d with
  | [] => Raise (mkExc KeyError "'dictionary is empty'")
  | _ :: d' => Ok d'
  end.

End OrderedDict.

Section Cache.

(** The type of the cached values. *)
Context {V : Type}.

Record t := {
  max_size : Z;
  ttl_seconds : Z;
  cache : list (string * (V * Binary64.float));
  hits : Z;
  misses : Z
}.

(** [LRUCache(max_size, ttl_seconds)] *)
Definition init (max_size ttl_seconds : Z) : t := {|
  max_size := max_size;
  ttl_seconds := ttl_seconds;
  cache := [];
  hits := 0;
  misses := 0
|}.

Definition with_cache (c : t) (d : list (string * (V * Binary64.float)))
  : t :=
  {| max_size := max_size c; ttl_seconds := ttl_seconds c; cache := d;
     hits := hits c; misses := misses c |}.

(** [now - timestamp < ttl_seconds]: the difference of two floats,
    compared with an [int]. *)
Definition live (now timestamp : Binary64.float) (ttl_seconds : Z) : bool :=
  Binary64.lt_int (Binary64.sub now timestamp) ttl_seconds.

(** [get(key)]: the returned value and the new state.  [now] is the
    value of [time.time()], which is read only when the key is present. *)
Definition get (key : string) (now : Binary64.float) (c : t)
  : res (option V * t) :=
  match assoc key (cache c) with
  | Some (value, timestamp) =>
      if live now timestamp (ttl_seconds c) then
        d ← move_to_end key (cache c);
        mret (Some value,
              {| max_size := max_size c; ttl_seconds := ttl_seconds c;
                 cache := d; hits := hits c + 1; misses := misses c |})
      else
        mret (None,
              {| max_size := max_size c; ttl_seconds := ttl_seconds c;
                 cache := assoc_del key (cache c);
                 hits := hits c; misses := misses c + 1 |})
  | None =>
      mret (None,
            {| max_size := max_size c; ttl_seconds := ttl_seconds c;
               cache := cache c; hits := hits c; misses := misses c + 1 |})
  end.

(** [set(key, value)], [now] being the value of [time.time()]. *)
Definition set (key : string) (value : V) (now : Binary64.float) (c : t)
  : res t :=
  d ← (if mem key (cache c) then move_to_end key (cache c)
       else Ok (cache c));
  let d := assoc_set key (value, now) d in
  d ← (if Z.of_nat (length d) >? max_size c then popitem_first d else Ok d);
  mret (with_cache c d).

(** The dictionary returned by [get_stats]. *)
Record Stats := {
  stats_hits : Z;
  stats_misses : Z;
  stats_hit_rate : Binary64.number;
  stats_size : Z;
  stats_max_size : Z
}.

Definition get_stats (c : t) : res Stats :=
  let total := hits c + misses c in
  hit_rate ← (if total >? 0 then
                ratio ← Binary64.int_truediv (hits c) total;
                mret (Binary64.Float
                        (Binary64.mul ratio (Binary64.of_int 100)))
              else mret (Binary64.Int 0));
  mret {| stats_hits := hits c;
          stats_misses := misses c;
          stats_hit_rate := hit_rate;
          stats_size := Z.of_nat (length (cache c));
          stats_max_size := max_size c |}.

End Cache.

Arguments t : clear implicits.

End LRUCache.

Module PerformanceMonitor.

(** *** IEEE 754 binary64, for [int(n * 0.95)] *)

Definition prec : Z := 53.
Definition emax : Z := 1024.

(** The doubles nearest to 0.95 and 0.99. *)
Definition float_0_95 : spec_float :=
  S754_finite false 8556839292003942 (-53).
Definition float_0_99 : spec_float :=
  S754_finite false 8917127262193582 (-53).

(** [float(n)] *)
Definition float_of_int (n : Z) : res spec_float :=
  match binary_normalize prec emax n 0 false with
  | S754_infinity _ =>
      Raise (mkExc OverflowError "int too large to convert to float")
  | x => Ok x
  end.

(** [int(x)]: truncation towards zero. *)
Definition int_of_float (x : spec_float) : res Z :=
  match x with
  | S754_zero _ => Ok 0
  | S754_finite s m e =>
      let a := if 0 <=? e then Z.pos m * 2 ^ e else Z.pos m / 2 ^ (- e) in
      Ok (if s then - a else a)
  | S754_infinity _ =>
      Raise (mkExc OverflowError "cannot convert float infinity to integer")
  | S754_nan =>
      Raise (mkExc ValueError "cannot convert float NaN to integer")
  end.

(** [int(n * x)] for an [int] [n] and a [float] [x] *)
Definition int_mul_float (n : Z) (x : spec_float) : res Z :=
  fn ← float_of_int n;
  int_of_float (SFmul prec emax fn x).

(** *** Samples

    The statistics are taken over durations given by the numbers they
    stand for, rational numbers of milliseconds, which [sorted], [min] and
    [max] compare as the floats are compared.  The entry "avg" of
    [get_stats], [sum(timings) / len(timings)], is not represented: it
    cannot raise ([len(timings)] is not 0 there), and its value is a
    rounded sum whose algorithm depends on the version of Python. *)

Fixpoint insert_sorted (x : Q) (l : list Q) : list Q :=
  match l with
  | [] => [x]
  | y :: l' => if Qle_bool x y then x :: l else y :: insert_sorted x l'
  end.

(** [sorted(l)]: a stable sort. *)
Fixpoint sorted (l : list Q) : list Q :=
  match l with
  | [] => []
  | x :: l' => insert_sorted x (sorted l')
  end.

(** [min(l)] and [max(l)] for [l = x :: l']: the first extremal element. *)
Definition list_min (x : Q) (l' : list Q) : Q :=
  fold_left (fun m y => if Qlt_bool y m then y else m) l' x.

Definition list_max (x : Q) (l' : list Q) : Q :=
  fold_left (fun m y => if Qlt_bool m y then y else m) l' x.

(** [l[-n:]] *)
Definition last_n {A} (n : nat) (l : list A) : list A :=
  skipn (length l - n) l.

(** [record_timing(operation, duration_ms)] on [self.metrics], for any
    type of samples. *)
Definition record_timing {A} (operation : string) (duration_ms : A)
    (metrics : gmap string (list A)) : gmap string (list A) :=
  let timings := (default [] (metrics !! operation) ++ [duration_ms])%list in
  <[operation :=
      if Z.of_nat (length timings) >? 1000 then last_n 1000 timings
      else timings]> metrics.

(** The dictionary returned by [get_stats] when it is not empty, without
    its entry "avg". *)
Record Stats := {
  count : Z;
  min : Q;
  max : Q;
  p50 : Q;
  p95 : Q;
  p99 : Q
}.

(** [get_stats(operation)]: [None] is the empty dictionary. *)
Definition get_stats (operation : string) (metrics : gmap string (list Q))
  : res (option Stats) :=
  match metrics !! operation with
  | None => Ok None
  | Some [] => Ok None
  | Some ((x :: l') as timings) =>
      let timings_sorted := sorted timings in
      let n := Z.of_nat (length timings_sorted) in
      v50 ← index timings_sorted (n / 2);
      i95 ← int_mul_float n float_0_95;
      v95 ← index timings_sorted i95;
      i99 ← int_mul_float n float_0_99;
      v99 ← index timings_sorted i99;
      mret (Some {| count := Z.of_nat (length timings);
                    min := list_min x l';
                    max := list_max x l';
                    p50 := v50;
                    p95 := v95;
                    p99 := v99 |})
  end.

End PerformanceMonitor.

(** ** morph_tool_interceptor.py *)

Module MorphToolInterceptor.

Definition TOOL_MAPPING : list (string * string) :=
  [ ("Read", "mcp__morph__read_file");
    ("Write", "mcp__morph__write_file");
    ("Edit", "mcp__morph__edit_file");
    ("LS", "mcp__morph__list_directory");
    ("Glob", "mcp__morph__search_files");
    ("MultiEdit", "mcp__morph__edit_file") ].

(** [AUTO_ACTIVATION_THRESHOLDS] *)
Definition filesystem_operations : Z := 5.
Definition batch_edits : Z := 3.
Definition directory_scans : Z := 10.

(** [self.session_stats] *)
Record SessionStats := {
  total_operations : Z;
  morph_operations : Z;
  native_operations : Z;
  fallback_operations : Z;
  start_time : Z                 (* a [datetime] object *)
}.

(** The dictionary itself, as [json.dumps] sees it. *)
Definition session_stats_dict (s : SessionStats) : pyval :=
  PDict [ ("total_operations", PInt (total_operations s));
          ("morph_operations", PInt (morph_operations s));
          ("native_operations", PInt (native_operations s));
          ("fallback_operations", PInt (fallback_operations s));
          ("start_time", PDatetime (start_time s)) ].

(** What the process reads from its surroundings. *)
Record Env := {
  getenv : string -> option string;     (* os.getenv *)
  argv : list string;                   (* sys.argv *)
  path_exists : pyval -> res bool;      (* os.path.exists *)
  getsize : pyval -> res Z;             (* os.path.getsize *)
  now : Z;                              (* datetime.now() *)
  getpid : Z                            (* os.getpid() *)
}.

(** The interceptor and its log file. *)
Record State := {
  session_stats : SessionStats;
  interception_log : list pyval         (* lines of morph_interception.log *)
}.

Definition M (A : Type) : Type := State -> res A * State.

Definition ret {A} (a : A) : M A := fun st => (Ok a, st).

Definition bind {A B} (m : M A) (k : A -> M B) : M B :=
  fun st =>
    match m st with
    | (Ok a, st') => k a st'
    | (Raise e, st') => (Raise e, st')
    end.

Definition lift {A} (r : res A) : M A := fun st => (r, st).

Definition get_state : M State := fun st => (Ok st, st).

Definition modify_stats (f : SessionStats -> SessionStats) : M unit :=
  fun st =>
    (Ok tt, {| session_stats := f (session_stats st);
               interception_log := interception_log st |}).

#[global] Instance M_ret : MRet M := @ret.
#[global] Instance M_bind : MBind M := fun A B k m => bind m k.

(** [not v] for the result of [os.getenv] *)
Definition unset (v : option string) : bool :=
  match v with
  | None | Some EmptyString => true
  | Some _ => false
  end.

Section Interceptor.

Variable env : Env.
Variable isoformat : Z -> string.

Definition is_batch_operation (tool_input : pyval) : res bool :=
  has_edits ← contains "edits" tool_input;
  if has_edits : bool then
    edits ← dict_get tool_input "edits" (PList []);
    n ← len edits;
    mret (n >=? batch_edits)
  else mret false.

Definition is_large_directory_operation (tool_input : pyval) : bool := true.

(** [try: ... except (OSError, KeyError): pass]; [Ok false] when the block
    ends without [return True]. *)
Definition except_OSError_KeyError (r : res bool) : res bool :=
  match r with
  | Ok b => Ok b
  | Raise e =>
      match exc_cls e with
      | OSError | KeyError => Ok false
      | _ => Raise e
      end
  end.

Definition is_performance_critical_operation (tool_name : string)
    (tool_input : pyval) : res bool :=
  has_path ← (if in_strs (PStr tool_name) ["Read"; "Write"; "Edit"]
              then contains "file_path" tool_input else Ok false);
  large ← (if has_path : bool then
             except_OSError_KeyError
               (file_path ← getitem tool_input "file_path";
                found ← path_exists env file_path;
                if found : bool then
                  file_size ← getsize env file_path;
                  mret (file_size >? 1024 * 1024)
                else mret false)
           else Ok false);
  if large : bool then mret true
  else if String.eqb tool_name "MultiEdit" then
    edits ← dict_get tool_input "edits" (PList []);
    n ← len edits;
    mret (n >? 1)
  else mret false.

Definition should_auto_activate (self : SessionStats) (tool_name : string)
    (tool_input : pyval) (flags : list string) : res bool :=
  if negb (mem tool_name TOOL_MAPPING) then mret false
  else if total_operations self >=? filesystem_operations then mret true
  else
    batch ← (if String.eqb tool_name "MultiEdit"
             then is_batch_operation tool_input else Ok false);
    if batch : bool then mret true
    else if String.eqb tool_name "LS"
            && is_large_directory_operation tool_input then mret true
    else
      fast ← (if existsb (String.eqb "--morph-fast") flags
              then is_performance_critical_operation tool_name tool_input
              else Ok false);
      if fast : bool then mret true else mret false.

Definition should_intercept (self : SessionStats) (tool_name : string)
    (tool_input : pyval) (flags : list string) : res bool :=
  if existsb (String.eqb "--no-morph") flags then mret false
  else if existsb (String.eqb "--morph-only") flags
  then mret (mem tool_name TOOL_MAPPING)
  else if existsb (String.eqb "--morph") flags
          || existsb (String.eqb "--morphllm") flags
  then mret (mem tool_name TOOL_MAPPING)
  else
    auto ← should_auto_activate self tool_name tool_input flags;
    if auto : bool then mret true else mret false.

Definition validate_morph_server : bool :=
  forallb (fun env_var => negb (unset (getenv env env_var)))
          ["MORPH_API_KEY"; "MORPH_SERVER_URL"].

Definition map_multiedit_parameters (tool_input : pyval) : res pyval :=
  file_path ← dict_get tool_input "file_path" (PStr "");
  edits ← dict_get tool_input "edits" (PList []);
  mret (PDict [ ("file_path", file_path);
                ("edits", edits);
                ("batch_mode", PBool true);
                ("atomic_operation", PBool true) ]).

Definition map_tool_parameters (tool_name : string) (tool_input : pyval)
  : res pyval :=
  if in_strs (PStr tool_name) ["Read"; "Write"; "Edit"; "LS"; "Glob"]
  then mret tool_input
  else if String.eqb tool_name "MultiEdit"
  then map_multiedit_parameters tool_input
  else mret tool_input.

Definition create_morph_tool_call (tool_name : string) (tool_input : pyval)
  : res pyval :=
  let morph_tool_name := default tool_name (assoc tool_name TOOL_MAPPING) in
  mapped_input ← map_tool_parameters tool_name tool_input;
  mret (PDict [ ("tool", PStr morph_tool_name);
                ("input", mapped_input);
                ("original_tool", PStr tool_name);
                ("timestamp", PStr (isoformat (now env)));
                ("session_id", PInt (getpid env)) ]).

Definition log_interception (tool_name action reason : string) : M unit :=
  fun st =>
    let log_entry := PDict
      [ ("timestamp", PStr (isoformat (now env)));
        ("tool_name", PStr tool_name);
        ("action", PStr action);
        ("reason", PStr reason);
        ("session_stats", session_stats_dict (session_stats st)) ] in
    match json_dumps log_entry with
    | Ok line =>
        (Ok tt, {| session_stats := session_stats st;
                   interception_log := (interception_log st ++ [line])%list |})
    | Raise e => (Raise e, st)
    end.

Definition create_fallback_response (tool_name : string) (tool_input : pyval)
  : pyval :=
  PDict [ ("action", PStr "allow");
          ("reason", PStr ("MorphLLM unavailable, using native " ++ tool_name));
          ("fallback_mode", PBool true);
          ("performance_note",
           PStr "Performance may be reduced due to MorphLLM unavailability") ].

Definition morph_flags : list string :=
  ["--morph"; "--morphllm"; "--morph-only"; "--morph-fast"; "--no-morph"].

Definition parse_flags : list string :=
  ((if unset (getenv env "MORPH_ENABLED") then [] else ["--morph"]) ++
   (if unset (getenv env "MORPH_ONLY") then [] else ["--morph-only"]) ++
   (if unset (getenv env "MORPH_FAST") then [] else ["--morph-fast"]) ++
   (if unset (getenv env "NO_MORPH") then [] else ["--no-morph"]) ++
   filter (fun arg => existsb (String.eqb arg) morph_flags) (tl (argv env))
  )%list.

Definition process_tool_call (tool_name : string) (tool_input : pyval)
  : M pyval :=
  _ ← modify_stats (fun s =>
        {| total_operations := total_operations s + 1;
           morph_operations := morph_operations s;
           native_operations := native_operations s;
           fallback_operations := fallback_operations s;
           start_time := start_time s |});
  let flags := parse_flags in
  st ← get_state;
  intercept ← lift (should_intercept (session_stats st) tool_name tool_input
                                     flags);
  if intercept : bool then
    if negb validate_morph_server then
      _ ← log_interception tool_name "fallback" "MorphLLM server unavailable";
      _ ← modify_stats (fun s =>
            {| total_operations := total_operations s;
               morph_operations := morph_operations s;
               native_operations := native_operations s;
               fallback_operations := fallback_operations s + 1;
               start_time := start_time s |});
      mret (create_fallback_response tool_name tool_input)
    else
      morph_call ← lift (create_morph_tool_call tool_name tool_input);
      tool ← lift (getitem morph_call "tool");
      _ ← log_interception tool_name "intercept"
            ("Routing to " ++ match tool with PStr s => s | _ => "" end);
      _ ← modify_stats (fun s =>
            {| total_operations := total_operations s;
               morph_operations := morph_operations s + 1;
               native_operations := native_operations s;
               fallback_operations := fallback_operations s;
               start_time := start_time s |});
      alternative_input ← lift (getitem morph_call "input");
      mret (PDict
        [ ("action", PStr "block");
          ("exit_code", PInt 2);
          ("reason", PStr ("Routing " ++ tool_name ++
                           " to MorphLLM for improved performance"));
          ("alternative_tool", tool);
          ("alternative_input", alternative_input);
          ("morph_metadata",
           PDict [ ("original_tool", PStr tool_name);
                   ("performance_expected", PBool true);
                   ("fallback_available", PBool true) ]) ])
  else
    _ ← modify_stats (fun s =>
          {| total_operations := total_operations s;
             morph_operations := morph_operations s;
             native_operations := native_operations s + 1;
             fallback_operations := fallback_operations s;
             start_time := start_time s |});
    _ ← log_interception tool_name "allow" "Using native tool";
    mret (PDict [ ("action", PStr "allow") ]).

(** [main()], from the construction of the interceptor on: what is
    printed and the exit status.  [sys.exit] raises [SystemExit], which
    [except Exception] does not catch. *)
Definition main (tool_name : string) (tool_input : pyval) : pyval * pyval :=
  let interceptor :=
    {| session_stats :=
         {| total_operations := 0; morph_operations := 0;
            native_operations := 0; fallback_operations := 0;
            start_time := now env |};
       interception_log := [] |} in
  match
    (result ← process_tool_call tool_name tool_input;
     printed ← lift (json_dumps result);
     exit_code ← lift (dict_get result "exit_code" (PInt 0));
     mret (printed, exit_code)) interceptor
  with
  | (Ok out, _) => out
  | (Raise e, _) =>
      (PDict [ ("action", PStr "allow");
               ("error", PStr (exc_msg e));
               ("fallback_mode", PBool true) ], PInt 0)
  end.

End Interceptor.

End MorphToolInterceptor.

(** ** pre_tool_use.py: the bridge request *)

Module PreToolUseHook.

(** The module-level [cache] and [monitor] of performance_optimizer.py,
    and the number of readings taken so far from the two clocks. *)
Record Globals := {
  cache : LRUCache.t pyval;
  monitor : gmap string (list Binary64.float);
  time_reads : nat;
  perf_reads : nat
}.

Definition G (A : Type) : Type := Globals -> res A * Globals.

Definition ret {A} (a : A) : G A := fun g => (Ok a, g).

Definition raise {A} (e : exc) : G A := fun g => (Raise e, g).

Definition bind {A B} (m : G A) (k : A -> G B) : G B :=
  fun g =>
    match m g with
    | (Ok a, g') => k a g'
    | (Raise e, g') => (Raise e, g')
    end.

Definition lift {A} (r : res A) : G A := fun g => (r, g).

#[global] Instance G_ret : MRet G := @ret.
#[global] Instance G_bind : MBind G := fun A B k m => bind m k.

(** [try: m finally: f] *)
Definition finally {A} (m : G A) (f : G unit) : G A :=
  fun g =>
    match m g with
    | (r, g') =>
        match f g' with
        | (Ok _, g'') => (r, g'')
        | (Raise e, g'') => (Raise e, g'')
        end
    end.

(** [bool(v)] *)
Definition truthy (v : pyval) : bool :=
  match v with
  | PNone => false
  | PBool b => b
  | PInt z => negb (z =? 0)
  | PStr s => negb (String.eqb s "")
  | PList l => match l with [] => false | _ => true end
  | PDict d => match d with [] => false | _ => true end
  | PDatetime _ => true
  end.

(** [s.split(sep)] for a separator of [S skip] characters: [cur] is the
    current part and [n] the number of characters still to drop. *)
Fixpoint split_from (sep : string) (skip : nat) (s : string) (n : nat)
    (cur : string) : list string :=
  match s with
  | EmptyString => [cur]
  | String c s' =>
      match n with
      | S n' => split_from sep skip s' n' cur
      | O =>
          if is_prefix sep s then cur :: split_from sep skip s' skip ""
          else split_from sep skip s' O (cur ++ String c "")
      end
  end.

(** [s.split('__')] *)
Definition split_dunder (s : string) : list string :=
  split_from "__" 1 s 0 "".

(** What one call of [route_to_bridge] receives from outside. *)
Record Env := {
  time : nat -> Binary64.float;  (* the successive values of time.time() *)
  perf_counter : nat -> Binary64.float;
                                 (* those of time.perf_counter() *)
  md5_hexdigest : pyval -> string;
                                 (* md5 of the sort_keys JSON text *)
  post : res (Z * res pyval)     (* requests.post: an exception, or the
                                    status code and response.json() *)
}.

(** The fields of the context that [route_to_bridge] reads. *)
Record Context := {
  toolName : string;
  toolArgs : pyval;
  persona : pyval
}.

Section Hook.

Variable env : Env.

(** [self.timeout], in seconds *)
Variable timeout : Binary64.float.

(** [(stop - start) * 1000] and [seconds * 1000] *)
Definition milliseconds_between (start stop : Binary64.float)
  : Binary64.float :=
  Binary64.mul (Binary64.sub stop start) (Binary64.of_int 1000).

Definition milliseconds (seconds : Binary64.float) : Binary64.float :=
  Binary64.mul seconds (Binary64.of_int 1000).

Definition read_time : G Binary64.float :=
  fun g =>
    (Ok (time env (time_reads g)),
     {| cache := cache g; monitor := monitor g;
        time_reads := S (time_reads g); perf_reads := perf_reads g |}).

Definition read_perf_counter : G Binary64.float :=
  fun g =>
    (Ok (perf_counter env (perf_reads g)),
     {| cache := cache g; monitor := monitor g;
        time_reads := time_reads g; perf_reads := S (perf_reads g) |}).

Definition with_cache (g : Globals) (c : LRUCache.t pyval) : Globals :=
  {| cache := c; monitor := monitor g;
     time_reads := time_reads g; perf_reads := perf_reads g |}.

Definition cache_get_at (key : string) (now : Binary64.float)
  : G (option pyval) :=
  fun g =>
    match LRUCache.get key now (cache g) with
    | Ok (r, c) => (Ok r, with_cache g c)
    | Raise e => (Raise e, g)
    end.

(** [cache.get(key)]: [time.time()] is called only when the key is
    present. *)
Definition cache_get (key : string) : G (option pyval) :=
  fun g =>
    if mem key (LRUCache.cache (cache g)) then
      (now ← read_time; cache_get_at key now) g
    else cache_get_at key (Binary64.of_int 0) g.

Definition cache_set_at (key : string) (value : pyval)
    (now : Binary64.float) : G unit :=
  fun g =>
    match LRUCache.set key value now (cache g) with
    | Ok c => (Ok tt, with_cache g c)
    | Raise e => (Raise e, g)
    end.

(** [cache.set(key, value)] *)
Definition cache_set (key : string) (value : pyval) : G unit :=
  now ← read_time;
  cache_set_at key value now.

(** [monitor.record_timing(operation, duration_ms)] *)
Definition record_timing (operation : string)
    (duration_ms : Binary64.float) : G unit :=
  fun g =>
    (Ok tt,
     {| cache := cache g;
        monitor := PerformanceMonitor.record_timing operation duration_ms
                     (monitor g);
        time_reads := time_reads g; perf_reads := perf_reads g |}).

(** [@timed_operation(operation_name)] *)
Definition timed_operation {A} (operation_name : string) (func : G A) : G A :=
  start_time ← read_perf_counter;
  finally func
    (stop ← read_perf_counter;
     record_timing operation_name (milliseconds_between start_time stop)).

(** [@cached_operation(key_func)], with the key already computed *)
Definition cached_operation (cache_key : string) (func : G pyval) : G pyval :=
  cached_result ← cache_get cache_key;
  match cached_result with
  | Some PNone | None =>
      result ← func;
      _ ← cache_set cache_key result;
      mret result
  | Some cached_result => mret cached_result
  end.

Definition generate_cache_key (prefix : string) (data : pyval) : res string :=
  sorted_data ← json_dumps data;
  mret (prefix ++ ":" ++ md5_hexdigest env sorted_data).

Definition routing_map : list (string * pyval) :=
  [ ("Read", PNone);
    ("Analyze", PStr "sequential");
    ("Build", PStr "magic");
    ("Test", PStr "playwright") ].

Definition optimize_mcp_routing (tool_name : string) (tool_args : pyval)
  : G pyval :=
  cache_key ← lift (generate_cache_key "routing"
                      (PDict [("tool", PStr tool_name); ("args", tool_args)]));
  cached_operation cache_key
    (timed_operation "mcp_routing"
       (mret (default PNone (assoc tool_name routing_map)))).

(** [OPTIMIZATION_CONFIG["enable_caching"]] is [True]. *)
Definition should_use_cache (operation : string) : bool :=
  negb (in_strs (PStr operation) ["Write"; "Edit"; "MultiEdit"; "TodoWrite"]).

Definition tool_routes : list (string * string) :=
  [ ("Read", "superclaude-code");
    ("Write", "superclaude-code");
    ("Edit", "superclaude-code");
    ("MultiEdit", "superclaude-code");
    ("Grep", "superclaude-code");
    ("Glob", "superclaude-code");
    ("Bash", "superclaude-orchestrator");
    ("Task", "superclaude-tasks");
    ("TodoWrite", "superclaude-tasks");
    ("WebSearch", "superclaude-intelligence");
    ("WebFetch", "superclaude-intelligence") ].

(** The route named by the second part of an [mcp__] tool name. *)
Definition mcp_server_route (tool_name : string) : option string :=
  if is_prefix "mcp__" tool_name then
    match split_dunder tool_name with
    | _ :: server :: _ =>
        if String.eqb server "sequential-thinking" then Some "sequential"
        else if String.eqb server "context7" then Some "context7"
        else if String.eqb server "magic" then Some "magic"
        else if String.eqb server "playwright" then Some "playwright"
        else None
    | _ => None
    end
  else None.

Definition select_fallback_route (tool_name : string) : G pyval :=
  cached_operation ("fallback_route:" ++ tool_name)
    (optimized_route ← optimize_mcp_routing tool_name (PDict []);
     if truthy optimized_route then mret optimized_route
     else
       match mcp_server_route tool_name with
       | Some route => mret (PStr route)
       | None =>
           mret (PStr (default "superclaude-orchestrator"
                               (assoc tool_name tool_routes)))
       end).

Definition create_fallback_response (context : Context) : G pyval :=
  mcpRoute ← select_fallback_route (toolName context);
  mret (PDict
    [ ("allow", PBool true);
      ("modifiedArgs", toolArgs context);
      ("metadata",
       PDict [ ("fallback", PBool true);
               ("reason", PStr "Bridge service unavailable");
               ("mcpRoute", mcpRoute) ]) ]).

(** The cache lookup that precedes the request: the key, when caching
    applies, and the cached result. *)
Definition bridge_lookup (context : Context)
  : G (option string * option pyval) :=
  if should_use_cache (toolName context) then
    cache_key ← lift (generate_cache_key "bridge_route"
                        (PDict [ ("tool", PStr (toolName context));
                                 ("args", toolArgs context);
                                 ("persona", persona context) ]));
    cached_result ← cache_get cache_key;
    mret (Some cache_key, cached_result)
  else mret (None, None).

(** The [try] block of [route_to_bridge]. *)
Definition bridge_request (context : Context) (cache_key : option string)
  : G pyval :=
  start_time ← read_perf_counter;
  response ← lift (post env);
  stop ← read_perf_counter;
  _ ← record_timing "bridge_request" (milliseconds_between start_time stop);
  if fst response =? 200 then
    result ← lift (snd response);
    _ ← match cache_key with
        | Some cache_key => cache_set cache_key result
        | None => mret tt
        end;
    mret result
  else create_fallback_response context.

(** The [try] block with its two [except] clauses. *)
Definition bridge_request_guarded (context : Context)
    (cache_key : option string) : G pyval :=
  fun g =>
    match bridge_request context cache_key g with
    | (Ok result, g') => (Ok result, g')
    | (Raise e, g') =>
        match exc_cls e with
        | RequestsTimeout =>
            (_ ← record_timing "bridge_timeout" (milliseconds timeout);
             create_fallback_response context) g'
        | _ => create_fallback_response context g'
        end
    end.

Definition route_to_bridge (context : Context) : G pyval :=
  timed_operation "route_to_bridge"
    ('(cache_key, cached_result) ← bridge_lookup context;
     match cached_result with
     | Some cached_result =>
         if truthy cached_result then mret cached_result
         else bridge_request_guarded context cache_key
     | None => bridge_request_guarded context cache_key
     end).

End Hook.

End PreToolUseHook.

(** ** Vocabulary of the statements *)

(** The persisted circuit state of one error kind: a kind without an
    entry reads as no failure and no last failure. *)
Definition persisted (w : MorphErrorHandler.World)
    (kind : MorphErrorHandler.ErrorType) : MorphErrorHandler.CircuitState :=
  default {| MorphErrorHandler.failure_count := 0;
             MorphErrorHandler.last_failure := None |}
          (MorphErrorHandler.circuit_breaker
             (MorphErrorHandler.load_fallback_stats w)
           !! MorphErrorHandler.value kind).

(** The same files, read at time [t]. *)
Definition at_time (t : Z) (w : MorphErrorHandler.World)
  : MorphErrorHandler.World :=
  {| MorphErrorHandler.clock := t;
     MorphErrorHandler.error_log := MorphErrorHandler.error_log w;
     MorphErrorHandler.stats_file := MorphErrorHandler.stats_file w |}.

(** A cache that has served one hit and one miss. *)
Definition one_hit_one_miss : res (LRUCache.t Z) :=
  c ← LRUCache.set "k" 7 (Binary64.of_int 0) (LRUCache.init 1000 300);
  '(_, c) ← LRUCache.get "k" (Binary64.of_int 1) c;
  '(_, c) ← LRUCache.get "other" (Binary64.of_int 2) c;
  mret c.

(** A stats file in which timeouts have tripped the breaker at time 0. *)
Definition tripped : MorphErrorHandler.World :=
  {| MorphErrorHandler.clock := 1000000;
     MorphErrorHandler.error_log := [];
     MorphErrorHandler.stats_file := Some
       {| MorphErrorHandler.total_errors := 5;
          MorphErrorHandler.error_types := {[ "timeout" := 5 ]};
          MorphErrorHandler.fallback_strategies := ∅;
          MorphErrorHandler.circuit_breaker :=
            {[ "timeout" := {| MorphErrorHandler.failure_count := 5;
                               MorphErrorHandler.last_failure := Some 0 |} ]};
          MorphErrorHandler.last_error := Some 0;
          MorphErrorHandler.created := Some 0 |} |}.

(** A first run: no stats file yet. *)
Definition fresh : MorphErrorHandler.World :=
  {| MorphErrorHandler.clock := 0;
     MorphErrorHandler.error_log := [];
     MorphErrorHandler.stats_file := None |}.

(** A timeout observed for the fourth time. *)
Definition timeout_exhausted (kind : MorphErrorHandler.ErrorType)
  : MorphErrorHandler.ErrorContext :=
  {| MorphErrorHandler.tool_name := PStr "mcp__morph__read_file";
     MorphErrorHandler.tool_input := PDict [("file_path", PStr "a.txt")];
     MorphErrorHandler.error_type := kind;
     MorphErrorHandler.error_message := "Operation timed out";
     MorphErrorHandler.timestamp := 0;
     MorphErrorHandler.session_id := "4242";
     MorphErrorHandler.retry_count := 3;
     MorphErrorHandler.fallback_attempted := false |}.

(** An environment in which MorphLLM is requested but not configured. *)
Definition morph_unconfigured : MorphToolInterceptor.Env :=
  {| MorphToolInterceptor.getenv :=
       fun name => if String.eqb name "MORPH_ENABLED" then Some "1" else None;
     MorphToolInterceptor.argv := ["morph_tool_interceptor.py"; "{}"];
     MorphToolInterceptor.path_exists := fun _ => Ok false;
     MorphToolInterceptor.getsize :=
       fun _ => Raise (mkExc OSError "No such file or directory");
     MorphToolInterceptor.now := 0;
     MorphToolInterceptor.getpid := 4242 |}.

(** A rendering of timestamps for the examples. *)
Definition epoch (t : Z) : string := "1970-01-01T00:00:00".

(** [MorphToolInterceptor()] created at time [t]. *)
Definition new_interceptor (t : Z) : MorphToolInterceptor.State :=
  {| MorphToolInterceptor.session_stats :=
       {| MorphToolInterceptor.total_operations := 0;
          MorphToolInterceptor.morph_operations := 0;
          MorphToolInterceptor.native_operations := 0;
          MorphToolInterceptor.fallback_operations := 0;
          MorphToolInterceptor.start_time := t |};
     MorphToolInterceptor.interception_log := [] |}.

(** The actions of a descriptor. *)
Definition actions : list string :=
  ["fallback"; "retry"; "split_batch"; "alternative"; "degrade"; "fail"].

(** A dictionary with one of the known actions under "action". *)
Definition is_descriptor (response : pyval) : Prop :=
  exists action,
    getitem response "action" = Ok (PStr action) /\ In action actions.

(** The descriptor of the [except] clause of [handle_error]. *)
Definition is_ultimate_fallback (tool_input response : pyval) : Prop :=
  exists reason,
    response =
      PDict [ ("action", PStr "fallback");
              ("fallback_tool", PStr "Read");
              ("fallback_input", tool_input);
              ("reason", PStr reason);
              ("ultimate_fallback", PBool true) ].

(** The floats 0.2, 300.0 and 300.2. *)
Definition float_0_2 : Binary64.float :=
  S754_finite false 7205759403792794 (-55).
Definition float_300 : Binary64.float :=
  S754_finite false 5277655813324800 (-44).
Definition float_300_2 : Binary64.float :=
  S754_finite false 5281174250533683 (-44).

(** [float('100') / 1000], the default [self.timeout]: 0.1 *)
Definition timeout_100ms : Binary64.float :=
  S754_finite false 7205759403792794 (-56).

(** *** Rounding *)

(** Some non-zero bit has been shifted out of the mantissa. *)
Definition inexact (mrs : shr_record) : bool := shr_r mrs || shr_s mrs.

(** A zero or a finite float [m * 2^e] of sign [sign] with [e <= 0] and
    [m * 2^e <= b]. *)
Definition at_most (b : Z) (sign : bool) (x : Binary64.float) : Prop :=
  match x with
  | S754_zero s => s = sign
  | S754_finite s m e => s = sign /\ e <= 0 /\ Z.pos m <= b * 2 ^ (- e)
  | _ => False
  end.

(** The number [m * 2^e]. *)
Definition dyadic (m e : Z) : Q :=
  if 0 <=? e then inject_Z (m * 2 ^ e) else (m # Z.to_pos (2 ^ (- e))).

(** [b <= m * 2^e] and [m * 2^e <= b], for integers. *)
Definition scaled_ge (m e b : Z) : Prop :=
  if 0 <=? e then b <= m * 2 ^ e else b * 2 ^ (- e) <= m.

Definition scaled_le (m e b : Z) : Prop :=
  if 0 <=? e then m * 2 ^ e <= b else m <= b * 2 ^ (- e).

(** A float of sign [sign] whose magnitude is at least [b], infinite or
    not; a zero when [b <= 0]. *)
Definition at_least (b : Z) (sign : bool) (x : Binary64.float) : Prop :=
  match x with
  | S754_zero _ => b <= 0
  | S754_finite s m e => s = sign /\ scaled_ge (Z.pos m) e b
  | S754_infinity s => s = sign
  | S754_nan => False
  end.

(** 7 hits and 93 misses. *)
Definition seven_of_100 : LRUCache.t Z :=
  {| LRUCache.max_size := 1000; LRUCache.ttl_seconds := 300;
     LRUCache.cache := [];
     LRUCache.hits := 7; LRUCache.misses := 93 |}.

(** *** Runs of a cache *)

Module CacheRun.

Section Run.

Context {V : Type}.

(** The calls a client can make, with the value of [time.time()] at the
    call. *)
Inductive op :=
| OpGet (key : string) (now : Binary64.float)
| OpSet (key : string) (value : V) (now : Binary64.float).

(** A cache together with a record of its use: [tick] counts the calls
    made so far, and [used k] is the number of the last call that used
    [k], a [set] of [k] or a [get] of [k] that returned its value (0 if
    there was none).  The record is not part of the program. *)
Record traced := {
  state : LRUCache.t V;
  tick : nat;
  used : string -> nat
}.

Definition touch (key : string) (n : nat) (used : string -> nat)
  : string -> nat :=
  fun k => if String.eqb k key then n else used k.

Definition step (o : op) (x : traced) : res traced :=
  match o with
  | OpGet key now =>
      '(r, c) ← LRUCache.get key now (state x);
      mret {| state := c;
              tick := S (tick x);
              used := match r with
                      | Some _ => touch key (S (tick x)) (used x)
                      | None => used x
                      end |}
  | OpSet key value now =>
      c ← LRUCache.set key value now (state x);
      mret {| state := c;
              tick := S (tick x);
              used := touch key (S (tick x)) (used x) |}
  end.

Fixpoint run (ops : list op) (x : traced) : res traced :=
  match ops with
  | [] => Ok x
  | o :: ops' => x' ← step o x; run ops' x'
  end.

(** [LRUCache(max_size, ttl_seconds)], not yet used. *)
Definition start (max_size ttl_seconds : Z) : traced :=
  {| state := LRUCache.init max_size ttl_seconds;
     tick := 0;
     used := fun _ => 0%nat |}.

(** The keys of the cache, oldest first. *)
Definition keys (x : traced) : list string :=
  map fst (LRUCache.cache (state x)).

End Run.

Arguments op : clear implicits.
Arguments traced : clear implicits.

End CacheRun.

(** [ks] lists keys from the least to the most recently used. *)
Definition recency_ordered (used : string -> nat) (ks : list string) : Prop :=
  StronglySorted (fun a b => (used a < used b)%nat) ks.

(** The dictionary of a cache after the [move_to_end] and the assignment
    of [set]. *)
Definition promoted {V} (key : string) (value : V) (now : Binary64.float)
    (c : LRUCache.t V) : list (string * (V * Binary64.float)) :=
  (assoc_del key (LRUCache.cache c) ++ [(key, (value, now))])%list.

(** Two insertions, a hit on the first key, a third insertion. *)
Definition abca : list (CacheRun.op Z) :=
  [ CacheRun.OpSet "a" 1 (Binary64.of_int 0);
    CacheRun.OpSet "b" 2 (Binary64.of_int 1);
    CacheRun.OpGet "a" (Binary64.of_int 2);
    CacheRun.OpSet "c" 3 (Binary64.of_int 3) ].

(** A cache of capacity 2 after the insertion of "a" and of "b". *)
Definition two_entries : CacheRun.traced Z :=
  {| CacheRun.state :=
       {| LRUCache.max_size := 2; LRUCache.ttl_seconds := 300;
          LRUCache.cache := [("a", (1, Binary64.of_int 0));
                             ("b", (2, Binary64.of_int 1))];
          LRUCache.hits := 0; LRUCache.misses := 0 |};
     CacheRun.tick := 2;
     CacheRun.used :=
       CacheRun.touch "b" 2 (CacheRun.touch "a" 1 (fun _ => 0%nat)) |}.

(** The metrics after the calls [record_timing(op, d)] of [trace], made in
    order on a new monitor. *)
Definition recorded (trace : list (string * Q)) : gmap string (list Q) :=
  fold_left (fun metrics sample =>
               PerformanceMonitor.record_timing (fst sample) (snd sample)
                                                metrics)
            trace ∅.

(** The samples 1, 2, ..., 100 recorded for one operation. *)
Definition fixture_1_100 : list (string * Q) :=
  map (fun n => ("op", inject_Z (Z.of_nat n))) (seq 1 100).

(** [int(n * x) == n * p // 100] for every [n] from [lo] to [lo + k - 1] *)
Fixpoint floor_index_agrees (k : nat) (lo : Z) (x : spec_float) (p : Z)
  : bool :=
  match k with
  | O => true
  | S k' =>
      match PerformanceMonitor.int_mul_float lo x with
      | Ok i => i =? lo * p / 100
      | Raise _ => false
      end && floor_index_agrees k' (lo + 1) x p
  end.

(** Every series holds between 1 and 1000 samples. *)
Definition windowed (metrics : gmap string (list Q)) : Prop :=
  forall op ts, metrics !! op = Some ts -> (1 <= length ts <= 1000)%nat.

(** The invariant of a cache of capacity [mx] and its record of use. *)
Record cache_inv {V} (mx : Z) (x : CacheRun.traced V) : Prop := {
  inv_max : LRUCache.max_size (CacheRun.state x) = mx;
  inv_size : Z.of_nat (length (LRUCache.cache (CacheRun.state x))) <= mx;
  inv_order : recency_ordered (CacheRun.used x) (CacheRun.keys x);
  inv_tick :
    Forall (fun k => (CacheRun.used x k <= CacheRun.tick x)%nat)
           (CacheRun.keys x)
}.

(** [create_fallback_response] for [context], with some route. *)
Definition is_bridge_fallback (context : PreToolUseHook.Context)
    (response : pyval) : Prop :=
  exists mcpRoute,
    response =
      PDict
        [ ("allow", PBool true);
          ("modifiedArgs", PreToolUseHook.toolArgs context);
          ("metadata",
           PDict [ ("fallback", PBool true);
                   ("reason", PStr "Bridge service unavailable");
                   ("mcpRoute", mcpRoute) ]) ].

(** A bridge that does not answer within the timeout. *)
Definition bridge_down : PreToolUseHook.Env :=
  {| PreToolUseHook.time := fun n => Binary64.of_int (Z.of_nat n);
     PreToolUseHook.perf_counter :=
       fun n => Binary64.of_int (Z.of_nat n);
     PreToolUseHook.md5_hexdigest :=
       fun _ => "d41d8cd98f00b204e9800998ecf8427e";
     PreToolUseHook.post :=
       Raise (mkExc RequestsTimeout "Read timed out.") |}.

(** The module-level cache and monitor of a new process. *)
Definition new_globals : PreToolUseHook.Globals :=
  {| PreToolUseHook.cache := LRUCache.init 1000 300;
     PreToolUseHook.monitor := ∅;
     PreToolUseHook.time_reads := 0;
     PreToolUseHook.perf_reads := 0 |}.

(** [m] returns, in every state, a value that satisfies [P]. *)
Definition returns {A} (m : PreToolUseHook.G A) (P : A -> Prop) : Prop :=
  forall g, exists a g', m g = (Ok a, g') /\ P a.

(** The number of [get] calls in a sequence. *)
Fixpoint count_gets {V} (ops : list (CacheRun.op V)) : Z :=
  match ops with
  | [] => 0
  | CacheRun.OpGet _ _ :: ops' => 1 + count_gets ops'
  | CacheRun.OpSet _ _ _ :: ops' => count_gets ops'
  end.

(** The durations recorded for [operation] in a trace, oldest first. *)
Fixpoint samples_of (operation : string) (trace : list (string * Q))
  : list Q :=
  match trace with
  | [] => []
  | (op, d) :: trace' =>
      if String.eqb op operation then d :: samples_of operation trace'
      else samples_of operation trace'
  end.

(** 1500 samples recorded for one operation. *)
Definition samples_1500 : list (string * Q) :=
  map (fun n => ("op", inject_Z (Z.of_nat n))) (seq 1 1500).

(** ** morph_error_handler.py: [main] *)

Module MorphErrorHandlerMain.

Section Main.

(** [json.loads], the outcome of the constructor's [os.makedirs],
    [str(os.getpid())] and the rendering of a [datetime]. *)
Variable json_loads : string -> res pyval.
Variable makedirs : res unit.
Variable pid : string.
Variable isoformat : Z -> string.

(** The [try] block of [main], up to [print]. *)
Definition main_try (argv : list string) : MorphErrorHandler.M pyval :=
  arg ← MorphErrorHandler.lift (index argv 1);
  error_data ← MorphErrorHandler.lift (json_loads arg);
  tool_name ← MorphErrorHandler.lift (dict_get error_data "tool_name" (PStr ""));
  tool_input ← MorphErrorHandler.lift
                 (dict_get error_data "tool_input" (PDict []));
  error_message ← MorphErrorHandler.lift
                    (dict_get error_data "error_message" (PStr ""));
  tool_result ← MorphErrorHandler.lift
                  (dict_get error_data "tool_result" (PDict []));
  _ ← MorphErrorHandler.lift makedirs;
  result ← (fun w =>
              let '(result, w') :=
                MorphErrorHandler.handle_error MorphErrorHandler.config pid
                  isoformat tool_name tool_input error_message tool_result w
              in (Ok result, w'));
  MorphErrorHandler.lift (json_dumps result).

(** [main()]: what is printed and the exit status. *)
Definition main (argv : list string) (w : MorphErrorHandler.World)
  : (pyval * Z) * MorphErrorHandler.World :=
  if (Z.of_nat (length argv) <? 2) then
    ((PDict [("error", PStr "No error data provided")], 1), w)
  else
    match main_try argv w with
    | (Ok printed, w') => ((printed, 0), w')
    | (Raise e, w') =>
        ((PDict
            [ ("action", PStr "fallback");
              ("fallback_tool", PStr "Read");
              ("reason",
               PStr ("Critical error handler failure: " ++ exc_msg e));
              ("ultimate_fallback", PBool true) ], 0), w')
    end.

End Main.

End MorphErrorHandlerMain.

(** [w'] has the clock and the circuit states of [w]. *)
Definition same_breaker (w w' : MorphErrorHandler.World) : Prop :=
  MorphErrorHandler.clock w' = MorphErrorHandler.clock w /\
  forall kind, persisted w' kind = persisted w kind.

(** The "action" of a response. *)
Definition action_of (response : pyval) : option string :=
  match getitem response "action" with
  | Ok (PStr action) => Some action
  | _ => None
  end.

(** [handle_error] called [times] with the same arguments, the call
    number [i] being made at time [times[i]]: the actions returned and
    the final state. *)
Fixpoint handle_repeatedly (cfg : MorphErrorHandler.Config) (pid : string)
    (isoformat : Z -> string)
    (tool_name tool_input error_message tool_result : pyval)
    (times : list Z) (w : MorphErrorHandler.World)
  : list (option string) * MorphErrorHandler.World :=
  match times with
  | [] => ([], w)
  | t :: times' =>
      let '(response, w1) :=
        MorphErrorHandler.handle_error cfg pid isoformat tool_name tool_input
          error_message tool_result (at_time t w) in
      let '(actions, w2) :=
        handle_repeatedly cfg pid isoformat tool_name tool_input
          error_message tool_result times' w1 in
      (action_of response :: actions, w2)
  end.

(** The response of [retry_with_backoff] when it asks for a retry. *)
Definition retry_response (cfg : MorphErrorHandler.Config)
    (ctx : MorphErrorHandler.ErrorContext) (delay : Z) : pyval :=
  PDict
    [ ("action", PStr "retry");
      ("retry_delay", PInt delay);
      ("retry_count", PInt (MorphErrorHandler.retry_count ctx + 1));
      ("max_retries", PInt (MorphErrorHandler.max_retry_attempts cfg));
      ("reason",
       PStr ("Retrying after " ++
             MorphErrorHandler.value (MorphErrorHandler.error_type ctx))) ].

(** A stats file with one recorded timeout. *)
Definition tripped_once : MorphErrorHandler.World :=
  {| MorphErrorHandler.clock := 1000000;
     MorphErrorHandler.error_log := [];
     MorphErrorHandler.stats_file := Some
       {| MorphErrorHandler.total_errors := 1;
          MorphErrorHandler.error_types := {[ "timeout" := 1 ]};
          MorphErrorHandler.fallback_strategies := ∅;
          MorphErrorHandler.circuit_breaker :=
            {[ "timeout" := {| MorphErrorHandler.failure_count := 1;
                               MorphErrorHandler.last_failure := Some 0 |} ]};
          MorphErrorHandler.last_error := Some 0;
          MorphErrorHandler.created := Some 0 |} |}.

(** A timeout of [mcp__morph__read_file] seen with [retry_count = n]. *)
Definition timeout_attempt (n : Z) : MorphErrorHandler.ErrorContext :=
  {| MorphErrorHandler.tool_name := PStr "mcp__morph__read_file";
     MorphErrorHandler.tool_input := PDict [("file_path", PStr "a.txt")];
     MorphErrorHandler.error_type := MorphErrorHandler.TIMEOUT;
     MorphErrorHandler.error_message := "Operation timed out";
     MorphErrorHandler.timestamp := 0;
     MorphErrorHandler.session_id := "4242";
     MorphErrorHandler.retry_count := n;
     MorphErrorHandler.fallback_attempted := false |}.

(** A read that ran out of memory. *)
Definition out_of_memory : MorphErrorHandler.ErrorContext :=
  {| MorphErrorHandler.tool_name := PStr "mcp__morph__read_file";
     MorphErrorHandler.tool_input := PDict [("file_path", PStr "big.log")];
     MorphErrorHandler.error_type := MorphErrorHandler.MEMORY_ERROR;
     MorphErrorHandler.error_message := "Out of memory";
     MorphErrorHandler.timestamp := 0;
     MorphErrorHandler.session_id := "4242";
     MorphErrorHandler.retry_count := 0;
     MorphErrorHandler.fallback_attempted := false |}.

(** A failed batch of five edits. *)
Definition five_edits : MorphErrorHandler.ErrorContext :=
  {| MorphErrorHandler.tool_name := PStr "mcp__morph__edit_file";
     MorphErrorHandler.tool_input :=
       PDict [("file_path", PStr "a.txt");
              ("edits", PList [PNone; PNone; PNone; PNone; PNone])];
     MorphErrorHandler.error_type := MorphErrorHandler.UNKNOWN_ERROR;
     MorphErrorHandler.error_message := "batch failed";
     MorphErrorHandler.timestamp := 0;
     MorphErrorHandler.session_id := "4242";
     MorphErrorHandler.retry_count := 0;
     MorphErrorHandler.fallback_attempted := false |}.

(** The native tools that have a MorphLLM equivalent. *)
Definition mapped_tools : list string :=
  map fst MorphToolInterceptor.TOOL_MAPPING.

(** A listing requested with no flag and no MorphLLM variable set. *)
Definition no_flags : MorphToolInterceptor.Env :=
  {| MorphToolInterceptor.getenv := fun _ => None;
     MorphToolInterceptor.argv := ["morph_tool_interceptor.py"; "{}"];
     MorphToolInterceptor.path_exists := fun _ => Ok false;
     MorphToolInterceptor.getsize :=
       fun _ => Raise (mkExc OSError "No such file or directory");
     MorphToolInterceptor.now := 0;
     MorphToolInterceptor.getpid := 4242 |}.

(** The counters after the first statement of [process_tool_call]. *)
Definition counted (s : MorphToolInterceptor.SessionStats)
  : MorphToolInterceptor.SessionStats :=
  {| MorphToolInterceptor.total_operations :=
       MorphToolInterceptor.total_operations s + 1;
     MorphToolInterceptor.morph_operations :=
       MorphToolInterceptor.morph_operations s;
     MorphToolInterceptor.native_operations :=
       MorphToolInterceptor.native_operations s;
     MorphToolInterceptor.fallback_operations :=
       MorphToolInterceptor.fallback_operations s;
     MorphToolInterceptor.start_time := MorphToolInterceptor.start_time s |}.

(** MorphLLM requested on the command line, but switched off by NO_MORPH. *)
Definition morph_switched_off : MorphToolInterceptor.Env :=
  {| MorphToolInterceptor.getenv :=
       fun name =>
         if String.eqb name "MORPH_SERVER_URL" then None else Some "1";
     MorphToolInterceptor.argv :=
       ["morph_tool_interceptor.py"; "{}"; "--morph-only"];
     MorphToolInterceptor.path_exists := fun _ => Ok true;
     MorphToolInterceptor.getsize := fun _ => Ok 2000000;
     MorphToolInterceptor.now := 0;
     MorphToolInterceptor.getpid := 4242 |}.

(** ** pre_tool_use.py: intelligent activation *)

Module PreToolUseActivation.

Section Activation.

(** [self.enable_smart_routing] and [self.enable_selective_activation] *)
Variable enable_smart_routing : bool.
Variable enable_selective_activation : bool.

Definition determine_processing_level (tool_name : string)
    (tool_args : pyval) : string :=
  if negb enable_selective_activation then "full"
  else if is_prefix "mcp__" tool_name then "high"
  else if in_strs (PStr tool_name)
            ["Read"; "Write"; "Edit"; "MultiEdit"; "Grep"; "Glob"]
  then "medium"
  else if in_strs (PStr tool_name) ["Task"; "TodoWrite"; "Bash"]
  then "medium"
  else if in_strs (PStr tool_name) ["LS"; "WebSearch"; "WebFetch"]
  then "minimal"
  else "standard".

Definition mcp_beneficial_tools : list string :=
  [ "mcp__sequential"; "mcp__context7"; "mcp__magic"; "mcp__playwright";
    "Task"; "TodoWrite"; "MultiEdit" ].

Definition needs_mcp_analysis (tool_name : string) : bool :=
  any_in mcp_beneficial_tools tool_name.

Definition should_skip_bridge_routing (tool_name processing_level : string)
  : bool :=
  if negb enable_smart_routing then false
  else if String.eqb processing_level "minimal"
          && in_strs (PStr tool_name) ["LS"]
  then true
  else if String.eqb processing_level "medium"
          && in_strs (PStr tool_name) ["Read"; "Grep"; "Glob"]
          && negb (needs_mcp_analysis tool_name)
  then true
  else false.

End Activation.

End PreToolUseActivation.

(** The key under which [route_to_bridge] caches the decision for a
    context. *)
Definition bridge_key (env : PreToolUseHook.Env)
    (context : PreToolUseHook.Context) : string :=
  "bridge_route:" ++
  PreToolUseHook.md5_hexdigest env
    (PDict [ ("tool", PStr (PreToolUseHook.toolName context));
             ("args", PreToolUseHook.toolArgs context);
             ("persona", PreToolUseHook.persona context) ]).

(** The same clocks and hash, with another answer of the bridge. *)
Definition with_post (env : PreToolUseHook.Env)
    (answer : res (Z * res pyval)) : PreToolUseHook.Env :=
  {| PreToolUseHook.time := PreToolUseHook.time env;
     PreToolUseHook.perf_counter := PreToolUseHook.perf_counter env;
     PreToolUseHook.md5_hexdigest := PreToolUseHook.md5_hexdigest env;
     PreToolUseHook.post := answer |}.

(** A bridge that answers 200 with [result]; the clocks advance by one
    second per reading. *)
Definition bridge_up (result : pyval) : PreToolUseHook.Env :=
  {| PreToolUseHook.time := fun n => Binary64.of_int (Z.of_nat n);
     PreToolUseHook.perf_counter :=
       fun n => Binary64.of_int (Z.of_nat n);
     PreToolUseHook.md5_hexdigest :=
       fun _ => "d41d8cd98f00b204e9800998ecf8427e";
     PreToolUseHook.post := Ok (200, Ok result) |}.

(** The same bridge, with the readings 0, 1000, 1001, ... of
    [time.time()]. *)
Definition bridge_up_late (result : pyval) : PreToolUseHook.Env :=
  {| PreToolUseHook.time :=
       fun n => match n with
                | O => Binary64.of_int 0
                | S k => Binary64.of_int (1000 + Z.of_nat k)
                end;
     PreToolUseHook.perf_counter :=
       fun n => Binary64.of_int (Z.of_nat n);
     PreToolUseHook.md5_hexdigest :=
       fun _ => "d41d8cd98f00b204e9800998ecf8427e";
     PreToolUseHook.post := Ok (200, Ok result) |}.

(** A search for TODO. *)
Definition grep_todo : PreToolUseHook.Context :=
  {| PreToolUseHook.toolName := "Grep";
     PreToolUseHook.toolArgs := PDict [("pattern", PStr "TODO")];
     PreToolUseHook.persona := PNone |}.

(** An answer of the bridge that allows the call. *)
Definition allowed : pyval := PDict [("allow", PBool true)].

(** An answer of the bridge that blocks the call. *)
Definition blocked : pyval := PDict [("allow", PBool false)].

(** A cache that holds [None] under "routing:0", stored at time 0. *)
Definition none_cached : PreToolUseHook.Globals :=
  {| PreToolUseHook.cache :=
       {| LRUCache.max_size := 1000; LRUCache.ttl_seconds := 300;
          LRUCache.cache := [("routing:0", (PNone, Binary64.of_int 0))];
          LRUCache.hits := 0; LRUCache.misses := 0 |};
     PreToolUseHook.monitor := ∅;
     PreToolUseHook.time_reads := 1;
     PreToolUseHook.perf_reads := 0 |}.

(** ** performance_optimizer.py: the monitor's lock *)

Module MonitorLock.

(** A call either ends, with a value or an exception, or waits forever:
    [threading.Lock] is not reentrant, and [acquire] on a lock that the
    calling thread holds never returns. *)
Inductive outcome (A : Type) : Type :=
| Done (r : res A)
| Waits.

Arguments Done {A} r.
Arguments Waits {A}.

(** The monitor: [self.metrics], and whether [self.lock] is held. *)
Record t := {
  metrics : gmap string (list Q);
  held : bool
}.

(** [with self.lock: body] for a body that leaves the metrics alone. *)
Definition with_lock {A} (body : t -> outcome A) (self : t) : outcome A :=
  if held self then Waits
  else body {| metrics := metrics self; held := true |}.

Definition get_stats (operation : string)
  : t -> outcome (option PerformanceMonitor.Stats) :=
  with_lock (fun self =>
    Done (PerformanceMonitor.get_stats operation (metrics self))).

(** [{op: self.get_stats(op) for op in ops}] *)
Fixpoint collect (ops : list string) (self : t)
  : outcome (list (string * option PerformanceMonitor.Stats)) :=
  match ops with
  | [] => Done (Ok [])
  | op :: ops' =>
      match get_stats op self with
      | Done (Ok stats) =>
          match collect ops' self with
          | Done (Ok d) => Done (Ok ((op, stats) :: d))
          | o => o
          end
      | Done (Raise e) => Done (Raise e)
      | Waits => Waits
      end
  end.

Definition get_all_stats
  : t -> outcome (list (string * option PerformanceMonitor.Stats)) :=
  with_lock (fun self => collect (map fst (map_to_list (metrics self))) self).

End MonitorLock.

(** A monitor with one sample, nobody holding its lock. *)
Definition one_sample : MonitorLock.t :=
  {| MonitorLock.metrics := {[ "mcp_routing" := [1%Q] ]};
     MonitorLock.held := false |}.

(** * Properties *)

(** ** Error classifier *)

Section Classifier.

Import MorphErrorHandler.

Example classify_operation_timed_out :
  classify_error "Operation timed out" = TIMEOUT.
Proof. reflexivity. Qed.

Example classify_empty : classify_error "" = UNKNOWN_ERROR.
Proof. reflexivity. Qed.

Example classify_connection_reset :
  classify_error "Connection reset by peer" = SERVER_UNAVAILABLE.
Proof. reflexivity. Qed.

(** The chain of [if]s of [classify_error] is the first-match search
    through [keyword_groups]. *)
Lemma classify_error_unfold (msg : string) :
  classify_error msg = first_match keyword_groups (lower msg).
Proof.
  unfold classify_error, keyword_groups, first_match.
  repeat match goal with
         | |- context [if ?b then _ else _] => destruct b; [reflexivity |]
         end.
  reflexivity.
Qed.

Lemma first_match_none groups s :
  Forall (fun g => any_in (fst g) s = false) groups ->
  first_match groups s = UNKNOWN_ERROR.
Proof.
  induction 1 as [| [keywords kind] rest Hg _ IH]; simpl in *.
  - reflexivity.
  - rewrite Hg. exact IH.
Qed.

Lemma first_match_split before keywords kind after s :
  Forall (fun g => any_in (fst g) s = false) before ->
  any_in keywords s = true ->
  first_match (before ++ (keywords, kind) :: after) s = kind.
Proof.
  induction 1 as [| [keywords' kind'] rest Hg _ IH]; simpl in *; intros Hk.
  - rewrite Hk. reflexivity.
  - rewrite Hg. auto.
Qed.

(** [first_match] returns the kind of the first group one of whose
    keywords occurs in [s]. *)
Lemma first_match_spec groups s kind :
  first_match groups s = kind <->
  (exists before keywords after,
      groups = (before ++ (keywords, kind) :: after)%list /\
      any_in keywords s = true /\
      Forall (fun g => any_in (fst g) s = false) before) \/
  (kind = UNKNOWN_ERROR /\
   Forall (fun g => any_in (fst g) s = false) groups).
Proof.
  split.
  - revert kind.
    induction groups as [| [keywords kind'] rest IH]; simpl; intros kind H.
    + right. split; [congruence | constructor].
    + destruct (any_in keywords s) eqn:Hk.
      * left. exists [], keywords, rest. subst kind'. repeat split; auto.
      * destruct (IH kind H) as [(before & kws & after & -> & Hm & Hb) | [-> Hn]].
        -- left. exists ((keywords, kind') :: before), kws, after.
           repeat split; auto.
        -- right. split; [reflexivity |]. constructor; auto.
  - intros [(before & keywords & after & -> & Hm & Hb) | [-> Hn]].
    + apply first_match_split; assumption.
    + apply first_match_none; assumption.
Qed.

(** C1, counterexample: "Connection timed out" contains "connection", a
    keyword of the connectivity group, which is tested before the timeout
    group; the classifier answers [SERVER_UNAVAILABLE], not [TIMEOUT]. *)
Lemma classify_connection_timed_out_not_timeout :
  classify_error "Connection timed out" = SERVER_UNAVAILABLE /\
  classify_error "Connection timed out" <> TIMEOUT.
Proof. split; [reflexivity | discriminate]. Qed.

(** C1, amended: classification is the first-match search through the
    keyword groups in the order connectivity, auth, timeout, file-lock,
    permission, memory, network, tool-mapping, on the lower-cased message,
    with [UNKNOWN_ERROR] when no group matches; on "Connection timed out"
    the connectivity group matches first and the answer is
    [SERVER_UNAVAILABLE]. *)
Theorem classify_error_first_group_wins :
  (forall msg, classify_error msg = first_match keyword_groups (lower msg)) /\
  map snd keyword_groups =
    [ SERVER_UNAVAILABLE; API_KEY_INVALID; TIMEOUT; FILE_LOCK;
      PERMISSION_DENIED; MEMORY_ERROR; NETWORK_ERROR; TOOL_MAPPING_ERROR ] /\
  (forall msg kind,
      classify_error msg = kind <->
      (exists before keywords after,
          keyword_groups = (before ++ (keywords, kind) :: after)%list /\
          any_in keywords (lower msg) = true /\
          Forall (fun g => any_in (fst g) (lower msg) = false) before) \/
      (kind = UNKNOWN_ERROR /\
       Forall (fun g => any_in (fst g) (lower msg) = false) keyword_groups)) /\
  classify_error "Connection timed out" = SERVER_UNAVAILABLE /\
  classify_error "" = UNKNOWN_ERROR.
Proof.
  split; [exact classify_error_unfold |].
  split; [reflexivity |].
  split; [| split; reflexivity].
  intros msg kind. rewrite classify_error_unfold. apply first_match_spec.
Qed.

End Classifier.

(** ** Rounding to binary64 *)

Section Rounding.

Import Binary64.

Lemma digits2_pos_size p : digits2_pos p = Pos.size p.
Proof. induction p; simpl; congruence. Qed.

Lemma Zdigits2_le m k : 0 <= k -> 0 <= m < 2 ^ k -> Zdigits2 m <= k.
Proof.
  intros Hk [Hm Hlt]. destruct m as [| p | p]; simpl; [exact Hk | | lia].
  rewrite digits2_pos_size.
  destruct (Z.le_gt_cases (Z.pos (Pos.size p)) k) as [H | H]; [exact H |].
  exfalso.
  pose proof (Pos.size_le p) as Hs.
  assert (Hp : 2 ^ Z.pos (Pos.size p) <= 2 * Z.pos p).
  { rewrite <- Pos2Z.inj_pow. change (2 * Z.pos p) with (Z.pos p~0).
    apply Pos2Z.pos_le_pos. exact Hs. }
  assert (Hk1 : 2 ^ (k + 1) <= 2 ^ Z.pos (Pos.size p)).
  { apply Z.pow_le_mono_r; lia. }
  rewrite Z.pow_add_r in Hk1 by lia. lia.
Qed.

Lemma iter_pos_nat {A} (f : A -> A) p x :
  SpecFloat.iter_pos f p x = Nat.iter (Pos.to_nat p) f x.
Proof.
  revert x.
  induction p as [p IH | p IH |]; intros x; cbn [SpecFloat.iter_pos].
  - rewrite !IH. rewrite Pos2Nat.inj_xI.
    rewrite <- Nat.iter_add, <- Nat.iter_succ_r. f_equal. lia.
  - rewrite !IH. rewrite Pos2Nat.inj_xO.
    rewrite <- Nat.iter_add. f_equal. lia.
  - reflexivity.
Qed.

Lemma shr_1_spec mrs :
  0 <= shr_m mrs ->
  shr_m (shr_1 mrs) = shr_m mrs / 2 /\
  (inexact (shr_1 mrs) = true ->
   inexact mrs = true \/ shr_m mrs mod 2 <> 0).
Proof.
  destruct mrs as [m r s]. unfold inexact.
  cbn [shr_m shr_r shr_s shr_1]. intros Hm.
  destruct m as [| [p | p |] | p]; cbn [shr_m shr_r shr_s]; try lia.
  - split; [reflexivity |]. rewrite orb_false_l. auto.
  - split.
    + rewrite Pos2Z.inj_xI.
      apply (Z.div_unique _ _ _ 1); lia.
    + intros _. right. rewrite Pos2Z.inj_xI.
      rewrite Z.add_comm, Z.mul_comm, Z.mod_add by lia. discriminate.
  - split.
    + rewrite Pos2Z.inj_xO.
      apply (Z.div_unique _ _ _ 0); lia.
    + rewrite orb_false_l. auto.
  - split; [reflexivity |]. intros _. right. discriminate.
Qed.

Lemma shr_iter_spec n mrs :
  0 <= shr_m mrs ->
  shr_m (Nat.iter n shr_1 mrs) = shr_m mrs / 2 ^ Z.of_nat n /\
  (inexact (Nat.iter n shr_1 mrs) = true ->
   inexact mrs = true \/ shr_m mrs mod 2 ^ Z.of_nat n <> 0).
Proof.
  intros Hm. induction n as [| n [IHm IHi]].
  - simpl. rewrite Z.div_1_r. split; [reflexivity | auto].
  - rewrite Nat.iter_succ.
    assert (Hpos : 0 <= shr_m (Nat.iter n shr_1 mrs)).
    { rewrite IHm. apply Z.div_pos; lia. }
    destruct (shr_1_spec _ Hpos) as [H1 H2].
    rewrite Nat2Z.inj_succ, Z.pow_succ_r by lia.
    split.
    + rewrite H1, IHm. rewrite Z.div_div by lia. f_equal. lia.
    + intros Hi. destruct (H2 Hi) as [H | H].
      * destruct (IHi H) as [H' | H']; [left; exact H' |].
        right. intros E. apply H'.
        rewrite Z.mul_comm in E.
        rewrite Z.rem_mul_r in E by lia. 
        assert (0 <= shr_m mrs mod 2 ^ Z.of_nat n) by (apply Z.mod_pos_bound; lia).
        assert (0 <= (shr_m mrs / 2 ^ Z.of_nat n) mod 2)
          by (apply Z.mod_pos_bound; lia).
        nia.
      * right. intros E. apply H. rewrite IHm.
        rewrite Z.mul_comm in E.
        rewrite Z.rem_mul_r in E by lia.
        assert (0 <= shr_m mrs mod 2 ^ Z.of_nat n) by (apply Z.mod_pos_bound; lia).
        assert (0 <= (shr_m mrs / 2 ^ Z.of_nat n) mod 2)
          by (apply Z.mod_pos_bound; lia).
        assert (0 < 2 ^ Z.of_nat n) by lia.
        nia.
Qed.

Lemma loc_of_record_of_loc m l :
  loc_of_shr_record (shr_record_of_loc m l) = l /\
  shr_m (shr_record_of_loc m l) = m.
Proof. destruct l as [| []]; split; reflexivity. Qed.

Lemma loc_inexact mrs :
  loc_of_shr_record mrs <> loc_Exact -> inexact mrs = true.
Proof.
  destruct mrs as [m [|] [|]]; unfold inexact; simpl; intros H;
    try reflexivity. contradiction H. reflexivity.
Qed.

Lemma inexact_record_of_loc m l :
  inexact (shr_record_of_loc m l) = true -> l <> loc_Exact.
Proof. destruct l as [| []]; simpl; [discriminate | | |]; intros _ H; discriminate H. Qed.

(** One normalisation step keeps a value below an integer bound. *)
Lemma shr_fexp_bound mx ex lx b :
  0 <= mx -> ex <= 0 -> 0 <= b < 2 ^ 53 ->
  mx <= b * 2 ^ (- ex) ->
  (lx <> loc_Exact -> mx < b * 2 ^ (- ex)) ->
  let '(mrs', e') := shr_fexp prec emax mx ex lx in
  e' <= 0 /\ 0 <= shr_m mrs' /\ shr_m mrs' <= b * 2 ^ (- e') /\
  (loc_of_shr_record mrs' <> loc_Exact -> shr_m mrs' < b * 2 ^ (- e')).
Proof.
  intros Hmx Hex Hb Hle Hlt. unfold shr_fexp, shr.
  destruct (loc_of_record_of_loc mx lx) as [Hloc Hm].
  set (n := fexp prec emax (Zdigits2 mx + ex) - ex).
  destruct n as [| p | p] eqn:En; try (rewrite Hloc, Hm; auto).
  rewrite iter_pos_nat.
  assert (Hm0 : 0 <= shr_m (shr_record_of_loc mx lx)) by (rewrite Hm; exact Hmx).
  destruct (shr_iter_spec (Pos.to_nat p) _ Hm0) as [H1 H2].
  rewrite Hm in H1, H2. rewrite positive_nat_Z in H1, H2.
  set (mrs' := Nat.iter (Pos.to_nat p) shr_1 (shr_record_of_loc mx lx)) in *.
  assert (Hd : Zdigits2 mx <= 53 - ex).
  { apply Zdigits2_le; [lia |]. split; [exact Hmx |].
    replace (53 - ex) with (53 + - ex) by lia.
    rewrite Z.pow_add_r by lia.
    assert (0 < 2 ^ (- ex)) by (apply Z.pow_pos_nonneg; lia). nia. }
  assert (He : ex + Z.pos p <= 0).
  { subst n. unfold fexp, emin, prec, emax in En. lia. }
  assert (Hpow : 2 ^ (- ex) = 2 ^ (- (ex + Z.pos p)) * 2 ^ Z.pos p).
  { rewrite <- Z.pow_add_r by lia. f_equal. lia. }
  assert (Hp : 0 < 2 ^ Z.pos p) by (apply Z.pow_pos_nonneg; lia).
  set (B := b * 2 ^ (- (ex + Z.pos p))) in *.
  assert (HB : b * 2 ^ (- ex) = B * 2 ^ Z.pos p).
  { rewrite Hpow. unfold B. ring. }
  rewrite HB in Hle, Hlt.
  split; [exact He |]. rewrite H1.
  split; [apply Z.div_pos; lia |].
  split.
  - apply Z.div_le_upper_bound; lia.
  - intros Hinex. apply loc_inexact in Hinex.
    destruct (H2 Hinex) as [Hl | Hr].
    + apply inexact_record_of_loc in Hl.
      apply Z.div_lt_upper_bound; [lia |]. specialize (Hlt Hl). lia.
    + pose proof (Z.div_mod mx (2 ^ Z.pos p) ltac:(lia)) as Hdm.
      pose proof (Z.mod_pos_bound mx (2 ^ Z.pos p) Hp) as Hmod.
      nia.
Qed.

Lemma round_nearest_even_bound mrs B :
  0 <= shr_m mrs -> shr_m mrs <= B ->
  (loc_of_shr_record mrs <> loc_Exact -> shr_m mrs < B) ->
  0 <= round_nearest_even (shr_m mrs) (loc_of_shr_record mrs) <= B.
Proof.
  intros H0 Hle Hlt. unfold round_nearest_even.
  destruct (loc_of_shr_record mrs) as [| []]; try lia.
  - destruct (Z.even _); [lia |].
    assert (shr_m mrs < B) by (apply Hlt; discriminate). lia.
  - assert (shr_m mrs < B) by (apply Hlt; discriminate). lia.
Qed.

(** The rounded value stays below an integer bound that the exact value
    does not exceed. *)
Lemma binary_round_aux_bound sx mx ex lx b :
  0 <= mx -> ex <= 0 -> 0 <= b < 2 ^ 53 ->
  mx <= b * 2 ^ (- ex) ->
  (lx <> loc_Exact -> mx < b * 2 ^ (- ex)) ->
  at_most b sx (binary_round_aux prec emax sx mx ex lx).
Proof.
  intros Hmx Hex Hb Hle Hlt. unfold binary_round_aux.
  pose proof (shr_fexp_bound mx ex lx b Hmx Hex Hb Hle Hlt) as H1.
  destruct (shr_fexp prec emax mx ex lx) as [mrs' e'].
  destruct H1 as (He' & Hm0 & Hmle & Hmlt).
  pose proof (round_nearest_even_bound mrs' _ Hm0 Hmle Hmlt) as [Hr0 Hrle].
  set (m2 := round_nearest_even (shr_m mrs') (loc_of_shr_record mrs')) in *.
  pose proof (shr_fexp_bound m2 e' loc_Exact b Hr0 He' Hb Hrle
                ltac:(intros H; contradiction H; reflexivity)) as H2.
  destruct (shr_fexp prec emax m2 e' loc_Exact) as [mrs'' e''].
  destruct H2 as (He'' & Hm30 & Hm3le & _).
  destruct (shr_m mrs'') as [| m | m]; simpl; [reflexivity | | lia].
  change (emax - prec) with 971.
  destruct (Z.leb_spec e'' 971) as [_ | Hbig]; [| lia].
  simpl. repeat split; assumption.
Qed.

Lemma new_location_exact nb_steps k :
  new_location nb_steps k <> loc_Exact -> k <> 0.
Proof.
  unfold new_location, new_location_even, new_location_odd.
  intros H ->. destruct (Z.even nb_steps); apply H; reflexivity.
Qed.

(** [h / t] for two ints with [0 < h <= t] is at most 1. *)
Lemma int_div_at_most_one h t :
  0 < h <= t ->
  at_most 1 false (SFdiv prec emax (exact_int h) (exact_int t)).
Proof.
  intros [Hh Hle].
  destruct h as [| h | h]; try lia. destruct t as [| t | t]; try lia.
  unfold exact_int, SFdiv, SFdiv_core_binary.
  set (e' := Z.min (fexp prec emax
                      (Zdigits2 (Z.pos h) + 0 - (Zdigits2 (Z.pos t) + 0)))
                   (0 - 0)).
  assert (He' : e' <= 0) by (subst e'; lia).
  set (m' := match 0 - 0 - e' with
             | 0 => Z.pos h
             | Z.pos _ => Z.shiftl (Z.pos h) (0 - 0 - e')
             | Z.neg _ => 0
             end).
  assert (Hm' : m' = Z.pos h * 2 ^ (- e')).
  { subst m'. replace (0 - 0 - e') with (- e') by lia.
    destruct (- e') as [| p | p] eqn:E; [| | lia].
    - rewrite Z.mul_1_r. reflexivity.
    - apply Z.shiftl_mul_pow2. lia. }
  pose proof (Z.div_eucl_eq m' (Z.pos t) ltac:(lia)) as Heq.
  pose proof (Z.mod_pos_bound m' (Z.pos t) ltac:(lia)) as Hmod.
  unfold Z.modulo in Hmod.
  destruct (Z.div_eucl m' (Z.pos t)) as [q r].
  cbn [xorb].
  assert (Hp : 0 < 2 ^ (- e')) by (apply Z.pow_pos_nonneg; lia).
  apply binary_round_aux_bound.
  - nia.
  - exact He'.
  - lia.
  - nia.
  - intros Hloc. apply new_location_exact in Hloc. nia.
Qed.

(** [hits / total] for counters with [0 <= hits <= total] and
    [0 < total] is a float that is at most 1. *)
Lemma int_truediv_at_most_one h t :
  0 <= h <= t -> 0 < t ->
  exists q, int_truediv h t = Ok q /\ at_most 1 false q.
Proof.
  intros [Hh Hle] Ht. unfold int_truediv.
  destruct (Z.eqb_spec t 0) as [-> | _]; [lia |].
  assert (H : at_most 1 false (SFdiv prec emax (exact_int h) (exact_int t))).
  { destruct (Z.eq_dec h 0) as [-> | Hn0].
    - destruct t as [| t | t]; try lia. reflexivity.
    - apply int_div_at_most_one. lia. }
  destruct (SFdiv prec emax (exact_int h) (exact_int t)) as [s | s | | s m e];
    try contradiction; eexists; (split; [reflexivity | exact H]).
Qed.

(** [q * 100] for a float [q] that is at most 1 is at most 100. *)
Lemma mul_100_at_most q :
  at_most 1 false q -> at_most 100 false (mul q (of_int 100)).
Proof.
  change (of_int 100) with (S754_finite false 7036874417766400 (-46)).
  unfold mul.
  destruct q as [s | s | | s m e]; cbn [at_most SFmul]; try contradiction.
  - intros ->. reflexivity.
  - intros (-> & He & Hm). cbn [xorb]. rewrite Z.mul_1_l in Hm.
    assert (Hp : 0 < 2 ^ (- e)) by (apply Z.pow_pos_nonneg; lia).
    apply binary_round_aux_bound.
    + lia.
    + lia.
    + lia.
    + replace (- (e + -46)) with (- e + 46) by lia.
      rewrite Z.pow_add_r by lia. rewrite Pos2Z.inj_mul.
      change (2 ^ 46) with 70368744177664.
      assert (H : Z.pos m * 7036874417766400
                  <= 2 ^ (- e) * 7036874417766400)
        by (apply Z.mul_le_mono_nonneg_r; lia).
      lia.
    + intros H. contradiction H. reflexivity.
Qed.

(** A float that is [at_most b] has a value between 0 and [b]. *)
Lemma at_most_value b x :
  0 <= b -> at_most b false x ->
  exists v, value x = Some v /\ (0 <= v <= inject_Z b)%Q.
Proof.
  intros Hb.
  destruct x as [s | s | | s m e]; cbn [at_most value]; try contradiction.
  - intros ->. exists 0%Q. split; [reflexivity |]. split; [apply Qle_refl |].
    change 0%Q with (inject_Z 0). rewrite <- Zle_Qle. exact Hb.
  - intros (-> & He & Hm). eexists. split; [reflexivity |].
    destruct (Z.leb_spec 0 e) as [H0 | H0].
    + assert (e = 0) by lia. subst e.
      change (- 0) with 0 in Hm. rewrite Z.pow_0_r, Z.mul_1_r in *.
      change 0%Q with (inject_Z 0). rewrite <- !Zle_Qle. lia.
    + assert (Hp : 0 < 2 ^ (- e)) by (apply Z.pow_pos_nonneg; lia).
      unfold Qle. cbn [Qnum Qden inject_Z].
      rewrite Z2Pos.id by lia. lia.
Qed.

End Rounding.

(** ** Differences of floats *)

Section Age.

Import Binary64.

Lemma Zdigits2_ge m : 0 < m -> 2 ^ (Zdigits2 m - 1) <= m.
Proof.
  destruct m as [| p | p]; try lia. intros _. simpl.
  rewrite digits2_pos_size.
  pose proof (Pos.size_le p) as Hs.
  assert (Hp : 2 ^ Z.pos (Pos.size p) <= 2 * Z.pos p).
  { rewrite <- Pos2Z.inj_pow. change (2 * Z.pos p) with (Z.pos p~0).
    apply Pos2Z.pos_le_pos. exact Hs. }
  replace (Z.pos (Pos.size p)) with (Z.pos (Pos.size p) - 1 + 1) in Hp by lia.
  rewrite Z.pow_add_r in Hp by lia. lia.
Qed.

Lemma Zdigits2_pos p : 1 <= Zdigits2 (Z.pos p).
Proof. simpl. lia. Qed.

Lemma pow2_pos k : 0 <= k -> 0 < 2 ^ k.
Proof. intros. apply Z.pow_pos_nonneg; lia. Qed.

Lemma pow2_split a b : 0 <= a -> 0 <= b -> 2 ^ (a + b) = 2 ^ a * 2 ^ b.
Proof. intros. apply Z.pow_add_r; assumption. Qed.

(** A positive mantissa of [d] digits at exponent [e] is at least
    [2^(d - 1 + e)]: below [2^53] it has [d + e <= 53]. *)
Lemma digits_of_bound m e b :
  0 < m -> b < 2 ^ 53 -> scaled_le m e b -> Zdigits2 m + e <= 53.
Proof.
  intros Hm Hb Hle.
  pose proof (Zdigits2_ge m Hm) as Hd.
  assert (Hd1 : 1 <= Zdigits2 m) by (destruct m; try lia; apply Zdigits2_pos).
  destruct (Z.le_gt_cases (Zdigits2 m + e) 53) as [H | H]; [exact H |].
  exfalso. unfold scaled_le in Hle.
  destruct (Z.leb_spec 0 e) as [He | He].
  - assert (H53 : 2 ^ 53 <= 2 ^ (Zdigits2 m - 1 + e))
      by (apply Z.pow_le_mono_r; lia).
    rewrite pow2_split in H53 by lia.
    pose proof (pow2_pos e He). nia.
  - assert (H53 : 2 ^ (53 + - e) <= 2 ^ (Zdigits2 m - 1))
      by (apply Z.pow_le_mono_r; lia).
    rewrite pow2_split in H53 by lia.
    pose proof (pow2_pos (- e) ltac:(lia)). nia.
Qed.

Lemma shl_align_spec mx ex e' :
  let '(mz, ez) := shl_align mx ex e' in
  ez = Z.min ex e' /\ Z.pos mz = Z.pos mx * 2 ^ (ex - ez).
Proof.
  unfold shl_align.
  destruct (e' - ex) as [| d | d] eqn:E.
  - split; [lia |]. replace (ex - ex) with 0 by lia. lia.
  - split; [lia |]. replace (ex - ex) with 0 by lia. lia.
  - split; [lia |].
    change (Pos.iter xO mx d) with (shift_pos d mx).
    rewrite shift_pos_correct. change (Z.pow_pos 2 d) with (2 ^ Z.pos d).
    replace (ex - e') with (Z.pos d) by lia. lia.
Qed.

Lemma scaled_le_shift m e e' b :
  e' <= e -> scaled_le m e b -> scaled_le (m * 2 ^ (e - e')) e' b.
Proof.
  intros He. unfold scaled_le.
  pose proof (pow2_pos (e - e') ltac:(lia)) as Hp.
  destruct (Z.leb_spec 0 e) as [H0 | H0];
    destruct (Z.leb_spec 0 e') as [H0' | H0']; try lia; intros H.
  - rewrite <- Z.mul_assoc, <- pow2_split by lia.
    replace (e - e' + e') with e by lia. exact H.
  - replace (e - e') with (e + - e') by lia.
    rewrite pow2_split by lia.
    pose proof (pow2_pos (- e') ltac:(lia)). nia.
  - replace (- e') with (- e + (e - e')) by lia.
    rewrite pow2_split by lia.
    pose proof (pow2_pos (- e) ltac:(lia)). nia.
Qed.

Lemma scaled_ge_shift m e e' b :
  e' <= e -> scaled_ge m e b -> scaled_ge (m * 2 ^ (e - e')) e' b.
Proof.
  intros He. unfold scaled_ge.
  pose proof (pow2_pos (e - e') ltac:(lia)) as Hp.
  destruct (Z.leb_spec 0 e) as [H0 | H0];
    destruct (Z.leb_spec 0 e') as [H0' | H0']; try lia; intros H.
  - rewrite <- Z.mul_assoc, <- pow2_split by lia.
    replace (e - e' + e') with e by lia. exact H.
  - replace (e - e') with (e + - e') by lia.
    rewrite pow2_split by lia.
    pose proof (pow2_pos (- e') ltac:(lia)). nia.
  - replace (- e') with (- e + (e - e')) by lia.
    rewrite pow2_split by lia.
    pose proof (pow2_pos (- e) ltac:(lia)). nia.
Qed.

(** Rounding a positive mantissa keeps it below an integer bound
    [b < 2^53]. *)
Lemma binary_round_bound sx mx ex b :
  0 <= b < 2 ^ 53 -> scaled_le (Z.pos mx) ex b ->
  at_most b sx (binary_round prec emax sx mx ex).
Proof.
  intros Hb Hle. unfold binary_round.
  pose proof (digits_of_bound (Z.pos mx) ex b ltac:(lia) ltac:(lia) Hle) as Hd.
  change (Z.pos (digits2_pos mx)) with (Zdigits2 (Z.pos mx)).
  set (f := fexp prec emax (Zdigits2 (Z.pos mx) + ex)).
  assert (Hf : f <= 0) by (subst f; unfold fexp, emin, prec, emax; lia).
  pose proof (shl_align_spec mx ex f) as Hal.
  destruct (shl_align mx ex f) as [mz ez]. destruct Hal as [Hez Hmz].
  assert (Hez0 : ez <= 0) by lia.
  pose proof (scaled_le_shift (Z.pos mx) ex ez b ltac:(lia) Hle) as Hle'.
  rewrite <- Hmz in Hle'. unfold scaled_le in Hle'.
  apply binary_round_aux_bound.
  - lia.
  - exact Hez0.
  - exact Hb.
  - destruct (Z.leb_spec 0 ez); [| exact Hle'].
    assert (E : ez = 0) by lia. rewrite E in Hle' |- *.
    change (- 0) with 0. rewrite Z.pow_0_r in *. lia.
  - intros H. contradiction H. reflexivity.
Qed.

(** One normalisation step keeps a value above an integer bound
    [b <= 2^53]. *)
Lemma shr_fexp_lower mx ex lx b :
  0 <= mx -> b <= 2 ^ 53 -> scaled_ge mx ex b ->
  let '(mrs', e') := shr_fexp prec emax mx ex lx in
  0 <= shr_m mrs' /\ scaled_ge (shr_m mrs') e' b.
Proof.
  intros Hmx Hb Hge. unfold shr_fexp, shr.
  destruct (loc_of_record_of_loc mx lx) as [_ Hm].
  set (n := fexp prec emax (Zdigits2 mx + ex) - ex).
  destruct n as [| p | p] eqn:En; try (rewrite Hm; auto).
  rewrite iter_pos_nat.
  assert (Hm0 : 0 <= shr_m (shr_record_of_loc mx lx)) by (rewrite Hm; exact Hmx).
  destruct (shr_iter_spec (Pos.to_nat p) _ Hm0) as [H1 _].
  rewrite Hm in H1. rewrite positive_nat_Z in H1. rewrite H1.
  assert (Hp : 0 < 2 ^ Z.pos p) by (apply pow2_pos; lia).
  split; [apply Z.div_pos; lia |].
  unfold scaled_ge in *.
  destruct (Z.leb_spec 0 (ex + Z.pos p)) as [He' | He'].
  - destruct (Z.eq_dec (ex + Z.pos p) 0) as [E0 | En0].
    + rewrite E0. rewrite Z.pow_0_r, Z.mul_1_r.
      destruct (Z.leb_spec 0 ex) as [He | He]; [lia |].
      replace (- ex) with (Z.pos p) in Hge by lia.
      apply Z.div_le_lower_bound; lia.
    + (* the result has 53 digits at a positive exponent *)
      assert (Hmpos : 0 < mx).
      { destruct (Z.eq_dec mx 0) as [-> | ]; [| lia].
        subst n. unfold fexp, emin, prec, emax in En. simpl in En. lia. }
      pose proof (Zdigits2_ge mx Hmpos) as Hd.
      assert (Hd1 : 1 <= Zdigits2 mx)
        by (destruct mx; try lia; apply Zdigits2_pos).
      assert (Ep : Z.pos p = Zdigits2 mx - 53)
        by (subst n; unfold fexp, emin, prec, emax in En; lia).
      assert (H52 : 2 ^ 52 <= mx / 2 ^ Z.pos p).
      { apply Z.div_le_lower_bound; [lia |].
        rewrite Z.mul_comm, <- pow2_split by lia.
        replace (52 + Z.pos p) with (Zdigits2 mx - 1) by lia. exact Hd. }
      assert (H2 : 2 <= 2 ^ (ex + Z.pos p)).
      { change 2 with (2 ^ 1) at 1. apply Z.pow_le_mono_r; lia. }
      change (2 ^ 53) with (2 ^ 52 * 2) in Hb. nia.
  - destruct (Z.leb_spec 0 ex) as [He | He]; [lia |].
    apply Z.div_le_lower_bound; [lia |].
    replace (- ex) with (Z.pos p + - (ex + Z.pos p)) in Hge by lia.
    rewrite pow2_split in Hge by lia. lia.
Qed.

Lemma round_nearest_even_ge m l : m <= round_nearest_even m l.
Proof.
  unfold round_nearest_even. destruct l as [| []]; try lia.
  destruct (Z.even m); lia.
Qed.

Lemma scaled_ge_mono m m' e b :
  m <= m' -> scaled_ge m e b -> scaled_ge m' e b.
Proof.
  intros Hm. unfold scaled_ge.
  destruct (Z.leb_spec 0 e) as [He | He]; [| lia].
  pose proof (pow2_pos e He). nia.
Qed.

(** The rounded value stays above an integer bound that the exact value
    reaches. *)
Lemma binary_round_aux_lower sx mx ex lx b :
  0 <= mx -> b <= 2 ^ 53 -> scaled_ge mx ex b ->
  at_least b sx (binary_round_aux prec emax sx mx ex lx).
Proof.
  intros Hmx Hb Hge. unfold binary_round_aux.
  pose proof (shr_fexp_lower mx ex lx b Hmx Hb Hge) as H1.
  destruct (shr_fexp prec emax mx ex lx) as [mrs' e'].
  destruct H1 as [Hm0 Hge1].
  pose proof (round_nearest_even_ge (shr_m mrs') (loc_of_shr_record mrs'))
    as Hr.
  set (m2 := round_nearest_even (shr_m mrs') (loc_of_shr_record mrs')) in *.
  pose proof (shr_fexp_lower m2 e' loc_Exact b ltac:(lia) Hb
                (scaled_ge_mono _ _ _ _ Hr Hge1)) as H2.
  destruct (shr_fexp prec emax m2 e' loc_Exact) as [mrs'' e''].
  destruct H2 as [Hm3 Hge3].
  destruct (shr_m mrs'') as [| m | m]; cbn [at_least]; [| | lia].
  - unfold scaled_ge in Hge3.
    destruct (Z.leb_spec 0 e''); [lia |].
    pose proof (pow2_pos (- e'') ltac:(lia)). nia.
  - destruct (e'' <=? emax - prec); cbn [at_least]; auto.
Qed.

Lemma binary_round_lower sx mx ex b :
  b <= 2 ^ 53 -> scaled_ge (Z.pos mx) ex b ->
  at_least b sx (binary_round prec emax sx mx ex).
Proof.
  intros Hb Hge. unfold binary_round.
  set (f := fexp prec emax (Z.pos (digits2_pos mx) + ex)).
  pose proof (shl_align_spec mx ex f) as Hal.
  destruct (shl_align mx ex f) as [mz ez]. destruct Hal as [Hez Hmz].
  pose proof (scaled_ge_shift (Z.pos mx) ex ez b ltac:(lia) Hge) as Hge'.
  rewrite <- Hmz in Hge'.
  apply binary_round_aux_lower; [lia | exact Hb | exact Hge'].
Qed.

(** *** Comparison with an [int] *)

Lemma lt_int_at_least b x n :
  at_least b false x -> n <= b -> lt_int x n = false.
Proof.
  destruct x as [s | s | | s m e]; cbn [at_least lt_int]; try contradiction.
  - intros Hb Hn. apply Z.ltb_ge. lia.
  - intros -> _. reflexivity.
  - intros [-> Hge] Hn. unfold scaled_ge in Hge.
    destruct (Z.leb_spec 0 e) as [He | He].
    + apply Z.ltb_ge. lia.
    + apply Z.ltb_ge. pose proof (pow2_pos (- e) ltac:(lia)). nia.
Qed.

Lemma lt_int_at_most b x n :
  0 <= b -> at_most b false x -> b < n -> lt_int x n = true.
Proof.
  intros Hb0.
  destruct x as [s | s | | s m e]; cbn [at_most lt_int]; try contradiction.
  - intros _ Hn. apply Z.ltb_lt. lia.
  - intros (-> & He & Hm) Hn.
    pose proof (pow2_pos (- e) ltac:(lia)) as Hp.
    destruct (Z.leb_spec 0 e) as [He0 | He0].
    + assert (E : e = 0) by lia. rewrite E in *.
      change (- 0) with 0 in Hm. rewrite Z.pow_0_r in *.
      apply Z.ltb_lt. lia.
    + apply Z.ltb_lt. nia.
Qed.

Lemma lt_int_at_most_neg b x n :
  0 <= b -> at_most b true x -> n <= - b -> lt_int x n = false.
Proof.
  intros Hb0.
  destruct x as [s | s | | s m e]; cbn [at_most lt_int]; try contradiction.
  - intros _ Hn. apply Z.ltb_ge. lia.
  - intros (-> & He & Hm) Hn.
    pose proof (pow2_pos (- e) ltac:(lia)) as Hp.
    destruct (Z.leb_spec 0 e) as [He0 | He0].
    + assert (E : e = 0) by lia. rewrite E in *.
      change (- 0) with 0 in Hm. rewrite Z.pow_0_r in *.
      apply Z.ltb_ge. lia.
    + apply Z.ltb_ge. nia.
Qed.

Lemma lt_int_at_least_neg b x n :
  at_least b true x -> - b < n -> lt_int x n = true.
Proof.
  destruct x as [s | s | | s m e]; cbn [at_least lt_int]; try contradiction.
  - intros Hb Hn. apply Z.ltb_lt. lia.
  - intros -> _. reflexivity.
  - intros [-> Hge] Hn. unfold scaled_ge in Hge.
    destruct (Z.leb_spec 0 e) as [He | He].
    + apply Z.ltb_lt. lia.
    + apply Z.ltb_lt. pose proof (pow2_pos (- e) ltac:(lia)). nia.
Qed.

(** The float nearest to [M * 2^e], compared with an [int] of magnitude
    at most [2^53]: the comparison is that of [M * 2^e] when this number
    is at least [n] or at most [n - 1]. *)
Lemma normalize_not_below M e n :
  - 2 ^ 53 < n <= 2 ^ 53 -> scaled_ge M e n ->
  lt_int (binary_normalize prec emax M e false) n = false.
Proof.
  intros Hn Hge. destruct M as [| m | m]; cbn [binary_normalize].
  - cbn [lt_int]. apply Z.ltb_ge. unfold scaled_ge in Hge.
    destruct (Z.leb_spec 0 e); [lia |].
    pose proof (pow2_pos (- e) ltac:(lia)). nia.
  - apply (lt_int_at_least n); [| lia].
    apply binary_round_lower; [lia | exact Hge].
  - assert (Hneg : n < 0 /\ scaled_le (Z.pos m) e (- n)).
    { unfold scaled_ge in Hge. unfold scaled_le.
      destruct (Z.leb_spec 0 e) as [He | He].
      - pose proof (pow2_pos e He). split; nia.
      - pose proof (pow2_pos (- e) ltac:(lia)). split; nia. }
    destruct Hneg as [Hn0 Hle].
    apply (lt_int_at_most_neg (- n)); [lia | | lia].
    apply binary_round_bound; [lia | exact Hle].
Qed.

Lemma normalize_below M e n :
  - 2 ^ 53 < n <= 2 ^ 53 -> scaled_le M e (n - 1) ->
  lt_int (binary_normalize prec emax M e false) n = true.
Proof.
  intros Hn Hle. destruct M as [| m | m]; cbn [binary_normalize].
  - cbn [lt_int]. apply Z.ltb_lt. unfold scaled_le in Hle.
    destruct (Z.leb_spec 0 e); [lia |].
    pose proof (pow2_pos (- e) ltac:(lia)). nia.
  - assert (Hpos : 0 <= n - 1).
    { unfold scaled_le in Hle.
      destruct (Z.leb_spec 0 e) as [He | He].
      - pose proof (pow2_pos e He). nia.
      - pose proof (pow2_pos (- e) ltac:(lia)). nia. }
    apply (lt_int_at_most (n - 1)); [lia | | lia].
    apply binary_round_bound; [lia | exact Hle].
  - apply (lt_int_at_least_neg (1 - n)); [| lia].
    apply binary_round_lower; [lia |].
    unfold scaled_le in Hle. unfold scaled_ge.
    destruct (Z.leb_spec 0 e) as [He | He]; lia.
Qed.

(** *** The numbers that floats stand for *)

Lemma value_finite s m e :
  value (S754_finite s m e) = Some (dyadic (cond_Zopp s (Z.pos m)) e).
Proof. destruct s; reflexivity. Qed.

Lemma dyadic_ge m e b : (inject_Z b <= dyadic m e)%Q <-> scaled_ge m e b.
Proof.
  unfold dyadic, scaled_ge. destruct (Z.leb_spec 0 e) as [He | He].
  - rewrite <- Zle_Qle. reflexivity.
  - unfold Qle. cbn [Qnum Qden inject_Z].
    rewrite Z2Pos.id by (apply pow2_pos; lia). rewrite Z.mul_1_r.
    reflexivity.
Qed.

Lemma dyadic_le m e b : (dyadic m e <= inject_Z b)%Q <-> scaled_le m e b.
Proof.
  unfold dyadic, scaled_le. destruct (Z.leb_spec 0 e) as [He | He].
  - rewrite <- Zle_Qle. reflexivity.
  - unfold Qle. cbn [Qnum Qden inject_Z].
    rewrite Z2Pos.id by (apply pow2_pos; lia). rewrite Z.mul_1_r.
    reflexivity.
Qed.

Lemma dyadic_shift m e e' :
  e' <= e -> (dyadic m e == dyadic (m * 2 ^ (e - e')) e')%Q.
Proof.
  intros He. unfold dyadic.
  pose proof (pow2_pos (e - e') ltac:(lia)) as Hp.
  destruct (Z.leb_spec 0 e) as [H0 | H0];
    destruct (Z.leb_spec 0 e') as [H0' | H0']; try lia.
  - rewrite <- Z.mul_assoc, <- pow2_split by lia.
    replace (e - e' + e') with e by lia. reflexivity.
  - unfold Qeq. cbn [Qnum Qden inject_Z].
    rewrite Z2Pos.id by (apply pow2_pos; lia).
    replace (e - e') with (e + - e') by lia.
    rewrite pow2_split by lia. ring.
  - unfold Qeq. cbn [Qnum Qden].
    rewrite !Z2Pos.id by (apply pow2_pos; lia).
    replace (- e') with (e - e' + - e) by lia.
    rewrite pow2_split by lia. ring.
Qed.

Lemma dyadic_sub m m' e : (dyadic m e - dyadic m' e == dyadic (m - m') e)%Q.
Proof.
  unfold dyadic. destruct (Z.leb_spec 0 e) as [He | He].
  - unfold Qminus. rewrite <- inject_Z_opp, <- inject_Z_plus.
    apply inject_Z_injective. ring.
  - unfold Qeq, Qminus, Qplus, Qopp. cbn [Qnum Qden].
    rewrite Pos2Z.inj_mul. ring.
Qed.

Lemma cond_Zopp_mul s a k : cond_Zopp s (a * k) = cond_Zopp s a * k.
Proof. destruct s; simpl; lia. Qed.

(** The difference of two finite floats is the float nearest to the
    difference of the numbers they stand for. *)
Lemma sub_finite_exact sx mx ex sy my ey :
  exists M,
    sub (S754_finite sx mx ex) (S754_finite sy my ey)
    = binary_normalize prec emax M (Z.min ex ey) false /\
    (dyadic (cond_Zopp sx (Z.pos mx)) ex - dyadic (cond_Zopp sy (Z.pos my)) ey
     == dyadic M (Z.min ex ey))%Q.
Proof.
  unfold sub, SFsub. cbv zeta. eexists. split; [reflexivity |].
  pose proof (shl_align_spec mx ex (Z.min ex ey)) as Hx.
  pose proof (shl_align_spec my ey (Z.min ex ey)) as Hy.
  destruct (shl_align mx ex (Z.min ex ey)) as [mx' ex'].
  destruct (shl_align my ey (Z.min ex ey)) as [my' ey'].
  destruct Hx as [Hex Hmx]. destruct Hy as [Hey Hmy]. cbn [fst].
  rewrite Hmx, Hmy, !cond_Zopp_mul.
  replace ex' with (Z.min ex ey) by lia.
  replace ey' with (Z.min ex ey) by lia.
  rewrite <- dyadic_sub.
  rewrite <- (dyadic_shift _ ex (Z.min ex ey)) by lia.
  rewrite <- (dyadic_shift _ ey (Z.min ex ey)) by lia.
  reflexivity.
Qed.

Lemma lt_int_finite_not_below s m e n :
  scaled_ge (cond_Zopp s (Z.pos m)) e n ->
  lt_int (S754_finite s m e) n = false.
Proof.
  unfold scaled_ge. cbn [lt_int].
  replace (if s then Z.neg m else Z.pos m) with (cond_Zopp s (Z.pos m))
    by (destruct s; reflexivity).
  destruct (0 <=? e); intros H; apply Z.ltb_ge; exact H.
Qed.

Lemma lt_int_finite_below s m e n :
  scaled_le (cond_Zopp s (Z.pos m)) e (n - 1) ->
  lt_int (S754_finite s m e) n = true.
Proof.
  unfold scaled_le. cbn [lt_int].
  replace (if s then Z.neg m else Z.pos m) with (cond_Zopp s (Z.pos m))
    by (destruct s; reflexivity).
  destruct (Z.leb_spec 0 e) as [He | He]; intros H; apply Z.ltb_lt; [lia |].
  pose proof (pow2_pos (- e) ltac:(lia)). nia.
Qed.

Lemma dyadic_opp m e : (- dyadic m e == dyadic (- m) e)%Q.
Proof.
  unfold dyadic. destruct (0 <=? e).
  - rewrite <- inject_Z_opp. apply inject_Z_injective. ring.
  - reflexivity.
Qed.

(** [x - y < n] for two finite floats and an [int] [n] of magnitude at
    most [2^53] fails when the numbers are [n] or more apart, and succeeds
    when they are [n - 1] or less apart. *)
Lemma sub_not_below x y vx vy n :
  value x = Some vx -> value y = Some vy ->
  - 2 ^ 53 < n <= 2 ^ 53 ->
  (inject_Z n <= vx - vy)%Q ->
  lt_int (sub x y) n = false.
Proof.
  intros Hx Hy Hn Hge.
  destruct x as [sx | sx | | sx mx ex]; try discriminate Hx;
    destruct y as [sy | sy | | sy my ey]; try discriminate Hy.
  - injection Hx as <-. injection Hy as <-.
    assert (n <= 0).
    { rewrite Zle_Qle. exact Hge. }
    unfold sub, SFsub. destruct sx, sy; cbn [lt_int]; apply Z.ltb_ge; lia.
  - injection Hx as <-. rewrite value_finite in Hy. injection Hy as <-.
    unfold sub, SFsub. apply lt_int_finite_not_below. apply dyadic_ge.
    eapply Qle_trans; [exact Hge |].
    assert (E : (0 - dyadic (cond_Zopp sy (Z.pos my)) ey
                 == dyadic (cond_Zopp (negb sy) (Z.pos my)) ey)%Q).
    { unfold Qminus. rewrite Qplus_0_l, dyadic_opp.
      destruct sy; reflexivity. }
    rewrite E. apply Qle_refl.
  - rewrite value_finite in Hx. injection Hx as <-. injection Hy as <-.
    unfold sub, SFsub. apply lt_int_finite_not_below. apply dyadic_ge.
    eapply Qle_trans; [exact Hge |].
    unfold Qminus. change (- 0)%Q with 0%Q. rewrite Qplus_0_r.
    apply Qle_refl.
  - rewrite value_finite in Hx, Hy. injection Hx as <-. injection Hy as <-.
    destruct (sub_finite_exact sx mx ex sy my ey) as (M & -> & HM).
    apply normalize_not_below; [exact Hn |].
    apply dyadic_ge. rewrite <- HM. exact Hge.
Qed.

Lemma sub_below x y vx vy n :
  value x = Some vx -> value y = Some vy ->
  - 2 ^ 53 < n <= 2 ^ 53 ->
  (vx - vy <= inject_Z (n - 1))%Q ->
  lt_int (sub x y) n = true.
Proof.
  intros Hx Hy Hn Hle.
  destruct x as [sx | sx | | sx mx ex]; try discriminate Hx;
    destruct y as [sy | sy | | sy my ey]; try discriminate Hy.
  - injection Hx as <-. injection Hy as <-.
    assert (0 <= n - 1).
    { rewrite Zle_Qle. exact Hle. }
    unfold sub, SFsub. destruct sx, sy; cbn [lt_int]; apply Z.ltb_lt; lia.
  - injection Hx as <-. rewrite value_finite in Hy. injection Hy as <-.
    unfold sub, SFsub. apply lt_int_finite_below. apply dyadic_le.
    eapply Qle_trans; [| exact Hle].
    assert (E : (0 - dyadic (cond_Zopp sy (Z.pos my)) ey
                 == dyadic (cond_Zopp (negb sy) (Z.pos my)) ey)%Q).
    { unfold Qminus. rewrite Qplus_0_l, dyadic_opp.
      destruct sy; reflexivity. }
    rewrite E. apply Qle_refl.
  - rewrite value_finite in Hx. injection Hx as <-. injection Hy as <-.
    unfold sub, SFsub. apply lt_int_finite_below. apply dyadic_le.
    eapply Qle_trans; [| exact Hle].
    unfold Qminus. change (- 0)%Q with 0%Q. rewrite Qplus_0_r.
    apply Qle_refl.
  - rewrite value_finite in Hx, Hy. injection Hx as <-. injection Hy as <-.
    destruct (sub_finite_exact sx mx ex sy my ey) as (M & -> & HM).
    apply normalize_below; [exact Hn |].
    apply dyadic_le. rewrite <- HM. exact Hle.
Qed.

(** *** The hit rate at its two ends *)

(** [h / t] for two ints with [0 < t <= h] is at least 1. *)
Lemma int_div_at_least_one h t :
  0 < t <= h ->
  at_least 1 false (SFdiv prec emax (exact_int h) (exact_int t)).
Proof.
  intros [Ht Hle].
  destruct h as [| h | h]; try lia. destruct t as [| t | t]; try lia.
  unfold exact_int, SFdiv, SFdiv_core_binary.
  set (e' := Z.min (fexp prec emax
                      (Zdigits2 (Z.pos h) + 0 - (Zdigits2 (Z.pos t) + 0)))
                   (0 - 0)).
  assert (He' : e' <= 0) by (subst e'; lia).
  set (m' := match 0 - 0 - e' with
             | 0 => Z.pos h
             | Z.pos _ => Z.shiftl (Z.pos h) (0 - 0 - e')
             | Z.neg _ => 0
             end).
  assert (Hm' : m' = Z.pos h * 2 ^ (- e')).
  { subst m'. replace (0 - 0 - e') with (- e') by lia.
    destruct (- e') as [| p | p] eqn:E; [| | lia].
    - rewrite Z.mul_1_r. reflexivity.
    - apply Z.shiftl_mul_pow2. lia. }
  pose proof (Z.div_eucl_eq m' (Z.pos t) ltac:(lia)) as Heq.
  pose proof (Z.mod_pos_bound m' (Z.pos t) ltac:(lia)) as Hmod.
  unfold Z.modulo in Hmod.
  destruct (Z.div_eucl m' (Z.pos t)) as [q r].
  cbn [xorb].
  assert (Hp : 0 < 2 ^ (- e')) by (apply pow2_pos; lia).
  assert (Hq : 2 ^ (- e') <= q) by nia.
  apply binary_round_aux_lower.
  - lia.
  - lia.
  - unfold scaled_ge. destruct (Z.leb_spec 0 e') as [H0 | H0].
    + assert (E : e' = 0) by lia. rewrite E in *.
      change (- 0) with 0 in Hq. rewrite Z.pow_0_r in *. lia.
    + lia.
Qed.

(** [q * 100] for a float [q] that is at least 1 is at least 100. *)
Lemma mul_100_at_least q :
  at_least 1 false q -> at_least 100 false (mul q (of_int 100)).
Proof.
  change (of_int 100) with (S754_finite false 7036874417766400 (-46)).
  unfold mul.
  destruct q as [s | s | | s m e]; cbn [at_least SFmul]; try contradiction.
  - intros ->. reflexivity.
  - intros [-> Hge]. cbn [xorb].
    apply binary_round_aux_lower; [lia | lia |].
    rewrite Pos2Z.inj_mul. unfold scaled_ge in *.
    assert (Hc : 7036874417766400 = 100 * 2 ^ 46) by reflexivity.
    rewrite Hc. clear Hc.
    assert (H46 : 0 < 2 ^ 46) by (apply pow2_pos; lia).
    destruct (Z.leb_spec 0 e) as [He | He];
      destruct (Z.leb_spec 0 (e + -46)) as [He' | He'].
    + pose proof (pow2_pos (e + -46) He'). nia.
    + assert (E : 2 ^ 46 = 2 ^ (- (e + -46)) * 2 ^ e)
        by (rewrite <- pow2_split by lia; f_equal; lia).
      pose proof (pow2_pos (- (e + -46)) ltac:(lia)).
      pose proof (pow2_pos e He). rewrite E. nia.
    + lia.
    + assert (E : 2 ^ (- (e + -46)) = 2 ^ 46 * 2 ^ (- e))
        by (rewrite <- pow2_split by lia; f_equal; lia).
      pose proof (pow2_pos (- e) ltac:(lia)). rewrite E. nia.
Qed.

(** A float that is at most and at least [b] stands for [b]. *)
Lemma at_most_at_least_value b x :
  0 <= b -> at_most b false x -> at_least b false x ->
  exists v, value x = Some v /\ (v == inject_Z b)%Q.
Proof.
  intros Hb.
  destruct x as [s | s | | s m e]; cbn [at_most at_least value];
    try contradiction.
  - intros _ Hb0. exists 0%Q. split; [reflexivity |].
    replace b with 0 by lia. reflexivity.
  - intros (-> & He & Hm) [_ Hge]. eexists. split; [reflexivity |].
    unfold scaled_ge in Hge.
    destruct (Z.leb_spec 0 e) as [H0 | H0].
    + assert (E : e = 0) by lia. rewrite E in *.
      change (- 0) with 0 in Hm. rewrite Z.pow_0_r in *.
      apply inject_Z_injective. lia.
    + unfold Qeq. cbn [Qnum Qden inject_Z].
      rewrite Z2Pos.id by (apply pow2_pos; lia). lia.
Qed.

(** Without a miss, [hits / total] is 1.0. *)
Lemma int_truediv_same t :
  0 < t ->
  exists q,
    int_truediv t t = Ok q /\ at_most 1 false q /\ at_least 1 false q.
Proof.
  intros Ht. destruct (int_truediv_at_most_one t t) as (q & Hq & Hmost);
    [lia | lia |].
  exists q. split; [exact Hq |]. split; [exact Hmost |].
  unfold int_truediv in Hq.
  destruct (Z.eqb_spec t 0) as [-> | _]; [lia |].
  pose proof (int_div_at_least_one t t ltac:(lia)) as Hleast.
  destruct (SFdiv prec emax (exact_int t) (exact_int t)) as [s | s | | s m e];
    try discriminate Hq; injection Hq as <-; exact Hleast.
Qed.

(** Without a hit, [hits / total] is 0.0. *)
Lemma int_truediv_zero t : 0 < t -> int_truediv 0 t = Ok (S754_zero false).
Proof. intros Ht. destruct t as [| t | t]; try lia. reflexivity. Qed.

End Age.

(** ** Cache statistics *)

Section CacheStats.

Import LRUCache.

Context {V : Type}.

Implicit Type c : LRUCache.t V.

Lemma hit_rate_no_traffic c :
  hits c + misses c = 0 ->
  exists s, get_stats c = Ok s /\ stats_hit_rate s = Binary64.Int 0.
Proof.
  intros H. unfold get_stats. rewrite H. cbn. eexists.
  split; reflexivity.
Qed.

Lemma hit_rate_traffic c ratio :
  0 < hits c + misses c ->
  Binary64.int_truediv (hits c) (hits c + misses c) = Ok ratio ->
  exists s,
    get_stats c = Ok s /\
    stats_hit_rate s
    = Binary64.Float (Binary64.mul ratio (Binary64.of_int 100)).
Proof.
  intros H Hratio. unfold get_stats.
  destruct (Z.gtb_spec (hits c + misses c) 0) as [_ | Hle]; [| lia].
  rewrite Hratio. cbn. eexists. split; reflexivity.
Qed.

(** With counters that are not negative, the hit rate is a number
    between 0 and 100: 0 without a hit, 100 without a miss. *)
Lemma hit_rate_bounds c :
  0 <= hits c -> 0 <= misses c ->
  exists s v,
    get_stats c = Ok s /\
    Binary64.number_value (stats_hit_rate s) = Some v /\
    (0 <= v <= 100)%Q /\
    (hits c = 0 -> (v == 0)%Q) /\
    (misses c = 0 -> 0 < hits c -> (v == 100)%Q).
Proof.
  intros Hh Hm.
  destruct (Z.eq_dec (hits c + misses c) 0) as [H0 | Hn0].
  - destruct (hit_rate_no_traffic c H0) as (s & Hs & Hrate).
    exists s, 0%Q. rewrite Hrate. split; [exact Hs |].
    split; [reflexivity |]. split; [split; discriminate |].
    split; [reflexivity | lia].
  - destruct (int_truediv_at_most_one (hits c) (hits c + misses c))
      as (ratio & Hratio & Hone); [lia | lia |].
    destruct (hit_rate_traffic c ratio ltac:(lia) Hratio) as (s & Hs & Hrate).
    destruct (at_most_value 100 _ ltac:(lia) (mul_100_at_most ratio Hone))
      as (v & Hv & Hbound).
    exists s, v. rewrite Hrate. split; [exact Hs |].
    split; [exact Hv |]. split; [exact Hbound |]. split.
    + intros Hzero. rewrite Hzero in Hratio.
      rewrite int_truediv_zero in Hratio by lia.
      injection Hratio as <-. injection Hv as <-. reflexivity.
    + intros Hzero Hpos. rewrite Hzero, Z.add_0_r in Hratio.
      destruct (int_truediv_same (hits c) Hpos)
        as (q & Hq & Hmost & Hleast).
      assert (q = ratio) by congruence. subst q.
      destruct (at_most_at_least_value 100 _ ltac:(lia)
                  (mul_100_at_most ratio Hmost)
                  (mul_100_at_least ratio Hleast)) as (v' & Hv' & H100).
      cbn [Binary64.number_value] in Hv.
      assert (v' = v) by congruence. subst v'. exact H100.
Qed.

End CacheStats.

(** C2, counterexample: after one hit and one miss the reported hit rate
    is the float 50.0, not the fraction 1/2. *)
Lemma hit_rate_one_of_two_is_50 :
  exists c s v,
    one_hit_one_miss = Ok c /\
    LRUCache.hits c = 1 /\ LRUCache.misses c = 1 /\
    LRUCache.get_stats c = Ok s /\
    LRUCache.stats_hit_rate s = Binary64.Float (Binary64.of_int 50) /\
    Binary64.number_value (LRUCache.stats_hit_rate s) = Some v /\
    (v == 50)%Q /\
    ~ (v == inject_Z (LRUCache.hits c)
            / inject_Z (LRUCache.hits c + LRUCache.misses c))%Q.
Proof.
  eexists. eexists. eexists. split; [reflexivity |].
  split; [reflexivity |]. split; [reflexivity |].
  split; [reflexivity |]. split; [reflexivity |]. split; [reflexivity |].
  split; [reflexivity |].
  intros H. vm_compute in H. discriminate H.
Qed.

(** The two roundings of [hits / total * 100] show: with 7 hits among 100
    lookups the reported hit rate is 7.000000000000001, the float
    7881299347898369 * 2^-50, not 7. *)
Example hit_rate_seven_of_100 :
  exists s,
    LRUCache.get_stats seven_of_100 = Ok s /\
    LRUCache.stats_hit_rate s
    = Binary64.Float (S754_finite false 7881299347898369 (-50)) /\
    Binary64.of_int 7 = S754_finite false 7881299347898368 (-50).
Proof. eexists. split; [| split]; reflexivity. Qed.

(** C2, amended: [get_stats] never raises on counters that are not
    negative.  When no [get] has been performed yet (hits + misses = 0) it
    reports the [int] 0 as hit rate.  Otherwise the hit rate is the float
    [hits / total * 100]: the quotient of the two counters rounded to the
    nearest float, multiplied by 100.0 and rounded again; it stands for a
    number between 0 and 100, a percentage and not a fraction, which is 0
    when there was no hit and 100 when there was no miss. *)
Theorem get_stats_hit_rate_percentage (V : Type) (c : LRUCache.t V) :
  (LRUCache.hits c + LRUCache.misses c = 0 ->
   exists s,
     LRUCache.get_stats c = Ok s /\
     LRUCache.stats_hit_rate s = Binary64.Int 0) /\
  (0 <= LRUCache.hits c -> 0 <= LRUCache.misses c ->
   0 < LRUCache.hits c + LRUCache.misses c ->
   exists s ratio v,
     LRUCache.get_stats c = Ok s /\
     Binary64.int_truediv (LRUCache.hits c)
       (LRUCache.hits c + LRUCache.misses c) = Ok ratio /\
     LRUCache.stats_hit_rate s
     = Binary64.Float (Binary64.mul ratio (Binary64.of_int 100)) /\
     Binary64.value (Binary64.mul ratio (Binary64.of_int 100)) = Some v /\
     (0 <= v <= 100)%Q /\
     (LRUCache.hits c = 0 -> (v == 0)%Q) /\
     (LRUCache.misses c = 0 -> (v == 100)%Q)).
Proof.
  split.
  - apply hit_rate_no_traffic.
  - intros Hh Hm Htotal.
    destruct (int_truediv_at_most_one (LRUCache.hits c)
                (LRUCache.hits c + LRUCache.misses c))
      as (ratio & Hratio & Hone); [lia | lia |].
    destruct (hit_rate_traffic c ratio Htotal Hratio) as (s & Hs & Hrate).
    destruct (hit_rate_bounds c Hh Hm)
      as (s' & v & Hs' & Hv & Hbound & Hnone & Hall).
    assert (s' = s) by congruence. subst s'.
    rewrite Hrate in Hv. cbn [Binary64.number_value] in Hv.
    exists s, ratio, v.
    split; [exact Hs |]. split; [exact Hratio |]. split; [exact Hrate |].
    split; [exact Hv |]. split; [exact Hbound |].
    split; [exact Hnone |]. intros Hzero. apply Hall; [exact Hzero | lia].
Qed.

Lemma get_stats_hit_rate_percentage_witness :
  (exists s,
     LRUCache.get_stats (LRUCache.init (V := Z) 1000 300) = Ok s /\
     LRUCache.stats_hit_rate s = Binary64.Int 0) /\
  (exists s ratio v,
     LRUCache.get_stats seven_of_100 = Ok s /\
     Binary64.int_truediv 7 (7 + 93) = Ok ratio /\
     LRUCache.stats_hit_rate s
     = Binary64.Float (Binary64.mul ratio (Binary64.of_int 100)) /\
     Binary64.value (Binary64.mul ratio (Binary64.of_int 100)) = Some v /\
     (0 <= v <= 100)%Q /\
     (7 = 0 -> (v == 0)%Q) /\
     (93 = 0 -> (v == 100)%Q)).
Proof.
  split.
  - apply (proj1 (get_stats_hit_rate_percentage Z (LRUCache.init 1000 300))).
    reflexivity.
  - apply (proj2 (get_stats_hit_rate_percentage Z seven_of_100)).
    + simpl. lia.
    + simpl. lia.
    + simpl. lia.
Defined.

(** ** Circuit breaker and strategy selection *)

Section Selector.

Import MorphErrorHandler.

Variable cfg : Config.

Lemma value_inj a b : value a = value b -> a = b.
Proof. destruct a, b; simpl; intros H; try reflexivity; discriminate H. Qed.

Lemma is_open_persisted kind w :
  is_circuit_breaker_open cfg kind w =
  enable_circuit_breaker cfg
  && (circuit_breaker_failure_threshold cfg
      <=? failure_count (persisted w kind))
  && match last_failure (persisted w kind) with
     | Some t => clock w - t <? circuit_breaker_reset_timeout cfg * 1000000
     | None => false
     end.
Proof.
  unfold is_circuit_breaker_open, persisted.
  destruct (enable_circuit_breaker cfg); simpl; [| reflexivity].
  destruct (circuit_breaker (load_fallback_stats w) !! value kind)
    as [[n l] |]; simpl; rewrite Z.geb_leb;
    destruct (_ <=? _); simpl; try reflexivity;
    destruct l; try reflexivity; destruct (_ <? _); reflexivity.
Qed.

Lemma load_at_time t w :
  stats_file w <> None ->
  load_fallback_stats (at_time t w) = load_fallback_stats w.
Proof.
  unfold load_fallback_stats, at_time. simpl.
  destruct (stats_file w); [reflexivity | congruence].
Qed.

Lemma update_runs kind is_failure w :
  exists w', update_circuit_breaker cfg kind is_failure w = (Ok tt, w').
Proof. unfold update_circuit_breaker, modify. eauto. Qed.

Lemma persisted_after_update kind is_failure w w' :
  enable_circuit_breaker cfg = true ->
  update_circuit_breaker cfg kind is_failure w = (Ok tt, w') ->
  clock w' = clock w /\
  persisted w' kind =
    if is_failure then
      {| failure_count := failure_count (persisted w kind) + 1;
         last_failure := Some (clock w) |}
    else {| failure_count := 0; last_failure := None |}.
Proof.
  intros Hen. unfold update_circuit_breaker, modify. rewrite Hen. simpl.
  intros [= <-]. split; [reflexivity |].
  unfold persisted at 1. unfold load_fallback_stats at 1. simpl.
  rewrite lookup_insert_eq. simpl. reflexivity.
Qed.

(** The selector is a function of the kind, the retry count and the
    state of the breaker. *)
Lemma get_fallback_strategy_cases ctx w :
  get_fallback_strategy cfg ctx w =
    if is_circuit_breaker_open cfg (error_type ctx) w then NATIVE_TOOL
    else match error_strategies (error_type ctx) with
         | RETRY_WITH_BACKOFF =>
             if max_retry_attempts cfg <=? retry_count ctx then NATIVE_TOOL
             else RETRY_WITH_BACKOFF
         | strategy => strategy
         end.
Proof.
  unfold get_fallback_strategy. rewrite Z.geb_leb.
  destruct (is_circuit_breaker_open _ _ _); [reflexivity |].
  destruct (error_strategies _), (_ <=? _); reflexivity.
Qed.

End Selector.

(** C3: when the table selects [RETRY_WITH_BACKOFF] for the kind of the
    context and the retry count has reached [max_retry_attempts], the
    selector returns [NATIVE_TOOL]; and for every kind, when the circuit
    breaker of that kind is open, the selector returns [NATIVE_TOOL]
    whatever the table says. *)
Theorem get_fallback_strategy_overrides
    (cfg : MorphErrorHandler.Config)
    (ctx : MorphErrorHandler.ErrorContext) (w : MorphErrorHandler.World) :
  (MorphErrorHandler.error_strategies (MorphErrorHandler.error_type ctx)
     = MorphErrorHandler.RETRY_WITH_BACKOFF ->
   MorphErrorHandler.max_retry_attempts cfg
     <= MorphErrorHandler.retry_count ctx ->
   MorphErrorHandler.get_fallback_strategy cfg ctx w
     = MorphErrorHandler.NATIVE_TOOL) /\
  (MorphErrorHandler.is_circuit_breaker_open cfg
     (MorphErrorHandler.error_type ctx) w = true ->
   MorphErrorHandler.get_fallback_strategy cfg ctx w
     = MorphErrorHandler.NATIVE_TOOL).
Proof.
  rewrite get_fallback_strategy_cases. split.
  - intros Htable Hretry. rewrite Htable.
    destruct (MorphErrorHandler.is_circuit_breaker_open _ _ _);
      [reflexivity |].
    destruct (Z.leb_spec (MorphErrorHandler.max_retry_attempts cfg)
                         (MorphErrorHandler.retry_count ctx));
      [reflexivity | lia].
  - intros ->. reflexivity.
Qed.

Lemma get_fallback_strategy_overrides_witness :
  MorphErrorHandler.get_fallback_strategy MorphErrorHandler.config
    (timeout_exhausted MorphErrorHandler.TIMEOUT) fresh
    = MorphErrorHandler.NATIVE_TOOL /\
  MorphErrorHandler.get_fallback_strategy MorphErrorHandler.config
    (timeout_exhausted MorphErrorHandler.TIMEOUT) tripped
    = MorphErrorHandler.NATIVE_TOOL.
Proof.
  split.
  - apply (proj1 (get_fallback_strategy_overrides MorphErrorHandler.config
                    (timeout_exhausted MorphErrorHandler.TIMEOUT) fresh)).
    + reflexivity.
    + simpl. lia.
  - apply (proj2 (get_fallback_strategy_overrides MorphErrorHandler.config
                    (timeout_exhausted MorphErrorHandler.TIMEOUT) tripped)).
    vm_compute. reflexivity.
Defined.

(** C4: with the breaker enabled, the circuit of a kind is open iff the
    persisted failure count has reached the threshold and the time since
    the last failure is strictly less than the reset timeout; recording a
    success resets the count to 0 and the last failure to none, after
    which the circuit is closed at every time; recording a failure adds 1
    to the count and sets the last failure to the current time.  The
    defaults are 5 failures and 300 seconds. *)
Theorem circuit_breaker_open_iff
    (cfg : MorphErrorHandler.Config) (kind : MorphErrorHandler.ErrorType)
    (w : MorphErrorHandler.World)
    (Henabled : MorphErrorHandler.enable_circuit_breaker cfg = true) :
  (MorphErrorHandler.is_circuit_breaker_open cfg kind w = true <->
   MorphErrorHandler.circuit_breaker_failure_threshold cfg
     <= MorphErrorHandler.failure_count (persisted w kind) /\
   exists t, MorphErrorHandler.last_failure (persisted w kind) = Some t /\
             MorphErrorHandler.clock w - t
             < MorphErrorHandler.circuit_breaker_reset_timeout cfg * 1000000)
  /\
  (exists w',
      MorphErrorHandler.update_circuit_breaker cfg kind false w = (Ok tt, w')
      /\ persisted w' kind =
           {| MorphErrorHandler.failure_count := 0;
              MorphErrorHandler.last_failure := None |}
      /\ MorphErrorHandler.is_circuit_breaker_open cfg kind w' = false
      /\ forall t, MorphErrorHandler.is_circuit_breaker_open cfg kind
                     (at_time t w') = false)
  /\
  (exists w',
      MorphErrorHandler.update_circuit_breaker cfg kind true w = (Ok tt, w')
      /\ persisted w' kind =
           {| MorphErrorHandler.failure_count :=
                MorphErrorHandler.failure_count (persisted w kind) + 1;
              MorphErrorHandler.last_failure :=
                Some (MorphErrorHandler.clock w) |})
  /\
  MorphErrorHandler.circuit_breaker_failure_threshold
    MorphErrorHandler.config = 5 /\
  MorphErrorHandler.circuit_breaker_reset_timeout
    MorphErrorHandler.config = 300.
Proof.
  split; [| split; [| split; [| split; reflexivity]]].
  - rewrite is_open_persisted, Henabled. simpl.
    rewrite andb_true_iff, Z.leb_le.
    destruct (MorphErrorHandler.last_failure (persisted w kind)) as [t |].
    + rewrite Z.ltb_lt. split.
      * intros [Hc Ht]. split; [exact Hc | exists t; auto].
      * intros [Hc (t' & [= <-] & Ht)]. auto.
    + split.
      * intros [_ H]. discriminate H.
      * intros [_ (t' & H & _)]. discriminate H.
  - destruct (update_runs cfg kind false w) as [w' Hw'].
    destruct (persisted_after_update cfg kind false w w' Henabled Hw')
      as [_ Hp].
    assert (Hfile : MorphErrorHandler.stats_file w' <> None).
    { revert Hw'. unfold MorphErrorHandler.update_circuit_breaker,
        MorphErrorHandler.modify. rewrite Henabled. simpl.
      intros [= <-]. discriminate. }
    exists w'. repeat split; try assumption.
    + rewrite is_open_persisted, Hp. simpl. apply andb_false_r.
    + intros t. rewrite is_open_persisted.
      unfold persisted. rewrite (load_at_time t w' Hfile).
      fold (persisted w' kind). rewrite Hp. simpl. apply andb_false_r.
  - destruct (update_runs cfg kind true w) as [w' Hw'].
    destruct (persisted_after_update cfg kind true w w' Henabled Hw')
      as [_ Hp].
    exists w'. split; assumption.
Qed.

Lemma circuit_breaker_open_iff_witness :
  MorphErrorHandler.is_circuit_breaker_open MorphErrorHandler.config
    MorphErrorHandler.TIMEOUT tripped = true.
Proof.
  apply (proj1 (circuit_breaker_open_iff MorphErrorHandler.config
                  MorphErrorHandler.TIMEOUT tripped eq_refl)).
  split.
  - vm_compute. discriminate.
  - exists 0. split; vm_compute; reflexivity.
Defined.

(** ** Tool interceptor *)

Lemma existsb_eqb_In (x : string) (l : list string) :
  In x l -> existsb (String.eqb x) l = true.
Proof.
  intros H. apply existsb_exists. exists x. split; [exact H |].
  apply String.eqb_refl.
Qed.

(** C10: when the flag list contains "--no-morph", [should_intercept]
    returns [False], whatever the tool, its input, the other flags and the
    session counters are: the test precedes those of "--morph-only",
    "--morph", "--morphllm" and the auto-activation heuristics (which
    include "--morph-fast"). *)
Theorem should_intercept_no_morph
    (env : MorphToolInterceptor.Env)
    (self : MorphToolInterceptor.SessionStats)
    (tool_name : string) (tool_input : pyval) (flags : list string)
    (Hflag : In "--no-morph" flags) :
  MorphToolInterceptor.should_intercept env self tool_name tool_input flags
  = Ok false.
Proof.
  unfold MorphToolInterceptor.should_intercept.
  rewrite (existsb_eqb_In _ _ Hflag). reflexivity.
Qed.

Lemma should_intercept_no_morph_witness :
  MorphToolInterceptor.should_intercept morph_unconfigured
    (MorphToolInterceptor.session_stats (new_interceptor 0))
    "MultiEdit"
    (PDict [("edits", PList [PNone; PNone; PNone])])
    ["--morph"; "--morphllm"; "--morph-only"; "--morph-fast"; "--no-morph"]
  = Ok false.
Proof.
  apply should_intercept_no_morph.
  right; right; right; right; left; reflexivity.
Defined.

Example should_intercept_morph_flag :
  MorphToolInterceptor.should_intercept morph_unconfigured
    (MorphToolInterceptor.session_stats (new_interceptor 0))
    "Read" (PDict []) ["--morph"] = Ok true.
Proof. reflexivity. Qed.

Section InterceptorLog.

Import MorphToolInterceptor.

Variable env : Env.
Variable isoformat : Z -> string.

(** [session_stats] holds a [datetime] under "start_time", so the
    [json.dumps] of [log_interception] raises on every call. *)
Lemma log_interception_raises tool_name action reason st :
  log_interception env isoformat tool_name action reason st =
  (Raise (mkExc TypeError "Object of type datetime is not JSON serializable"),
   st).
Proof. reflexivity. Qed.

(** Every path of [process_tool_call] passes through [log_interception]
    before its [return]: no call returns a decision. *)
Lemma process_tool_call_raises tool_name tool_input st :
  exists e st',
    process_tool_call env isoformat tool_name tool_input st = (Raise e, st').
Proof.
  unfold process_tool_call.
  unfold mbind, M_bind, bind, modify_stats, get_state, lift. simpl.
  destruct (should_intercept _ _ _ _ _) as [[|] | e]; simpl.
  - destruct (validate_morph_server env); simpl.
    + destruct (create_morph_tool_call _ _ _ _) as [morph_call | e]; simpl;
        [| eauto].
      destruct (getitem morph_call "tool") as [tool | e]; simpl; eauto.
    + eauto.
  - eauto.
  - eauto.
Qed.

End InterceptorLog.

(** C6, the failing call: "Read" is requested with MORPH_ENABLED set and
    neither MORPH_API_KEY nor MORPH_SERVER_URL; [should_intercept] is true,
    [validate_morph_server] is false, and [process_tool_call] raises the
    [TypeError] of [log_interception] instead of returning the fallback
    response; the fallback counter is not updated.  [main] turns the
    exception into its generic "allow" answer. *)
Theorem process_tool_call_unconfigured_raises :
  MorphToolInterceptor.should_intercept morph_unconfigured
    (MorphToolInterceptor.session_stats (new_interceptor 0))
    "Read" (PDict [("file_path", PStr "a.txt")])
    (MorphToolInterceptor.parse_flags morph_unconfigured) = Ok true /\
  MorphToolInterceptor.validate_morph_server morph_unconfigured = false /\
  MorphToolInterceptor.process_tool_call morph_unconfigured epoch
    "Read" (PDict [("file_path", PStr "a.txt")]) (new_interceptor 0)
  = (Raise (mkExc TypeError
              "Object of type datetime is not JSON serializable"),
     {| MorphToolInterceptor.session_stats :=
          {| MorphToolInterceptor.total_operations := 1;
             MorphToolInterceptor.morph_operations := 0;
             MorphToolInterceptor.native_operations := 0;
             MorphToolInterceptor.fallback_operations := 0;
             MorphToolInterceptor.start_time := 0 |};
        MorphToolInterceptor.interception_log := [] |}) /\
  MorphToolInterceptor.main morph_unconfigured epoch
    "Read" (PDict [("file_path", PStr "a.txt")])
  = (PDict [ ("action", PStr "allow");
             ("error",
              PStr "Object of type datetime is not JSON serializable");
             ("fallback_mode", PBool true) ], PInt 0).
Proof. repeat split. Qed.

(** ** The error handler never raises *)

Section HandleError.

Import MorphErrorHandler.

Variable cfg : Config.
Variable pid : string.
Variable isoformat : Z -> string.

Ltac run :=
  unfold mbind, mret, M_bind, M_ret, bind, ret, lift, modify, get_world in *;
  simpl in *.

Ltac descriptor a :=
  exists a; split; [reflexivity | unfold actions; simpl; tauto].

Lemma fallback_to_native_tool_descriptor ctx w r w' :
  fallback_to_native_tool ctx w = (Ok r, w') -> is_descriptor r.
Proof.
  unfold fallback_to_native_tool, update_fallback_stats. run.
  destruct (table_get _ _ _); intros [= <- _]. descriptor "fallback".
Qed.

Lemma retry_with_backoff_descriptor ctx w r w' :
  retry_with_backoff cfg ctx w = (Ok r, w') -> is_descriptor r.
Proof.
  unfold retry_with_backoff.
  destruct (_ >=? _); [apply fallback_to_native_tool_descriptor |]. run.
  destruct (index _ _); intros [= <- _]. descriptor "retry".
Qed.

Lemma handle_batch_operation_descriptor ctx w r w' :
  handle_batch_operation ctx w = (Ok r, w') -> is_descriptor r.
Proof.
  unfold handle_batch_operation. run.
  destruct (contains _ _) as [[|] |]; try discriminate;
    [| apply fallback_to_native_tool_descriptor].
  destruct (getitem _ _) as [edits |]; try discriminate.
  destruct (len edits) as [n |]; try discriminate.
  destruct (n >? 1); [| apply fallback_to_native_tool_descriptor].
  intros [= <- _]. descriptor "split_batch".
Qed.

Lemma use_alternative_tool_descriptor ctx w r w' :
  use_alternative_tool ctx w = (Ok r, w') -> is_descriptor r.
Proof.
  unfold use_alternative_tool.
  destruct (error_type ctx); try apply fallback_to_native_tool_descriptor.
  run.
  destruct (table_get _ _ _) as [[alternative |] |]; try discriminate;
    [| apply fallback_to_native_tool_descriptor].
  destruct (adapt_input_for_alternative _ _); intros [= <- _].
  descriptor "alternative".
Qed.

Lemma graceful_degradation_descriptor ctx w r w' :
  graceful_degradation ctx w = (Ok r, w') -> is_descriptor r.
Proof.
  unfold graceful_degradation.
  destruct (error_type ctx); try apply fallback_to_native_tool_descriptor.
  run.
  destruct (copy _) as [modified_input |]; try discriminate.
  destruct (contains _ _) as [[|] |]; try discriminate.
  - intros [= <- _]. descriptor "degrade".
  - destruct (setitem _ _ _); intros [= <- _]. descriptor "degrade".
Qed.

Lemma execute_fallback_strategy_descriptor ctx strategy w r w' :
  execute_fallback_strategy cfg ctx strategy w = (Ok r, w') ->
  is_descriptor r.
Proof.
  destruct strategy; simpl.
  - apply fallback_to_native_tool_descriptor.
  - apply retry_with_backoff_descriptor.
  - apply handle_batch_operation_descriptor.
  - apply use_alternative_tool_descriptor.
  - apply graceful_degradation_descriptor.
  - unfold fail_fast. run. intros [= <- _]. descriptor "fail".
Qed.

Lemma handle_error_try_descriptor tool_name tool_input error_message
    tool_result w r w' :
  handle_error_try cfg pid isoformat tool_name tool_input error_message
    tool_result w = (Ok r, w') ->
  is_descriptor r.
Proof.
  unfold handle_error_try, create_error_context, log_error,
    update_circuit_breaker. run.
  destruct error_message; try discriminate.
  match goal with
  | |- context [execute_fallback_strategy cfg ?c ?s ?w0] =>
      destruct (execute_fallback_strategy cfg c s w0) as [[r0 | e] w1] eqn:E
  end; try discriminate.
  intros [= <- _]. eapply execute_fallback_strategy_descriptor. exact E.
Qed.

End HandleError.

Example handle_error_try_raises :
  fst (MorphErrorHandler.handle_error_try MorphErrorHandler.config "4242"
         epoch (PStr "mcp__morph__read_file") (PDict []) (PInt 503)
         (PDict []) fresh)
  = Raise (mkExc AttributeError "'int' object has no attribute 'lower'").
Proof. reflexivity. Qed.

Example handle_error_connection_refused :
  fst (MorphErrorHandler.handle_error MorphErrorHandler.config "4242" epoch
         (PStr "mcp__morph__edit_file") (PDict [("file_path", PStr "a.txt")])
         (PStr "connection refused") (PDict []) fresh)
  = PDict
      [ ("action", PStr "fallback");
        ("fallback_tool", PStr "Edit");
        ("fallback_input", PDict [("file_path", PStr "a.txt")]);
        ("reason", PStr "MorphLLM server_unavailable: connection refused");
        ("performance_note",
         PStr "Using native tool due to MorphLLM failure");
        ("original_error", PStr "connection refused") ].
Proof. reflexivity. Qed.

(** C5: [handle_error] is a function into responses: it has no
    exceptional outcome.  Whenever a step of its [try] block raises
    (context creation, logging, selection, execution or the breaker
    update), the response is the ultimate fallback, with action
    "fallback", tool "Read" and the flag "ultimate_fallback"; and in every
    case the response is an action descriptor. *)
Theorem handle_error_never_raises
    (cfg : MorphErrorHandler.Config) (pid : string) (isoformat : Z -> string)
    (tool_name tool_input error_message tool_result : pyval)
    (w : MorphErrorHandler.World) :
  (forall e w1,
      MorphErrorHandler.handle_error_try cfg pid isoformat tool_name
        tool_input error_message tool_result w = (Raise e, w1) ->
      is_ultimate_fallback tool_input
        (fst (MorphErrorHandler.handle_error cfg pid isoformat tool_name
                tool_input error_message tool_result w))) /\
  is_descriptor
    (fst (MorphErrorHandler.handle_error cfg pid isoformat tool_name
            tool_input error_message tool_result w)).
Proof.
  unfold MorphErrorHandler.handle_error.
  destruct (MorphErrorHandler.handle_error_try _ _ _ _ _ _ _ _)
    as [[r | e] w1] eqn:E; simpl; split.
  - intros e w2 H. discriminate H.
  - eapply handle_error_try_descriptor. exact E.
  - intros e' w2 _. eexists. reflexivity.
  - exists "fallback". split; [reflexivity | left; reflexivity].
Qed.

Lemma handle_error_never_raises_witness :
  is_ultimate_fallback (PList [PStr "not"; PStr "a dict"])
    (fst (MorphErrorHandler.handle_error MorphErrorHandler.config "4242"
            epoch (PList [PStr "unhashable"]) (PList [PStr "not"; PStr "a dict"])
            (PStr "disk is full") (PDict []) fresh)).
Proof.
  apply (proj1 (handle_error_never_raises MorphErrorHandler.config "4242"
                  epoch (PList [PStr "unhashable"])
                  (PList [PStr "not"; PStr "a dict"])
                  (PStr "disk is full") (PDict []) fresh)
           (mkExc TypeError "unhashable type: 'list'")
           {| MorphErrorHandler.clock := 0;
              MorphErrorHandler.error_log :=
                [ PDict
                    [ ("timestamp", PStr "1970-01-01T00:00:00");
                      ("session_id", PStr "4242");
                      ("tool_name", PList [PStr "unhashable"]);
                      ("error_type", PStr "unknown_error");
                      ("error_message", PStr "disk is full");
                      ("retry_count", PInt 0);
                      ("fallback_attempted", PBool false) ] ];
              MorphErrorHandler.stats_file := None |}).
  reflexivity.
Defined.

(** ** Bounded cache *)

Section AssocLists.

Context {A : Type}.

Implicit Type d : list (string * A).

Lemma assoc_None_keys k d : assoc k d = None <-> ~ In k (map fst d).
Proof.
  induction d as [| [k' v] d IH]; simpl.
  - tauto.
  - destruct (String.eqb_spec k k') as [-> | Hne].
    + split; [discriminate | tauto].
    + rewrite IH. split; [intros H [? | ?]; auto; congruence | tauto].
Qed.

Lemma mem_false_keys k d : mem k d = false <-> ~ In k (map fst d).
Proof.
  unfold mem. rewrite <- assoc_None_keys.
  destruct (assoc k d); split; congruence.
Qed.

Lemma assoc_set_absent k v d :
  assoc k d = None -> assoc_set k v d = (d ++ [(k, v)])%list.
Proof.
  induction d as [| [k' v'] d IH]; simpl; [reflexivity |].
  destruct (String.eqb k k'); [discriminate |].
  intros H. rewrite (IH H). reflexivity.
Qed.

Lemma assoc_set_last k v v0 d :
  assoc k d = None ->
  assoc_set k v (d ++ [(k, v0)]) = (d ++ [(k, v)])%list.
Proof.
  induction d as [| [k' v'] d IH]; simpl.
  - rewrite String.eqb_refl. reflexivity.
  - destruct (String.eqb k k'); [discriminate |].
    intros H. rewrite (IH H). reflexivity.
Qed.

Lemma assoc_del_absent k d : assoc k d = None -> assoc_del k d = d.
Proof.
  induction d as [| [k' v'] d IH]; simpl; [reflexivity |].
  destruct (String.eqb k k'); [discriminate |].
  intros H. rewrite (IH H). reflexivity.
Qed.

Lemma assoc_del_keys_incl k d k' :
  In k' (map fst (assoc_del k d)) -> In k' (map fst d).
Proof.
  induction d as [| [k0 v0] d IH]; simpl; [tauto |].
  destruct (String.eqb k k0); simpl; tauto.
Qed.

Lemma assoc_del_length k d :
  length (assoc_del k d) = if mem k d then pred (length d) else length d.
Proof.
  unfold mem. induction d as [| [k0 v0] d IH]; simpl; [reflexivity |].
  destruct (String.eqb k k0); simpl; [reflexivity |].
  rewrite IH. destruct (assoc k d) eqn:E; [| reflexivity].
  destruct d; [discriminate E | reflexivity].
Qed.

End AssocLists.

Section Recency.

Context {A : Type}.

Implicit Type d : list (string * A).
Implicit Type used : string -> nat.

Lemma recency_ordered_head_not_in used k ks :
  recency_ordered used (k :: ks) -> ~ In k ks.
Proof.
  intros H Hin. apply StronglySorted_inv in H as [_ H].
  rewrite List.Forall_forall in H. specialize (H k Hin). lia.
Qed.

Lemma recency_ordered_del used k d :
  recency_ordered used (map fst d) ->
  recency_ordered used (map fst (assoc_del k d)).
Proof.
  unfold recency_ordered.
  induction d as [| [k0 v0] d IH]; simpl; intros H; [constructor |].
  apply StronglySorted_inv in H as [Hs Hf].
  destruct (String.eqb k k0); simpl; [exact Hs |].
  constructor; [auto |].
  rewrite List.Forall_forall in *. intros k' Hk'.
  apply Hf. eapply assoc_del_keys_incl. exact Hk'.
Qed.

Lemma recency_ordered_del_not_in used k d :
  recency_ordered used (map fst d) ->
  ~ In k (map fst (assoc_del k d)).
Proof.
  induction d as [| [k0 v0] d IH]; simpl; intros H; [tauto |].
  destruct (String.eqb_spec k k0) as [-> | Hne].
  - eapply recency_ordered_head_not_in. exact H.
  - apply StronglySorted_inv in H as [Hs _].
    simpl. intros [? | ?]; [congruence | exact (IH Hs H)].
Qed.

Lemma touch_other key n used k :
  k <> key -> CacheRun.touch key n used k = used k.
Proof.
  intros H. unfold CacheRun.touch.
  destruct (String.eqb_spec k key); [contradiction | reflexivity].
Qed.

Lemma touch_same key n used : CacheRun.touch key n used key = n.
Proof. unfold CacheRun.touch. rewrite String.eqb_refl. reflexivity. Qed.

Lemma recency_ordered_touch_absent used key n ks :
  ~ In key ks ->
  recency_ordered used ks ->
  recency_ordered (CacheRun.touch key n used) ks.
Proof.
  unfold recency_ordered. intros Hnin H.
  induction H as [| k ks Hs IH Hf]; [constructor |].
  constructor.
  - apply IH. intros Hin. apply Hnin. right. exact Hin.
  - rewrite List.Forall_forall in *. intros k' Hk'.
    rewrite !touch_other.
    + apply Hf. exact Hk'.
    + intros ->. apply Hnin. right. exact Hk'.
    + intros ->. apply Hnin. left. reflexivity.
Qed.

Lemma recency_ordered_snoc used k ks :
  recency_ordered used ks ->
  Forall (fun a => (used a < used k)%nat) ks ->
  recency_ordered used (ks ++ [k]).
Proof.
  unfold recency_ordered. intros H.
  induction H as [| k0 ks Hs IH Hf]; simpl; intros Hlt.
  - repeat constructor.
  - apply List.Forall_cons_iff in Hlt as [Hk0 Hlt].
    constructor; [auto |].
    apply List.Forall_app. split; [exact Hf |].
    constructor; [exact Hk0 | constructor].
Qed.

(** Using a key puts it last and keeps the order. *)
Lemma recency_ordered_use used key n ks :
  ~ In key ks ->
  recency_ordered used ks ->
  Forall (fun a => (used a <= pred n)%nat) ks ->
  (0 < n)%nat ->
  recency_ordered (CacheRun.touch key n used) (ks ++ [key]).
Proof.
  intros Hnin Hs Hle Hn.
  apply recency_ordered_snoc.
  - apply recency_ordered_touch_absent; assumption.
  - rewrite List.Forall_forall in *. intros k Hk.
    rewrite touch_same, touch_other.
    + specialize (Hle k Hk). simpl in Hle. lia.
    + intros ->. contradiction.
Qed.

End Recency.

Section CacheInvariant.

Import LRUCache CacheRun.

Context {V : Type}.

Implicit Type c : LRUCache.t V.
Implicit Type x : traced V.

Lemma set_promoted used key value now c :
  recency_ordered used (map fst (cache c)) ->
  set key value now c =
    Ok (with_cache c
          (if Z.of_nat (length (promoted key value now c)) >? max_size c
           then tl (promoted key value now c)
           else promoted key value now c)).
Proof.
  intros Hs. unfold set, promoted.
  assert (Hd : assoc key (assoc_del key (cache c)) = None).
  { apply assoc_None_keys. eapply recency_ordered_del_not_in. exact Hs. }
  unfold mem, move_to_end.
  destruct (assoc key (cache c)) as [v0 |] eqn:E; simpl.
  - rewrite (assoc_set_last _ _ _ _ Hd).
    destruct (_ >? _); [| reflexivity].
    destruct (assoc_del key (cache c)); reflexivity.
  - rewrite (assoc_del_absent _ _ E), (assoc_set_absent _ _ _ E).
    destruct (_ >? _); [| reflexivity].
    destruct (cache c); reflexivity.
Qed.

Lemma get_cases key now c :
  get key now c =
    Ok
      match assoc key (cache c) with
      | Some (value, timestamp) =>
          if live now timestamp (ttl_seconds c) then
            (Some value,
             {| max_size := max_size c; ttl_seconds := ttl_seconds c;
                cache := (assoc_del key (cache c)
                          ++ [(key, (value, timestamp))])%list;
                hits := hits c + 1; misses := misses c |})
          else
            (None,
             {| max_size := max_size c; ttl_seconds := ttl_seconds c;
                cache := assoc_del key (cache c);
                hits := hits c; misses := misses c + 1 |})
      | None =>
          (None,
           {| max_size := max_size c; ttl_seconds := ttl_seconds c;
              cache := cache c; hits := hits c; misses := misses c + 1 |})
      end.
Proof.
  unfold get, move_to_end.
  destruct (assoc key (cache c)) as [[value timestamp] |] eqn:E;
    [| reflexivity].
  destruct (live _ _ _); reflexivity.
Qed.

Variable mx : Z.
Hypothesis Hmx : 0 <= mx.

Local Abbreviation inv := (@cache_inv V mx).

Lemma inv_start ttl : inv (start mx ttl).
Proof. split; simpl; try constructor. exact Hmx. Qed.

Lemma keys_promoted key value now c :
  map fst (promoted key value now c)
  = (map fst (assoc_del key (cache c)) ++ [key])%list.
Proof. unfold promoted. rewrite map_app. reflexivity. Qed.

Lemma Forall_del {P : string -> Prop} key
    (d : list (string * (V * Binary64.float))) :
  Forall P (map fst d) -> Forall P (map fst (assoc_del key d)).
Proof.
  rewrite !List.Forall_forall. intros H k Hk.
  apply H. eapply assoc_del_keys_incl. exact Hk.
Qed.

Lemma tick_touch key x ks :
  Forall (fun k => (used x k <= tick x)%nat) ks ->
  Forall (fun k => (touch key (S (tick x)) (used x) k <= S (tick x))%nat) ks.
Proof.
  apply List.Forall_impl. intros k Hk. unfold touch.
  destruct (String.eqb k key); lia.
Qed.

Lemma keys_tl (d : list (string * (V * Binary64.float))) :
  map fst (tl d) = tl (map fst d).
Proof. destruct d; reflexivity. Qed.

Lemma recency_ordered_tl used ks :
  recency_ordered used ks -> recency_ordered used (tl ks).
Proof.
  destruct ks; simpl; [auto |].
  intros H. apply StronglySorted_inv in H. tauto.
Qed.

Lemma step_inv o x : inv x -> exists x', step o x = Ok x' /\ inv x'.
Proof.
  intros [Hmax Hsize Horder Htick]. unfold keys in *.
  destruct o as [key now | key value now]; unfold step.
  - rewrite get_cases. simpl.
    destruct (assoc key (cache (state x))) as [[value timestamp] |] eqn:E.
    + destruct (live _ _ _); eexists; (split; [reflexivity |]);
        split; unfold keys; simpl; auto.
      * rewrite length_app, assoc_del_length. unfold mem. rewrite E.
        simpl. destruct (cache (state x)); [discriminate E | simpl in *; lia].
      * rewrite map_app. simpl. apply recency_ordered_use.
        -- eapply recency_ordered_del_not_in. exact Horder.
        -- apply recency_ordered_del. exact Horder.
        -- simpl. apply Forall_del. exact Htick.
        -- lia.
      * rewrite map_app. apply List.Forall_app. split.
        -- apply tick_touch. apply Forall_del. exact Htick.
        -- constructor; [| constructor]. simpl. unfold touch.
           rewrite String.eqb_refl. lia.
      * rewrite assoc_del_length. destruct (mem _ _). all: lia.
      * apply recency_ordered_del. exact Horder.
      * apply Forall_del. eapply List.Forall_impl; [| exact Htick].
        simpl. intros; lia.
    + eexists. split; [reflexivity |]. split; unfold keys; simpl; auto.
      eapply List.Forall_impl; [| exact Htick]. simpl. intros; lia.
  - rewrite (set_promoted _ _ _ _ _ Horder). simpl.
    eexists. split; [reflexivity |].
    assert (Ho : recency_ordered (touch key (S (tick x)) (used x))
                   (map fst (promoted key value now (state x)))).
    { rewrite keys_promoted. apply recency_ordered_use.
      - eapply recency_ordered_del_not_in. exact Horder.
      - apply recency_ordered_del. exact Horder.
      - simpl. apply Forall_del. exact Htick.
      - lia. }
    assert (Ht : Forall (fun k => (touch key (S (tick x)) (used x) k
                                   <= S (tick x))%nat)
                   (map fst (promoted key value now (state x)))).
    { rewrite keys_promoted. apply List.Forall_app. split.
      - apply tick_touch. apply Forall_del. exact Htick.
      - constructor; [| constructor]. unfold touch.
        rewrite String.eqb_refl. lia. }
    assert (Hl : Z.of_nat (length (promoted key value now (state x)))
                 <= mx + 1).
    { unfold promoted. rewrite length_app, assoc_del_length.
      simpl. destruct (mem _ _); lia. }
    rewrite Hmax.
    destruct (Z.gtb_spec (Z.of_nat (length (promoted key value now (state x))))
                mx) as [Hgt | Hle];
      split; unfold keys; simpl; auto.
    + destruct (promoted key value now (state x)); simpl in *; lia.
    + rewrite keys_tl. apply recency_ordered_tl. exact Ho.
    + rewrite keys_tl. destruct (map fst (promoted key value now (state x)));
        simpl; [constructor |].
      apply List.Forall_cons_iff in Ht. tauto.
Qed.

Lemma run_inv ops x : inv x -> exists x', run ops x = Ok x' /\ inv x'.
Proof.
  revert x. induction ops as [| o ops IH]; simpl; intros x Hx.
  - eauto.
  - destruct (step_inv o x Hx) as (x1 & -> & Hx1). simpl.
    apply IH. exact Hx1.
Qed.

End CacheInvariant.

Section CacheUse.

Import LRUCache CacheRun.

Context {V : Type}.

Implicit Type c : LRUCache.t V.
Implicit Type x : traced V.
Implicit Type d : list (string * (V * Binary64.float)).

Lemma assoc_app_absent {A} k (d1 d2 : list (string * A)) :
  assoc k d1 = None -> assoc k (d1 ++ d2) = assoc k d2.
Proof.
  induction d1 as [| [k' v'] d1 IH]; simpl; [reflexivity |].
  destruct (String.eqb k k'); [discriminate | exact IH].
Qed.

Lemma assoc_tl_absent {A} k (d : list (string * A)) :
  assoc k d = None -> assoc k (tl d) = None.
Proof.
  destruct d as [| [k' v'] d]; simpl; [reflexivity |].
  destruct (String.eqb k k'); [discriminate | auto].
Qed.

(** After [set], the key is bound to the new value and time, when the
    capacity is at least 1. *)
Lemma set_binds used key value now c c' :
  1 <= max_size c ->
  recency_ordered used (map fst (cache c)) ->
  set key value now c = Ok c' ->
  assoc key (cache c') = Some (value, now) /\
  max_size c' = max_size c /\ ttl_seconds c' = ttl_seconds c /\
  hits c' = hits c /\ misses c' = misses c.
Proof.
  intros Hcap Hs. rewrite (set_promoted used _ _ _ _ Hs). intros [= <-].
  simpl. repeat split.
  assert (Hd : assoc key (assoc_del key (cache c)) = None).
  { apply assoc_None_keys. eapply recency_ordered_del_not_in. exact Hs. }
  unfold promoted.
  destruct (_ >? _) eqn:Hgt.
  - destruct (assoc_del key (cache c)) as [| e d'] eqn:E.
    + simpl in Hgt. apply Z.gtb_lt in Hgt. lia.
    + simpl. rewrite assoc_app_absent.
      * simpl. rewrite String.eqb_refl. reflexivity.
      * apply (assoc_tl_absent key (e :: d')). exact Hd.
  - rewrite assoc_app_absent by exact Hd.
    simpl. rewrite String.eqb_refl. reflexivity.
Qed.

Lemma step_facts mx o x x' :
  0 <= mx -> cache_inv mx x -> step o x = Ok x' ->
  cache_inv mx x' /\
  ttl_seconds (state x') = ttl_seconds (state x) /\
  hits (state x') + misses (state x')
    = hits (state x) + misses (state x) + count_gets [o] /\
  hits (state x) <= hits (state x') /\
  misses (state x) <= misses (state x').
Proof.
  intros Hmx Hinv Hstep.
  destruct (step_inv mx Hmx o x Hinv) as (x1 & Hx1 & Hinv1).
  assert (x1 = x') by congruence. subst x1. split; [exact Hinv1 |].
  clear Hx1 Hinv1. destruct Hinv as [_ _ Horder _]. unfold keys in Horder.
  destruct o as [key now | key value now]; unfold step in Hstep.
  - rewrite get_cases in Hstep. simpl in Hstep.
    destruct (assoc key (cache (state x))) as [[value timestamp] |];
      [destruct (live _ _ _) |];
      injection Hstep as <-; simpl; lia.
  - rewrite (set_promoted _ _ _ _ _ Horder) in Hstep.
    injection Hstep as <-. simpl. lia.
Qed.

Lemma run_facts mx ops x x' :
  0 <= mx -> cache_inv mx x -> run ops x = Ok x' ->
  cache_inv mx x' /\
  ttl_seconds (state x') = ttl_seconds (state x) /\
  hits (state x') + misses (state x')
    = hits (state x) + misses (state x) + count_gets ops /\
  hits (state x) <= hits (state x') /\
  misses (state x) <= misses (state x').
Proof.
  intros Hmx. revert x.
  induction ops as [| o ops IH]; simpl; intros x Hinv Hrun.
  - injection Hrun as <-. split; [exact Hinv |]. repeat split; lia.
  - destruct (step o x) as [x1 |] eqn:Hstep; [| discriminate Hrun].
    simpl in Hrun.
    destruct (step_facts mx o x x1 Hmx Hinv Hstep)
      as (Hinv1 & Httl1 & Hsum1 & Hh1 & Hm1).
    destruct (IH x1 Hinv1 Hrun) as (Hinv' & Httl' & Hsum' & Hh' & Hm').
    split; [exact Hinv' |]. simpl in Hsum1.
    destruct o; lia.
Qed.

Lemma start_facts mx ttl ops x :
  0 <= mx -> run ops (start mx ttl) = Ok x ->
  cache_inv mx x /\
  ttl_seconds (state x) = ttl /\
  hits (state x) + misses (state x) = count_gets ops /\
  0 <= hits (state x) /\ 0 <= misses (state x).
Proof.
  intros Hmx Hrun.
  destruct (run_facts mx ops _ x Hmx (inv_start mx Hmx ttl) Hrun)
    as (Hinv & Httl & Hsum & Hh & Hm).
  simpl in *. split; [exact Hinv |]. repeat split; try assumption; lia.
Qed.

End CacheUse.

(** What [set] returns on a cache whose keys are distinct: the key is
    moved to the end with its new value, and the first entry is dropped
    when that makes one entry too many. *)
Lemma set_cases {V} used key (value : V) now (c : LRUCache.t V) :
  recency_ordered used (map fst (LRUCache.cache c)) ->
  Z.of_nat (length (LRUCache.cache c)) <= LRUCache.max_size c ->
  exists d,
    LRUCache.set key value now c = Ok (LRUCache.with_cache c d) /\
    Z.of_nat (length d) <= LRUCache.max_size c /\
    (1 <= LRUCache.max_size c -> assoc key d = Some (value, now)) /\
    (mem key (LRUCache.cache c) = true ->
     d = (assoc_del key (LRUCache.cache c) ++ [(key, (value, now))])%list) /\
    (mem key (LRUCache.cache c) = false ->
     Z.of_nat (length (LRUCache.cache c)) < LRUCache.max_size c ->
     d = (LRUCache.cache c ++ [(key, (value, now))])%list) /\
    (mem key (LRUCache.cache c) = false ->
     Z.of_nat (length (LRUCache.cache c)) = LRUCache.max_size c ->
     exists evicted,
       (LRUCache.cache c ++ [(key, (value, now))])%list = evicted :: d /\
       forall k, In k (map fst (LRUCache.cache c)) -> k <> fst evicted ->
                 (used (fst evicted) < used k)%nat).
Proof.
  intros Horder Hsize.
  rewrite (set_promoted used _ _ _ _ Horder). eexists.
  split; [reflexivity |].
  assert (Hd : assoc key (assoc_del key (LRUCache.cache c)) = None).
  { apply assoc_None_keys. eapply recency_ordered_del_not_in. exact Horder. }
  assert (Hlen : length (promoted key value now c)
                 = S (length (assoc_del key (LRUCache.cache c)))).
  { unfold promoted. rewrite length_app. simpl. lia. }
  pose proof (assoc_del_length key (LRUCache.cache c)) as Hdel.
  split; [| split; [| split; [| split]]].
  - destruct (Z.gtb_spec (Z.of_nat (length (promoted key value now c)))
                (LRUCache.max_size c)) as [Hgt | Hle]; [| exact Hle].
    rewrite Hlen in Hgt. unfold promoted.
    destruct (assoc_del key (LRUCache.cache c)) as [| e d'] eqn:E;
      simpl; [lia |].
    rewrite length_app. simpl.
    destruct (mem key (LRUCache.cache c)); simpl in Hdel; lia.
  - intros Hcap.
    destruct (Z.gtb_spec (Z.of_nat (length (promoted key value now c)))
                (LRUCache.max_size c)) as [Hgt | Hle]; unfold promoted.
    + rewrite Hlen in Hgt.
      destruct (assoc_del key (LRUCache.cache c)) as [| e d'] eqn:E;
        [simpl in Hgt; lia |].
      simpl. rewrite assoc_app_absent.
      * simpl. rewrite String.eqb_refl. reflexivity.
      * apply (assoc_tl_absent key (e :: d')). exact Hd.
    + rewrite assoc_app_absent by exact Hd.
      simpl. rewrite String.eqb_refl. reflexivity.
  - intros Hmem. rewrite Hmem in Hdel.
    destruct (Z.gtb_spec (Z.of_nat (length (promoted key value now c)))
                (LRUCache.max_size c)) as [Hgt | Hle]; [| reflexivity].
    rewrite Hlen in Hgt.
    destruct (LRUCache.cache c); [discriminate Hmem | simpl in *; lia].
  - intros Hmem Hroom. rewrite Hmem in Hdel.
    assert (Habsent : assoc key (LRUCache.cache c) = None).
    { apply assoc_None_keys. apply mem_false_keys. exact Hmem. }
    destruct (Z.gtb_spec (Z.of_nat (length (promoted key value now c)))
                (LRUCache.max_size c)) as [Hgt | Hle]; [lia |].
    unfold promoted. rewrite (assoc_del_absent _ _ Habsent). reflexivity.
  - intros Hmem Hfull. rewrite Hmem in Hdel.
    assert (Habsent : assoc key (LRUCache.cache c) = None).
    { apply assoc_None_keys. apply mem_false_keys. exact Hmem. }
    destruct (Z.gtb_spec (Z.of_nat (length (promoted key value now c)))
                (LRUCache.max_size c)) as [Hgt | Hle]; [| lia].
    unfold promoted. rewrite (assoc_del_absent _ _ Habsent).
    destruct (LRUCache.cache c) as [| e l]; simpl.
    + eexists. split; [reflexivity |]. intros k [].
    + eexists. split; [reflexivity |].
      intros k [<- | Hk] Hne; [congruence |].
      simpl in Horder. apply StronglySorted_inv in Horder as [_ Hf].
      rewrite List.Forall_forall in Hf. apply Hf. exact Hk.
Qed.

(** C7: on a cache created with a capacity [max_size >= 0], every
    sequence of [get] and [set] calls runs without an exception and leaves
    at most [max_size] entries, kept from the least to the most recently
    used.  In the state reached, a [get] of a stored key whose entry has
    not expired returns the value, counts a hit and moves the entry to the
    most recent end; a [get] of an expired entry deletes it and a [get] of
    an absent key changes nothing, both counting a miss.  A [set] returns
    with at most [max_size] entries, having stored the entry (capacity 1
    or more) at the most recent end: an entry of the same key is replaced,
    a new key in a cache that is not full is added and nothing is removed,
    and a new key in a full cache removes exactly the first entry, the
    least recently used one: every other stored key has been used
    later. *)
Theorem lru_cache_bounded_evicts_oldest
    (V : Type) (max_size ttl_seconds : Z) (ops : list (CacheRun.op V))
    (Hcapacity : 0 <= max_size) :
  exists x,
    CacheRun.run ops (CacheRun.start max_size ttl_seconds) = Ok x /\
    Z.of_nat (length (LRUCache.cache (CacheRun.state x))) <= max_size /\
    recency_ordered (CacheRun.used x) (CacheRun.keys x) /\
    (forall key now,
       LRUCache.get key now (CacheRun.state x) =
         Ok match assoc key (LRUCache.cache (CacheRun.state x)) with
            | Some (value, timestamp) =>
                if LRUCache.live now timestamp ttl_seconds then
                  (Some value,
                   {| LRUCache.max_size := max_size;
                      LRUCache.ttl_seconds := ttl_seconds;
                      LRUCache.cache :=
                        (assoc_del key (LRUCache.cache (CacheRun.state x))
                         ++ [(key, (value, timestamp))])%list;
                      LRUCache.hits := LRUCache.hits (CacheRun.state x) + 1;
                      LRUCache.misses :=
                        LRUCache.misses (CacheRun.state x) |})
                else
                  (None,
                   {| LRUCache.max_size := max_size;
                      LRUCache.ttl_seconds := ttl_seconds;
                      LRUCache.cache :=
                        assoc_del key (LRUCache.cache (CacheRun.state x));
                      LRUCache.hits := LRUCache.hits (CacheRun.state x);
                      LRUCache.misses :=
                        LRUCache.misses (CacheRun.state x) + 1 |})
            | None =>
                (None,
                 {| LRUCache.max_size := max_size;
                    LRUCache.ttl_seconds := ttl_seconds;
                    LRUCache.cache := LRUCache.cache (CacheRun.state x);
                    LRUCache.hits := LRUCache.hits (CacheRun.state x);
                    LRUCache.misses :=
                      LRUCache.misses (CacheRun.state x) + 1 |})
            end) /\
    (forall key value now,
       exists d,
         LRUCache.set key value now (CacheRun.state x)
           = Ok (LRUCache.with_cache (CacheRun.state x) d) /\
         Z.of_nat (length d) <= max_size /\
         (1 <= max_size -> assoc key d = Some (value, now)) /\
         (mem key (LRUCache.cache (CacheRun.state x)) = true ->
          d = (assoc_del key (LRUCache.cache (CacheRun.state x))
               ++ [(key, (value, now))])%list) /\
         (mem key (LRUCache.cache (CacheRun.state x)) = false ->
          Z.of_nat (length (LRUCache.cache (CacheRun.state x))) < max_size ->
          d = (LRUCache.cache (CacheRun.state x)
               ++ [(key, (value, now))])%list) /\
         (mem key (LRUCache.cache (CacheRun.state x)) = false ->
          Z.of_nat (length (LRUCache.cache (CacheRun.state x))) = max_size ->
          exists evicted,
            (LRUCache.cache (CacheRun.state x) ++ [(key, (value, now))])%list
              = evicted :: d /\
            forall k, In k (CacheRun.keys x) -> k <> fst evicted ->
                      (CacheRun.used x (fst evicted)
                       < CacheRun.used x k)%nat)).
Proof.
  destruct (run_inv max_size Hcapacity ops (CacheRun.start max_size ttl_seconds)
              (inv_start max_size Hcapacity ttl_seconds))
    as (x & Hrun & Hinv).
  destruct (start_facts max_size ttl_seconds ops x Hcapacity Hrun)
    as (_ & Httl & _).
  destruct Hinv as [Hmax Hsize Horder Htick].
  exists x. split; [exact Hrun |]. split; [exact Hsize |].
  split; [exact Horder |]. split.
  - intros key now. rewrite get_cases, Httl, Hmax. reflexivity.
  - intros key value now. unfold CacheRun.keys in *.
    rewrite <- Hmax. apply set_cases; [exact Horder |].
    rewrite Hmax. exact Hsize.
Qed.

(** The keys after each call of [abca] on a cache of capacity 2: the
    second insertion fills the cache, the hit on "a" makes "b" the least
    recently used key, and the third insertion evicts "b". *)
Example run_abca :
  map (fun n => x ← CacheRun.run (firstn n abca) (CacheRun.start 2 300);
                mret (CacheRun.keys x))
      [1; 2; 3; 4]%nat
  = [Ok ["a"]; Ok ["a"; "b"]; Ok ["b"; "a"]; Ok ["a"; "c"]].
Proof. vm_compute. reflexivity. Qed.

Lemma lru_cache_bounded_evicts_oldest_witness :
  (x ← CacheRun.run abca (CacheRun.start 2 300);
   mret (CacheRun.keys x,
         Z.of_nat (length (LRUCache.cache (CacheRun.state x)))))
  = Ok (["a"; "c"], 2) /\
  exists x,
    CacheRun.run abca (CacheRun.start 2 300) = Ok x /\
    Z.of_nat (length (LRUCache.cache (CacheRun.state x))) <= 2 /\
    recency_ordered (CacheRun.used x) (CacheRun.keys x) /\
    (forall key now,
       LRUCache.get key now (CacheRun.state x) =
         Ok match assoc key (LRUCache.cache (CacheRun.state x)) with
            | Some (value, timestamp) =>
                if LRUCache.live now timestamp 300 then
                  (Some value,
                   {| LRUCache.max_size := 2;
                      LRUCache.ttl_seconds := 300;
                      LRUCache.cache :=
                        (assoc_del key (LRUCache.cache (CacheRun.state x))
                         ++ [(key, (value, timestamp))])%list;
                      LRUCache.hits := LRUCache.hits (CacheRun.state x) + 1;
                      LRUCache.misses :=
                        LRUCache.misses (CacheRun.state x) |})
                else
                  (None,
                   {| LRUCache.max_size := 2;
                      LRUCache.ttl_seconds := 300;
                      LRUCache.cache :=
                        assoc_del key (LRUCache.cache (CacheRun.state x));
                      LRUCache.hits := LRUCache.hits (CacheRun.state x);
                      LRUCache.misses :=
                        LRUCache.misses (CacheRun.state x) + 1 |})
            | None =>
                (None,
                 {| LRUCache.max_size := 2;
                    LRUCache.ttl_seconds := 300;
                    LRUCache.cache := LRUCache.cache (CacheRun.state x);
                    LRUCache.hits := LRUCache.hits (CacheRun.state x);
                    LRUCache.misses :=
                      LRUCache.misses (CacheRun.state x) + 1 |})
            end) /\
    (forall key value now,
       exists d,
         LRUCache.set key value now (CacheRun.state x)
           = Ok (LRUCache.with_cache (CacheRun.state x) d) /\
         Z.of_nat (length d) <= 2 /\
         (1 <= 2 -> assoc key d = Some (value, now)) /\
         (mem key (LRUCache.cache (CacheRun.state x)) = true ->
          d = (assoc_del key (LRUCache.cache (CacheRun.state x))
               ++ [(key, (value, now))])%list) /\
         (mem key (LRUCache.cache (CacheRun.state x)) = false ->
          Z.of_nat (length (LRUCache.cache (CacheRun.state x))) < 2 ->
          d = (LRUCache.cache (CacheRun.state x)
               ++ [(key, (value, now))])%list) /\
         (mem key (LRUCache.cache (CacheRun.state x)) = false ->
          Z.of_nat (length (LRUCache.cache (CacheRun.state x))) = 2 ->
          exists evicted,
            (LRUCache.cache (CacheRun.state x) ++ [(key, (value, now))])%list
              = evicted :: d /\
            forall k, In k (CacheRun.keys x) -> k <> fst evicted ->
                      (CacheRun.used x (fst evicted)
                       < CacheRun.used x k)%nat)).
Proof.
  split; [reflexivity |].
  apply (lru_cache_bounded_evicts_oldest Z 2 300 abca). lia.
Defined.

(** ** Performance monitor *)

Section Monitor.

Import PerformanceMonitor.

Lemma floor_index_agrees_spec k lo x p n :
  floor_index_agrees k lo x p = true ->
  lo <= n < lo + Z.of_nat k ->
  int_mul_float n x = Ok (n * p / 100).
Proof.
  revert lo. induction k as [| k IH]; intros lo H Hn; [lia |].
  simpl in H. apply andb_true_iff in H as [Hlo Hrest].
  destruct (Z.eq_dec n lo) as [-> | Hne].
  - destruct (int_mul_float lo x) as [i |]; [| discriminate].
    apply Z.eqb_eq in Hlo. congruence.
  - apply (IH (lo + 1)); [exact Hrest | lia].
Qed.

Lemma int_mul_float_0_95 n :
  1 <= n <= 1000 -> int_mul_float n float_0_95 = Ok (n * 95 / 100).
Proof.
  intros H. apply (floor_index_agrees_spec 1000 1); [| lia].
  vm_compute. reflexivity.
Qed.

Lemma int_mul_float_0_99 n :
  1 <= n <= 1000 -> int_mul_float n float_0_99 = Ok (n * 99 / 100).
Proof.
  intros H. apply (floor_index_agrees_spec 1000 1); [| lia].
  vm_compute. reflexivity.
Qed.

(** The literals denote the doubles nearest to 95/100 and 99/100. *)
Lemma float_literals :
  SFdiv prec emax (binary_normalize prec emax 95 0 false)
                  (binary_normalize prec emax 100 0 false) = float_0_95 /\
  SFdiv prec emax (binary_normalize prec emax 99 0 false)
                  (binary_normalize prec emax 100 0 false) = float_0_99.
Proof. split; vm_compute; reflexivity. Qed.

Lemma index_in_range {A} (l : list A) i :
  0 <= i < Z.of_nat (length l) ->
  exists x, index l i = Ok x /\ nth_error l (Z.to_nat i) = Some x.
Proof.
  intros H. unfold index.
  destruct (Z.ltb_spec i 0); [lia |].
  destruct (Z.leb_spec 0 i); [| lia].
  destruct (Z.ltb_spec i (Z.of_nat (length l))); [| lia]. simpl.
  destruct (nth_error l (Z.to_nat i)) as [x |] eqn:E; [eauto |].
  apply nth_error_None in E. lia.
Qed.

Lemma insert_sorted_length x l :
  length (insert_sorted x l) = S (length l).
Proof.
  induction l as [| y l IH]; simpl; [reflexivity |].
  destruct (Qle_bool x y); simpl; [reflexivity | rewrite IH; reflexivity].
Qed.

Lemma sorted_length l : length (sorted l) = length l.
Proof.
  induction l as [| x l IH]; simpl; [reflexivity |].
  rewrite insert_sorted_length, IH. reflexivity.
Qed.

Lemma insert_sorted_perm x l : Permutation (x :: l) (insert_sorted x l).
Proof.
  induction l as [| y l IH]; simpl; [reflexivity |].
  destruct (Qle_bool x y); [reflexivity |].
  rewrite perm_swap. constructor. exact IH.
Qed.

Lemma sorted_perm l : Permutation l (sorted l).
Proof.
  induction l as [| x l IH]; simpl; [constructor |].
  rewrite <- insert_sorted_perm. constructor. exact IH.
Qed.

Lemma insert_sorted_ascending x l :
  Sorted Qle l -> Sorted Qle (insert_sorted x l).
Proof.
  induction 1 as [| y l Hs IH Hhd]; simpl.
  - repeat constructor.
  - destruct (Qle_bool x y) eqn:E.
    + apply Qle_bool_iff in E. repeat constructor; assumption.
    + assert (Hyx : (y <= x)%Q).
      { apply Qlt_le_weak. apply Qnot_le_lt. intros H.
        apply Qle_bool_iff in H. congruence. }
      constructor; [exact IH |].
      destruct l as [| z l]; simpl in *.
      * constructor. exact Hyx.
      * destruct (Qle_bool x z); constructor; [exact Hyx |].
        inversion Hhd; assumption.
Qed.

Lemma sorted_ascending l : Sorted Qle (sorted l).
Proof.
  induction l as [| x l IH]; simpl; [constructor |].
  apply insert_sorted_ascending. exact IH.
Qed.

End Monitor.

Section Window.

Import PerformanceMonitor.

Implicit Type metrics : gmap string (list Q).

Lemma last_n_length {A} n (l : list A) :
  (n <= length l)%nat -> length (last_n n l) = n.
Proof. intros H. unfold last_n. rewrite length_skipn. lia. Qed.

Lemma windowed_record op d metrics :
  windowed metrics -> windowed (record_timing op d metrics).
Proof.
  intros Hw op' ts. unfold record_timing.
  destruct (decide (op = op')) as [<- | Hne].
  - rewrite lookup_insert_eq. intros [= <-].
    pose proof (length_app (default [] (metrics !! op)) [d]) as Hlen.
    simpl in Hlen.
    destruct (Z.gtb_spec
                (Z.of_nat (length (default [] (metrics !! op) ++ [d])))
                1000) as [Hgt | Hle].
    + rewrite last_n_length; lia.
    + lia.
  - rewrite lookup_insert_ne by exact Hne. apply Hw.
Qed.

Lemma windowed_fold trace metrics :
  windowed metrics ->
  windowed (fold_left (fun metrics sample =>
                         record_timing (fst sample) (snd sample) metrics)
                      trace metrics).
Proof.
  revert metrics. induction trace as [| [op d] trace IH]; simpl; intros m Hm.
  - exact Hm.
  - apply IH. apply windowed_record. exact Hm.
Qed.

Lemma windowed_recorded trace : windowed (recorded trace).
Proof.
  apply windowed_fold. intros op ts H. rewrite lookup_empty in H.
  discriminate H.
Qed.

Lemma get_stats_windowed operation metrics ts :
  metrics !! operation = Some ts ->
  (1 <= length ts <= 1000)%nat ->
  let n := Z.of_nat (length ts) in
  exists st,
    get_stats operation metrics = Ok (Some st) /\
    count st = n /\
    nth_error (sorted ts) (Z.to_nat (n / 2)) = Some (p50 st) /\
    nth_error (sorted ts) (Z.to_nat (n * 95 / 100)) = Some (p95 st) /\
    nth_error (sorted ts) (Z.to_nat (n * 99 / 100)) = Some (p99 st).
Proof.
  destruct ts as [| x l']; [simpl; lia |].
  set (ts := x :: l'). intros Hts Hlen n.
  unfold get_stats. rewrite Hts. fold ts.
  rewrite sorted_length. fold n.
  assert (Hn : 1 <= n <= 1000) by (unfold n; lia).
  rewrite (int_mul_float_0_95 n Hn), (int_mul_float_0_99 n Hn).
  destruct (index_in_range (sorted ts) (n / 2)) as (v50 & -> & H50).
  { rewrite sorted_length. fold n. split.
    - apply Z.div_pos; lia.
    - apply Z.div_lt; lia. }
  destruct (index_in_range (sorted ts) (n * 95 / 100)) as (v95 & H95' & H95).
  { rewrite sorted_length. fold n. split.
    - apply Z.div_pos; lia.
    - apply Z.div_lt_upper_bound; lia. }
  destruct (index_in_range (sorted ts) (n * 99 / 100)) as (v99 & H99' & H99).
  { rewrite sorted_length. fold n. split.
    - apply Z.div_pos; lia.
    - apply Z.div_lt_upper_bound; lia. }
  cbn [mbind res_bind Py.bind]. rewrite H95'.
  cbn [mbind res_bind Py.bind]. rewrite H99'.
  cbn [mbind res_bind Py.bind mret res_ret].
  eexists. split; [reflexivity |]. cbn [count p50 p95 p99]. auto.
Qed.

End Window.

(** C8: for an operation with a recorded series [ts] of [n] samples,
    [get_stats] returns statistics whose p95 and p99 are the entries of
    the sorted window (the ascending permutation of [ts]) at the indices
    [int(n * 0.95)] and [int(n * 0.99)], and these are the floors
    [n * 95 / 100] and [n * 99 / 100]; for the samples 1..100, p95 is the
    sorted sample at index 95, that is 96. *)
Theorem get_stats_floor_percentiles
    (trace : list (string * Q)) (operation : string) (ts : list Q)
    (Hseries : recorded trace !! operation = Some ts) :
  let n := Z.of_nat (length ts) in
  (exists st,
      PerformanceMonitor.get_stats operation (recorded trace) = Ok (Some st)
      /\ PerformanceMonitor.int_mul_float n PerformanceMonitor.float_0_95
         = Ok (n * 95 / 100)
      /\ PerformanceMonitor.int_mul_float n PerformanceMonitor.float_0_99
         = Ok (n * 99 / 100)
      /\ nth_error (PerformanceMonitor.sorted ts) (Z.to_nat (n * 95 / 100))
         = Some (PerformanceMonitor.p95 st)
      /\ nth_error (PerformanceMonitor.sorted ts) (Z.to_nat (n * 99 / 100))
         = Some (PerformanceMonitor.p99 st))
  /\ Sorted Qle (PerformanceMonitor.sorted ts)
  /\ Permutation ts (PerformanceMonitor.sorted ts)
  /\ (exists st,
         PerformanceMonitor.get_stats "op" (recorded fixture_1_100)
         = Ok (Some st)
         /\ nth_error (PerformanceMonitor.sorted (map snd fixture_1_100)) 95
            = Some (PerformanceMonitor.p95 st)
         /\ PerformanceMonitor.p95 st = 96%Q).
Proof.
  intros n.
  pose proof (windowed_recorded trace operation ts Hseries) as Hlen.
  destruct (get_stats_windowed operation (recorded trace) ts Hseries Hlen)
    as (st & Hst & _ & _ & H95 & H99).
  assert (Hn : 1 <= n <= 1000) by (unfold n; lia).
  split; [| split; [| split]].
  - exists st. repeat split; auto using int_mul_float_0_95, int_mul_float_0_99.
  - apply sorted_ascending.
  - apply sorted_perm.
  - eexists. split; [vm_compute; reflexivity |].
    split; vm_compute; reflexivity.
Qed.

Lemma get_stats_floor_percentiles_witness :
  let n := Z.of_nat (length (map snd fixture_1_100)) in
  (exists st,
      PerformanceMonitor.get_stats "op" (recorded fixture_1_100) = Ok (Some st)
      /\ PerformanceMonitor.int_mul_float n PerformanceMonitor.float_0_95
         = Ok (n * 95 / 100)
      /\ PerformanceMonitor.int_mul_float n PerformanceMonitor.float_0_99
         = Ok (n * 99 / 100)
      /\ nth_error (PerformanceMonitor.sorted (map snd fixture_1_100))
                   (Z.to_nat (n * 95 / 100))
         = Some (PerformanceMonitor.p95 st)
      /\ nth_error (PerformanceMonitor.sorted (map snd fixture_1_100))
                   (Z.to_nat (n * 99 / 100))
         = Some (PerformanceMonitor.p99 st))
  /\ Sorted Qle (PerformanceMonitor.sorted (map snd fixture_1_100))
  /\ Permutation (map snd fixture_1_100)
                 (PerformanceMonitor.sorted (map snd fixture_1_100))
  /\ (exists st,
         PerformanceMonitor.get_stats "op" (recorded fixture_1_100)
         = Ok (Some st)
         /\ nth_error (PerformanceMonitor.sorted (map snd fixture_1_100)) 95
            = Some (PerformanceMonitor.p95 st)
         /\ PerformanceMonitor.p95 st = 96%Q).
Proof.
  apply (get_stats_floor_percentiles fixture_1_100 "op"
           (map snd fixture_1_100)).
  vm_compute. reflexivity.
Defined.

(** C9: [get_stats] returns the empty result for an operation without a
    series or with an empty one; for a recorded series of [n] samples the
    indices [n // 2], [int(n * 0.95)] and [int(n * 0.99)] are defined and
    lie in [0, n); and [get_stats] returns for every operation name. *)
Theorem get_stats_total (trace : list (string * Q)) (operation : string) :
  (forall metrics : gmap string (list Q),
      metrics !! operation = None \/ metrics !! operation = Some [] ->
      PerformanceMonitor.get_stats operation metrics = Ok None) /\
  (forall ts,
      recorded trace !! operation = Some ts ->
      let n := Z.of_nat (length ts) in
      exists i95 i99,
        PerformanceMonitor.int_mul_float n PerformanceMonitor.float_0_95
          = Ok i95 /\
        PerformanceMonitor.int_mul_float n PerformanceMonitor.float_0_99
          = Ok i99 /\
        0 <= n / 2 < n /\ 0 <= i95 < n /\ 0 <= i99 < n) /\
  (exists r, PerformanceMonitor.get_stats operation (recorded trace) = Ok r).
Proof.
  split; [| split].
  - intros metrics [H | H]; unfold PerformanceMonitor.get_stats;
      rewrite H; reflexivity.
  - intros ts Hts n.
    pose proof (windowed_recorded trace operation ts Hts) as Hlen.
    assert (Hn : 1 <= n <= 1000) by (unfold n; lia).
    exists (n * 95 / 100), (n * 99 / 100).
    split; [apply int_mul_float_0_95; exact Hn |].
    split; [apply int_mul_float_0_99; exact Hn |].
    repeat split; try (apply Z.div_pos; lia).
    + apply Z.div_lt; lia.
    + apply Z.div_lt_upper_bound; lia.
    + apply Z.div_lt_upper_bound; lia.
  - destruct (recorded trace !! operation) as [ts |] eqn:Hts.
    + pose proof (windowed_recorded trace operation ts Hts) as Hlen.
      destruct (get_stats_windowed operation (recorded trace) ts Hts Hlen)
        as (st & Hst & _).
      eauto.
    + exists None. unfold PerformanceMonitor.get_stats. rewrite Hts.
      reflexivity.
Qed.

Lemma get_stats_total_witness :
  PerformanceMonitor.get_stats "never recorded" (recorded fixture_1_100)
    = Ok None /\
  exists i95 i99,
    PerformanceMonitor.int_mul_float 100 PerformanceMonitor.float_0_95
      = Ok i95 /\
    PerformanceMonitor.int_mul_float 100 PerformanceMonitor.float_0_99
      = Ok i99 /\
    0 <= 100 / 2 < 100 /\ 0 <= i95 < 100 /\ 0 <= i99 < 100.
Proof.
  split.
  - apply (proj1 (get_stats_total fixture_1_100 "never recorded")).
    left. vm_compute. reflexivity.
  - apply (proj1 (proj2 (get_stats_total fixture_1_100 "op"))
             (map snd fixture_1_100)).
    vm_compute. reflexivity.
Defined.

(** ** Bridge request *)

Section Bridge.

Import PreToolUseHook.

Variable env : Env.
Variable timeout : Binary64.float.

Lemma returns_ret {A} (a : A) (P : A -> Prop) : P a -> returns (mret a) P.
Proof. intros H g. exists a, g. split; [reflexivity | exact H]. Qed.

Lemma returns_bind {A B} (m : G A) (k : A -> G B) P Q :
  returns m P -> (forall a, P a -> returns (k a) Q) -> returns (a ← m; k a) Q.
Proof.
  intros Hm Hk g. destruct (Hm g) as (a & g1 & E & Ha).
  destruct (Hk a Ha g1) as (b & g2 & E2 & Hb).
  exists b, g2. split; [| exact Hb].
  unfold mbind, G_bind, bind. rewrite E. exact E2.
Qed.

Lemma returns_weaken {A} (m : G A) (P Q : A -> Prop) :
  returns m P -> (forall a, P a -> Q a) -> returns m Q.
Proof.
  intros Hm H g. destruct (Hm g) as (a & g1 & E & Ha). eauto.
Qed.

Lemma returns_lift {A} (r : res A) (a : A) (P : A -> Prop) :
  r = Ok a -> P a -> returns (lift r) P.
Proof. intros -> H g. exists a, g. split; [reflexivity | exact H]. Qed.

Lemma set_total {V} key (value : V) now (c : LRUCache.t V) :
  exists c', LRUCache.set key value now c = Ok c'.
Proof.
  unfold LRUCache.set, mem, LRUCache.move_to_end.
  destruct (assoc key (LRUCache.cache c)) as [v0 |];
    cbn [mbind res_bind Py.bind];
    match goal with
    | |- context [assoc_set ?k ?v ?d] =>
        destruct (assoc_set k v d) as [| e l] eqn:E
    end;
    try (destruct (_ >? _); simpl; eauto).
  - destruct (assoc_del key (LRUCache.cache c)) as [| [k' v'] d'];
      simpl in E; [rewrite String.eqb_refl in E; discriminate E |].
    destruct (String.eqb key k'); discriminate E.
  - destruct (LRUCache.cache c) as [| [k' v'] d']; simpl in E;
      [discriminate E |].
    destruct (String.eqb key k'); discriminate E.
Qed.

Lemma read_time_returns : returns (read_time env) (fun _ => True).
Proof. intros g. unfold read_time. eauto. Qed.

Lemma read_perf_counter_returns :
  returns (read_perf_counter env) (fun _ => True).
Proof. intros g. unfold read_perf_counter. eauto. Qed.

Lemma record_timing_returns operation duration_ms :
  returns (record_timing operation duration_ms) (fun _ => True).
Proof. intros g. unfold record_timing. eauto. Qed.

Lemma cache_get_at_returns key now :
  returns (cache_get_at key now) (fun _ => True).
Proof.
  intros g. unfold cache_get_at. rewrite get_cases.
  destruct (assoc key (LRUCache.cache (cache g))) as [[v t] |];
    [destruct (LRUCache.live _ _ _) |]; eauto.
Qed.

Lemma cache_get_returns key : returns (cache_get env key) (fun _ => True).
Proof.
  intros g. unfold cache_get.
  destruct (mem key (LRUCache.cache (cache g))).
  - apply (returns_bind _ _ _ _ read_time_returns). intros now _.
    apply cache_get_at_returns.
  - apply cache_get_at_returns.
Qed.

Lemma cache_set_returns key value :
  returns (cache_set env key value) (fun _ => True).
Proof.
  apply (returns_bind _ _ _ _ read_time_returns). intros now _ g.
  unfold cache_set_at.
  destruct (set_total key value now (cache g)) as [c' ->]. eauto.
Qed.

Lemma timed_operation_returns {A} name (func : G A) P :
  returns func P -> returns (timed_operation env name func) P.
Proof.
  intros Hf.
  apply (returns_bind _ _ _ _ read_perf_counter_returns). intros start _ g.
  unfold finally. destruct (Hf g) as (a & g1 & -> & Ha).
  assert (Hrec : returns
            (stop ← read_perf_counter env;
             record_timing name (milliseconds_between start stop))
            (fun _ => True)).
  { apply (returns_bind _ _ _ _ read_perf_counter_returns). intros stop _.
    apply record_timing_returns. }
  destruct (Hrec g1) as (u & g2 & -> & _). eauto.
Qed.

Lemma cached_operation_returns cache_key func :
  returns func (fun _ => True) ->
  returns (cached_operation env cache_key func) (fun _ => True).
Proof.
  intros Hf.
  apply (returns_bind _ _ _ _ (cache_get_returns cache_key)).
  intros cached_result _.
  assert (Hmiss : returns
            (result ← func; _ ← cache_set env cache_key result; mret result)
            (fun _ => True)).
  { apply (returns_bind _ _ _ _ Hf). intros result _.
    apply (returns_bind _ _ _ _ (cache_set_returns cache_key result)).
    intros _ _. apply returns_ret. exact I. }
  destruct cached_result as [[] |]; try exact Hmiss;
    apply returns_ret; exact I.
Qed.

Lemma optimize_mcp_routing_returns tool_name :
  returns (optimize_mcp_routing env tool_name (PDict [])) (fun _ => True).
Proof.
  unfold optimize_mcp_routing.
  apply (returns_bind _ _ (fun _ => True)).
  - eapply returns_lift; [reflexivity | exact I].
  - intros cache_key _. apply cached_operation_returns.
    apply timed_operation_returns. apply returns_ret. exact I.
Qed.

Lemma select_fallback_route_returns tool_name :
  returns (select_fallback_route env tool_name) (fun _ => True).
Proof.
  apply cached_operation_returns.
  apply (returns_bind _ _ _ _ (optimize_mcp_routing_returns tool_name)).
  intros optimized_route _.
  destruct (truthy optimized_route); [apply returns_ret; exact I |].
  destruct (mcp_server_route tool_name); apply returns_ret; exact I.
Qed.

Lemma create_fallback_response_returns context :
  returns (create_fallback_response env context) (is_bridge_fallback context).
Proof.
  apply (returns_bind _ _ _ _
           (select_fallback_route_returns (toolName context))).
  intros mcpRoute _. apply returns_ret. exists mcpRoute. reflexivity.
Qed.

End Bridge.

Section BridgeFailure.

Import PreToolUseHook.

Variable env : Env.
Variable timeout : Binary64.float.

Lemma timed_operation_outcome {A} name (func : G A) g :
  fst (timed_operation env name func g)
  = fst (func (snd (read_perf_counter env g))).
Proof.
  unfold timed_operation, mbind, G_bind, bind, finally, read_perf_counter,
    record_timing.
  simpl. destruct (func _) as [r g1]. reflexivity.
Qed.

Lemma bridge_lookup_returns context :
  json_serializable (toolArgs context) = true ->
  json_serializable (persona context) = true ->
  returns (bridge_lookup env context) (fun _ => True).
Proof.
  intros Hargs Hpersona. unfold bridge_lookup.
  destruct (should_use_cache (toolName context));
    [| apply returns_ret; exact I].
  apply (returns_bind _ _ (fun _ => True)).
  - eapply returns_lift; [| exact I].
    unfold generate_cache_key, json_dumps. simpl.
    rewrite Hargs, Hpersona. reflexivity.
  - intros cache_key _.
    apply (returns_bind _ _ _ _ (cache_get_returns env cache_key)).
    intros cached_result _. apply returns_ret. exact I.
Qed.

Lemma bridge_request_guarded_failure context cache_key e :
  post env = Raise e ->
  returns (bridge_request_guarded env timeout context cache_key)
          (is_bridge_fallback context).
Proof.
  intros Hpost g. unfold bridge_request_guarded, bridge_request.
  unfold mbind at 1, G_bind at 1, bind at 1, read_perf_counter at 1.
  unfold mbind at 1, G_bind at 1, bind at 1, lift at 1.
  rewrite Hpost.
  destruct (exc_cls e); apply (create_fallback_response_returns env context).
Qed.

End BridgeFailure.

(** X29: When the request to the bridge raises, a timeout included,
    [route_to_bridge] returns: either a cached decision, found before any
    request was made, or the fallback response, whose "allow" is [True]. *)
Lemma route_to_bridge_request_failure
    (env : PreToolUseHook.Env) (timeout : Binary64.float)
    (context : PreToolUseHook.Context) (e : exc) (g : PreToolUseHook.Globals) :
  json_serializable (PreToolUseHook.toolArgs context) = true ->
  json_serializable (PreToolUseHook.persona context) = true ->
  PreToolUseHook.post env = Raise e ->
  exists response,
    fst (PreToolUseHook.route_to_bridge env timeout context g) = Ok response /\
    ((exists cache_key g1,
         PreToolUseHook.bridge_lookup env context
           (snd (PreToolUseHook.read_perf_counter env g))
         = (Ok (Some cache_key, Some response), g1) /\
         PreToolUseHook.truthy response = true) \/
     is_bridge_fallback context response).
Proof.
  intros Hargs Hpersona Hpost.
  unfold PreToolUseHook.route_to_bridge.
  rewrite timed_operation_outcome.
  set (g0 := snd (PreToolUseHook.read_perf_counter env g)).
  destruct (bridge_lookup_returns env context Hargs Hpersona g0)
    as ([cache_key cached_result] & g1 & Hlookup & _).
  unfold mbind at 1, PreToolUseHook.G_bind at 1, PreToolUseHook.bind at 1.
  rewrite Hlookup.
  pose proof (bridge_request_guarded_failure env timeout context cache_key e
                Hpost g1) as (response & g2 & Hreq & Hfallback).
  destruct cached_result as [cached_result |].
  - destruct (PreToolUseHook.truthy cached_result) eqn:Htruthy.
    + exists cached_result. split; [reflexivity |]. left.
      unfold PreToolUseHook.bridge_lookup in Hlookup.
      destruct (PreToolUseHook.should_use_cache _).
      * destruct cache_key as [cache_key |]; [eauto |].
        exfalso. revert Hlookup.
        unfold mbind, PreToolUseHook.G_bind, PreToolUseHook.bind.
        destruct (PreToolUseHook.lift _ g0) as [[k |] g'];
          [| discriminate].
        destruct (PreToolUseHook.cache_get env k g') as [[r |] g''];
          discriminate.
      * discriminate Hlookup.
    + rewrite Hreq. exists response. split; [reflexivity |]. right.
      exact Hfallback.
  - rewrite Hreq. exists response. split; [reflexivity |]. right.
    exact Hfallback.
Qed.

Example route_to_bridge_timeout_grep :
  fst (PreToolUseHook.route_to_bridge bridge_down timeout_100ms
         {| PreToolUseHook.toolName := "Grep";
            PreToolUseHook.toolArgs := PDict [("pattern", PStr "TODO")];
            PreToolUseHook.persona := PNone |}
         new_globals)
  = Ok (PDict
          [ ("allow", PBool true);
            ("modifiedArgs", PDict [("pattern", PStr "TODO")]);
            ("metadata",
             PDict [ ("fallback", PBool true);
                     ("reason", PStr "Bridge service unavailable");
                     ("mcpRoute", PStr "superclaude-code") ]) ]).
Proof. vm_compute. reflexivity. Qed.

(** ** Cache: round trip, expiry, counters *)

Lemma mem_true_keys {A} k (d : list (string * A)) :
  In k (map fst d) -> mem k d = true.
Proof.
  intros H. destruct (mem k d) eqn:E; [reflexivity |].
  apply mem_false_keys in E. contradiction.
Qed.

Lemma assoc_del_snoc_other {A} k k' (v : A) d :
  k' <> k -> assoc_del k' (d ++ [(k, v)]) = (assoc_del k' d ++ [(k, v)])%list.
Proof.
  intros Hne. induction d as [| [k0 v0] d IH]; simpl.
  - destruct (String.eqb_spec k' k); [contradiction | reflexivity].
  - destruct (String.eqb k' k0); [reflexivity |]. rewrite IH. reflexivity.
Qed.

Lemma run_app {V} (ops1 ops2 : list (CacheRun.op V)) x :
  CacheRun.run (ops1 ++ ops2) x
  = (x1 ← CacheRun.run ops1 x; CacheRun.run ops2 x1).
Proof.
  revert x. induction ops1 as [| o ops1 IH]; simpl; intros x; [reflexivity |].
  destruct (CacheRun.step o x) as [x1 |]; simpl; [apply IH | reflexivity].
Qed.

Lemma run_snoc {V} (ops : list (CacheRun.op V)) o x x0 x1 :
  CacheRun.run ops x = Ok x0 -> CacheRun.step o x0 = Ok x1 ->
  CacheRun.run (ops ++ [o]) x = Ok x1.
Proof.
  intros H0 H1. rewrite run_app, H0.
  cbn [mbind res_bind Py.bind CacheRun.run]. rewrite H1. reflexivity.
Qed.

(** What a [set] at time [t] followed by a [get] at time [t'] does on a
    cache that satisfies the invariant. *)
Lemma set_then_get {V} mx (x : CacheRun.traced V) key value t t' :
  1 <= mx -> cache_inv mx x ->
  exists x1,
    CacheRun.step (CacheRun.OpSet key value t) x = Ok x1 /\
    cache_inv mx x1 /\
    LRUCache.ttl_seconds (CacheRun.state x1)
      = LRUCache.ttl_seconds (CacheRun.state x) /\
    LRUCache.get key t' (CacheRun.state x1) =
      Ok (if LRUCache.live t' t (LRUCache.ttl_seconds (CacheRun.state x))
          then
            (Some value,
             {| LRUCache.max_size := LRUCache.max_size (CacheRun.state x1);
                LRUCache.ttl_seconds :=
                  LRUCache.ttl_seconds (CacheRun.state x1);
                LRUCache.cache :=
                  (assoc_del key (LRUCache.cache (CacheRun.state x1))
                   ++ [(key, (value, t))])%list;
                LRUCache.hits := LRUCache.hits (CacheRun.state x1) + 1;
                LRUCache.misses := LRUCache.misses (CacheRun.state x1) |})
          else
            (None,
             {| LRUCache.max_size := LRUCache.max_size (CacheRun.state x1);
                LRUCache.ttl_seconds :=
                  LRUCache.ttl_seconds (CacheRun.state x1);
                LRUCache.cache :=
                  assoc_del key (LRUCache.cache (CacheRun.state x1));
                LRUCache.hits := LRUCache.hits (CacheRun.state x1);
                LRUCache.misses :=
                  LRUCache.misses (CacheRun.state x1) + 1 |})).
Proof.
  intros Hcap Hinv. assert (Hmx : 0 <= mx) by lia.
  destruct (step_inv mx Hmx (CacheRun.OpSet key value t) x Hinv)
    as (x1 & Hstep & Hinv1).
  exists x1. split; [exact Hstep |]. split; [exact Hinv1 |].
  unfold CacheRun.step in Hstep.
  destruct (LRUCache.set key value t (CacheRun.state x)) as [c1 |] eqn:Hset;
    [| discriminate Hstep].
  injection Hstep as <-. simpl.
  destruct Hinv as [Hmax _ Horder _]. unfold CacheRun.keys in Horder.
  assert (Hcap1 : 1 <= LRUCache.max_size (CacheRun.state x)) by lia.
  destruct (set_binds _ key value t _ c1 Hcap1 Horder Hset)
    as (Hbound & _ & Httl1 & _).
  split; [exact Httl1 |].
  rewrite get_cases, Hbound, Httl1. reflexivity.
Qed.

(** The literals of the examples are the floats of Python. *)
Example clock_literals :
  Binary64.int_truediv 2 10 = Ok float_0_2 /\
  Binary64.int_truediv 3002 10 = Ok float_300_2 /\
  Binary64.of_int 300 = float_300 /\
  Binary64.int_truediv 100 1000 = Ok timeout_100ms.
Proof. repeat split; reflexivity. Qed.

(** The test of the cache, [t' - t < ttl_seconds], on two finite
    readings and a ttl of magnitude at most [2^53]: it fails when the
    readings stand for numbers that are [ttl_seconds] or more apart, and
    succeeds when they are [ttl_seconds - 1] or less apart.  In between,
    the rounding of the difference decides ([age_is_rounded]). *)
Lemma expired_of_exact_age t t' a a' ttl_seconds :
  Binary64.value t = Some a -> Binary64.value t' = Some a' ->
  - 2 ^ 53 < ttl_seconds <= 2 ^ 53 ->
  (inject_Z ttl_seconds <= a' - a)%Q ->
  LRUCache.live t' t ttl_seconds = false.
Proof.
  intros Ht Ht' Httl Hage. unfold LRUCache.live.
  exact (sub_not_below t' t a' a ttl_seconds Ht' Ht Httl Hage).
Qed.

Lemma live_of_exact_age t t' a a' ttl_seconds :
  Binary64.value t = Some a -> Binary64.value t' = Some a' ->
  - 2 ^ 53 < ttl_seconds <= 2 ^ 53 ->
  (a' - a <= inject_Z (ttl_seconds - 1))%Q ->
  LRUCache.live t' t ttl_seconds = true.
Proof.
  intros Ht Ht' Httl Hage. unfold LRUCache.live.
  exact (sub_below t' t a' a ttl_seconds Ht' Ht Httl Hage).
Qed.

(** X1: Round trip: on a cache of capacity at least 1, after any sequence of
    calls followed by [set(key, value)] at time [t], a [get(key)] at a
    time [t'] for which the test of the code, [t' - t < ttl_seconds] with
    the difference rounded to a float, succeeds returns [value], counts
    one hit and no miss, and leaves the entry in place with its insertion
    time.  The test succeeds, in particular, when the two readings are
    finite and stand for numbers at most [ttl_seconds - 1] apart, for a
    ttl of magnitude at most [2^53]. *)
Theorem cache_set_get_round_trip
    (V : Type) (max_size ttl_seconds : Z) (ops : list (CacheRun.op V))
    (key : string) (value : V) (t t' : Binary64.float)
    (Hcapacity : 1 <= max_size)
    (Hfresh :
       LRUCache.live t' t ttl_seconds = true \/
       exists a a',
         Binary64.value t = Some a /\ Binary64.value t' = Some a' /\
         - 2 ^ 53 < ttl_seconds <= 2 ^ 53 /\
         (a' - a <= inject_Z (ttl_seconds - 1))%Q) :
  exists x c,
    CacheRun.run (ops ++ [CacheRun.OpSet key value t])
                 (CacheRun.start max_size ttl_seconds) = Ok x /\
    LRUCache.get key t' (CacheRun.state x) = Ok (Some value, c) /\
    LRUCache.hits c = LRUCache.hits (CacheRun.state x) + 1 /\
    LRUCache.misses c = LRUCache.misses (CacheRun.state x) /\
    assoc key (LRUCache.cache c) = Some (value, t).
Proof.
  assert (Hmx : 0 <= max_size) by lia.
  destruct (run_inv max_size Hmx ops _ (inv_start max_size Hmx ttl_seconds))
    as (x0 & Hrun0 & Hinv0).
  destruct (start_facts max_size ttl_seconds ops x0 Hmx Hrun0)
    as (_ & Httl0 & _).
  destruct (set_then_get max_size x0 key value t t' Hcapacity Hinv0)
    as (x1 & Hstep & [_ _ Horder1 _] & _ & Hget).
  assert (Hlive : LRUCache.live t' t ttl_seconds = true).
  { destruct Hfresh as [H | (a & a' & Ht & Ht' & Httl & Hage)];
      [exact H |].
    exact (live_of_exact_age t t' a a' ttl_seconds Ht Ht' Httl Hage). }
  rewrite Httl0, Hlive in Hget.
  exists x1. eexists. split; [| split; [exact Hget |]].
  - exact (run_snoc _ _ _ _ _ Hrun0 Hstep).
  - simpl. repeat split.
    rewrite assoc_app_absent.
    + simpl. rewrite String.eqb_refl. reflexivity.
    + apply assoc_None_keys.
      eapply recency_ordered_del_not_in. exact Horder1.
Qed.

Lemma cache_set_get_round_trip_witness :
  (exists x c,
     CacheRun.run (abca ++ [CacheRun.OpSet "d" 4 float_0_2])
                  (CacheRun.start 2 300) = Ok x /\
     LRUCache.get "d" float_300 (CacheRun.state x) = Ok (Some 4, c) /\
     LRUCache.hits c = LRUCache.hits (CacheRun.state x) + 1 /\
     LRUCache.misses c = LRUCache.misses (CacheRun.state x) /\
     assoc "d" (LRUCache.cache c) = Some (4, float_0_2)) /\
  (exists x c,
     CacheRun.run (abca ++ [CacheRun.OpSet "d" 4 (Binary64.of_int 4)])
                  (CacheRun.start 2 300) = Ok x /\
     LRUCache.get "d" (Binary64.of_int 303) (CacheRun.state x)
       = Ok (Some 4, c) /\
     LRUCache.hits c = LRUCache.hits (CacheRun.state x) + 1 /\
     LRUCache.misses c = LRUCache.misses (CacheRun.state x) /\
     assoc "d" (LRUCache.cache c) = Some (4, Binary64.of_int 4)).
Proof.
  split.
  - apply (cache_set_get_round_trip Z 2 300 abca "d" 4 float_0_2 float_300).
    + lia.
    + left. reflexivity.
  - apply (cache_set_get_round_trip Z 2 300 abca "d" 4 (Binary64.of_int 4)
             (Binary64.of_int 303)).
    + lia.
    + right. eexists. eexists.
      split; [reflexivity |]. split; [reflexivity |].
      split; [split; [reflexivity | vm_compute; discriminate] |].
      vm_compute. discriminate.
Defined.

(** The age of an entry is the rounded difference of two readings: an
    entry stored at 0.2 and looked up at 300.2 has expired for a ttl of
    300 ([300.2 - 0.2] is 300.0), although the two floats stand for
    numbers that are less than 300 apart. *)
Example age_is_rounded :
  LRUCache.live float_300_2 float_0_2 300 = false /\
  Binary64.sub float_300_2 float_0_2 = Binary64.of_int 300 /\
  exists a b,
    Binary64.value float_300_2 = Some a /\
    Binary64.value float_0_2 = Some b /\
    (a - b < 300)%Q.
Proof.
  split; [reflexivity |]. split; [reflexivity |].
  eexists. eexists. split; [reflexivity |]. split; [reflexivity |].
  vm_compute. reflexivity.
Qed.

(** X2: Expiry: on a cache of capacity at least 1, after any sequence of
    calls followed by [set(key, value)] at time [t], a [get(key)] at a
    time [t'] with [t' - t >= ttl_seconds] returns nothing, counts one
    miss and no hit, and deletes the entry: this holds whenever the test
    of the code, [t' - t < ttl_seconds] with the difference rounded to a
    float, fails, and the test fails whenever the two readings are finite
    and stand for numbers that are [ttl_seconds] or more apart, for a ttl
    of magnitude at most [2^53]. *)
Theorem cache_entry_expires
    (V : Type) (max_size ttl_seconds : Z) (ops : list (CacheRun.op V))
    (key : string) (value : V) (t t' : Binary64.float)
    (Hcapacity : 1 <= max_size)
    (Hstale :
       LRUCache.live t' t ttl_seconds = false \/
       exists a a',
         Binary64.value t = Some a /\ Binary64.value t' = Some a' /\
         - 2 ^ 53 < ttl_seconds <= 2 ^ 53 /\
         (inject_Z ttl_seconds <= a' - a)%Q) :
  exists x c,
    CacheRun.run (ops ++ [CacheRun.OpSet key value t])
                 (CacheRun.start max_size ttl_seconds) = Ok x /\
    LRUCache.get key t' (CacheRun.state x) = Ok (None, c) /\
    LRUCache.hits c = LRUCache.hits (CacheRun.state x) /\
    LRUCache.misses c = LRUCache.misses (CacheRun.state x) + 1 /\
    mem key (LRUCache.cache c) = false /\
    (length (LRUCache.cache c)
     = pred (length (LRUCache.cache (CacheRun.state x))))%nat.
Proof.
  assert (Hmx : 0 <= max_size) by lia.
  destruct (run_inv max_size Hmx ops _ (inv_start max_size Hmx ttl_seconds))
    as (x0 & Hrun0 & Hinv0).
  destruct (start_facts max_size ttl_seconds ops x0 Hmx Hrun0)
    as (_ & Httl0 & _).
  destruct (set_then_get max_size x0 key value t t' Hcapacity Hinv0)
    as (x1 & Hstep & [_ _ Horder1 _] & _ & Hget).
  assert (Hexp : LRUCache.live t' t ttl_seconds = false).
  { destruct Hstale as [H | (a & a' & Ht & Ht' & Httl & Hage)];
      [exact H |].
    exact (expired_of_exact_age t t' a a' ttl_seconds Ht Ht' Httl Hage). }
  rewrite Httl0, Hexp in Hget.
  exists x1. eexists. split; [| split; [exact Hget |]].
  - exact (run_snoc _ _ _ _ _ Hrun0 Hstep).
  - simpl. repeat split.
    + apply mem_false_keys.
      eapply recency_ordered_del_not_in. exact Horder1.
    + rewrite assoc_del_length.
      unfold CacheRun.step in Hstep.
      destruct (LRUCache.set key value t (CacheRun.state x0)) as [c1 |] eqn:Hset;
        [| discriminate Hstep].
      injection Hstep as <-. simpl.
      destruct Hinv0 as [Hmax0 _ Horder0 _]. unfold CacheRun.keys in Horder0.
      assert (Hcap1 : 1 <= LRUCache.max_size (CacheRun.state x0)) by lia.
      destruct (set_binds _ key value t _ c1 Hcap1 Horder0 Hset)
        as (Hbound & _).
      unfold mem. rewrite Hbound. reflexivity.
Qed.

Lemma cache_entry_expires_witness :
  (exists x c,
     CacheRun.run (abca ++ [CacheRun.OpSet "d" 4 float_0_2])
                  (CacheRun.start 2 300) = Ok x /\
     LRUCache.get "d" float_300_2 (CacheRun.state x) = Ok (None, c) /\
     LRUCache.hits c = LRUCache.hits (CacheRun.state x) /\
     LRUCache.misses c = LRUCache.misses (CacheRun.state x) + 1 /\
     mem "d" (LRUCache.cache c) = false /\
     (length (LRUCache.cache c)
      = pred (length (LRUCache.cache (CacheRun.state x))))%nat) /\
  (exists x c,
     CacheRun.run (abca ++ [CacheRun.OpSet "d" 4 (Binary64.of_int 4)])
                  (CacheRun.start 2 300) = Ok x /\
     LRUCache.get "d" (Binary64.of_int 304) (CacheRun.state x)
       = Ok (None, c) /\
     LRUCache.hits c = LRUCache.hits (CacheRun.state x) /\
     LRUCache.misses c = LRUCache.misses (CacheRun.state x) + 1 /\
     mem "d" (LRUCache.cache c) = false /\
     (length (LRUCache.cache c)
      = pred (length (LRUCache.cache (CacheRun.state x))))%nat).
Proof.
  split.
  - apply (cache_entry_expires Z 2 300 abca "d" 4 float_0_2 float_300_2).
    + lia.
    + left. reflexivity.
  - apply (cache_entry_expires Z 2 300 abca "d" 4 (Binary64.of_int 4)
             (Binary64.of_int 304)).
    + lia.
    + right. eexists. eexists.
      split; [reflexivity |]. split; [reflexivity |].
      split; [split; [reflexivity | vm_compute; discriminate] |].
      vm_compute. discriminate.
Defined.

(** X3: Counters: after any sequence of calls on a new cache, hits + misses
    is the number of [get] calls ([set] counts nothing), both counters are
    non-negative, and [get_stats] returns a hit rate that lies between 0
    and 100. *)
Theorem cache_counters_count_gets
    (V : Type) (max_size ttl_seconds : Z) (ops : list (CacheRun.op V))
    (Hcapacity : 0 <= max_size) :
  exists x s rate,
    CacheRun.run ops (CacheRun.start max_size ttl_seconds) = Ok x /\
    LRUCache.hits (CacheRun.state x) + LRUCache.misses (CacheRun.state x)
      = count_gets ops /\
    0 <= LRUCache.hits (CacheRun.state x) /\
    0 <= LRUCache.misses (CacheRun.state x) /\
    LRUCache.get_stats (CacheRun.state x) = Ok s /\
    LRUCache.stats_hits s = LRUCache.hits (CacheRun.state x) /\
    LRUCache.stats_misses s = LRUCache.misses (CacheRun.state x) /\
    Binary64.number_value (LRUCache.stats_hit_rate s) = Some rate /\
    (0 <= rate <= 100)%Q.
Proof.
  destruct (run_inv max_size Hcapacity ops _
              (inv_start max_size Hcapacity ttl_seconds))
    as (x & Hrun & _).
  destruct (start_facts max_size ttl_seconds ops x Hcapacity Hrun)
    as (_ & _ & Hsum & Hh & Hm).
  destruct (hit_rate_bounds (CacheRun.state x) Hh Hm)
    as (s & rate & Hs & Hrate & Hbound).
  exists x, s, rate. repeat split; try assumption; try apply Hbound.
  - unfold LRUCache.get_stats in Hs.
    destruct (if _ >? 0 then _ else _) as [r |]; [| discriminate Hs].
    injection Hs as <-. reflexivity.
  - unfold LRUCache.get_stats in Hs.
    destruct (if _ >? 0 then _ else _) as [r |]; [| discriminate Hs].
    injection Hs as <-. reflexivity.
Qed.

Lemma cache_counters_count_gets_witness :
  exists x s rate,
    CacheRun.run abca (CacheRun.start 2 300) = Ok x /\
    LRUCache.hits (CacheRun.state x) + LRUCache.misses (CacheRun.state x)
      = count_gets abca /\
    0 <= LRUCache.hits (CacheRun.state x) /\
    0 <= LRUCache.misses (CacheRun.state x) /\
    LRUCache.get_stats (CacheRun.state x) = Ok s /\
    LRUCache.stats_hits s = LRUCache.hits (CacheRun.state x) /\
    LRUCache.stats_misses s = LRUCache.misses (CacheRun.state x) /\
    Binary64.number_value (LRUCache.stats_hit_rate s) = Some rate /\
    (0 <= rate <= 100)%Q.
Proof. apply (cache_counters_count_gets Z 2 300 abca). lia. Defined.

(** X4: A hit protects from the next eviction: on a cache of capacity at
    least 2, after a [get(key)] that returned a value, a [set] of any
    other key leaves [key] in the cache, bound to the value that the
    [get] returned and to its insertion time. *)
Theorem cache_hit_protects_from_eviction
    (V : Type) (max_size ttl_seconds : Z) (ops : list (CacheRun.op V))
    (x : CacheRun.traced V) (key key' : string) (value value' : V)
    (t t' : Binary64.float) (c1 : LRUCache.t V)
    (Hcapacity : 2 <= max_size)
    (Hrun : CacheRun.run ops (CacheRun.start max_size ttl_seconds) = Ok x)
    (Hhit : LRUCache.get key t (CacheRun.state x) = Ok (Some value, c1))
    (Hother : key' <> key) :
  exists c2 timestamp,
    LRUCache.set key' value' t' c1 = Ok c2 /\
    assoc key (LRUCache.cache (CacheRun.state x)) = Some (value, timestamp) /\
    assoc key (LRUCache.cache c2) = Some (value, timestamp) /\
    assoc key' (LRUCache.cache c2) = Some (value', t').
Proof.
  assert (Hmx : 0 <= max_size) by lia.
  destruct (start_facts max_size ttl_seconds ops x Hmx Hrun) as (Hinv & _).
  destruct (step_inv max_size Hmx (CacheRun.OpGet key t) x Hinv)
    as (x1 & Hstep & [Hmax1 _ Horder1 _]).
  destruct Hinv as [_ _ Horder _]. unfold CacheRun.keys in Horder.
  unfold CacheRun.step in Hstep. rewrite Hhit in Hstep.
  injection Hstep as <-. unfold CacheRun.keys in Horder1. simpl in *.
  rewrite (set_promoted _ _ _ _ _ Horder1).
  rewrite get_cases in Hhit.
  destruct (assoc key (LRUCache.cache (CacheRun.state x)))
    as [[value0 timestamp] |]; [| discriminate Hhit].
  destruct (LRUCache.live _ _ _); [| discriminate Hhit].
  injection Hhit as <- <-.
  eexists. exists timestamp. split; [reflexivity |].
  split; [reflexivity |].
  simpl in Hmax1. simpl. unfold promoted. simpl. rewrite Hmax1.
  rewrite (assoc_del_snoc_other key key' _ _ Hother).
  set (d := assoc_del key' (assoc_del key (LRUCache.cache (CacheRun.state x)))).
  assert (Hd : assoc key d = None).
  { apply assoc_None_keys. intros Hin.
    apply assoc_del_keys_incl in Hin.
    revert Hin. eapply recency_ordered_del_not_in. exact Horder. }
  assert (Hd' : assoc key' d = None).
  { apply assoc_None_keys.
    eapply recency_ordered_del_not_in. apply recency_ordered_del.
    exact Horder. }
  assert (Hkey : forall d0, assoc key d0 = None -> assoc key' d0 = None ->
            assoc key ((d0 ++ [(key, (value0, timestamp))])
                       ++ [(key', (value', t'))]) = Some (value0, timestamp)
            /\ assoc key' ((d0 ++ [(key, (value0, timestamp))])
                           ++ [(key', (value', t'))]) = Some (value', t')).
  { intros d0 H0 H0'. rewrite <- !app_assoc.
    rewrite (assoc_app_absent key d0) by exact H0.
    rewrite (assoc_app_absent key' d0) by exact H0'. simpl.
    rewrite !String.eqb_refl.
    destruct (String.eqb_spec key' key) as [E | _]; [contradiction |].
    split; reflexivity. }
  destruct (Z.gtb_spec
              (Z.of_nat (length ((d ++ [(key, (value0, timestamp))])
                                 ++ [(key', (value', t'))])))
              max_size) as [Hgt | Hle].
  - destruct d as [| e d'] eqn:Ed; [simpl in Hgt; lia |].
    simpl. apply Hkey.
    + apply (assoc_tl_absent key (e :: d')). exact Hd.
    + apply (assoc_tl_absent key' (e :: d')). exact Hd'.
  - apply Hkey; assumption.
Qed.

Lemma cache_hit_protects_from_eviction_witness :
  exists c2 timestamp,
    LRUCache.set "c" 3 (Binary64.of_int 6)
      {| LRUCache.max_size := 2; LRUCache.ttl_seconds := 300;
         LRUCache.cache := [("b", (2, Binary64.of_int 1));
                            ("a", (1, Binary64.of_int 0))];
         LRUCache.hits := 1; LRUCache.misses := 0 |} = Ok c2 /\
    assoc "a" (LRUCache.cache (CacheRun.state two_entries))
      = Some (1, timestamp) /\
    assoc "a" (LRUCache.cache c2) = Some (1, timestamp) /\
    assoc "c" (LRUCache.cache c2) = Some (3, Binary64.of_int 6).
Proof.
  apply (cache_hit_protects_from_eviction Z 2 300
           [CacheRun.OpSet "a" 1 (Binary64.of_int 0);
            CacheRun.OpSet "b" 2 (Binary64.of_int 1)]
           two_entries "a" "c" 1 3 (Binary64.of_int 5) (Binary64.of_int 6)).
  - lia.
  - reflexivity.
  - reflexivity.
  - discriminate.
Defined.

(** ** Monitor: window and statistics *)

Section WindowContents.

Import PerformanceMonitor.

Lemma last_n_all {A} n (l : list A) :
  (length l <= n)%nat -> last_n n l = l.
Proof.
  intros H. unfold last_n. replace (length l - n)%nat with 0%nat by lia.
  reflexivity.
Qed.

Lemma last_n_snoc {A} n (l : list A) d :
  (1 <= n)%nat -> last_n n (last_n n l ++ [d]) = last_n n (l ++ [d]).
Proof.
  intros Hn. destruct (Nat.le_gt_cases (length l) n) as [Hle | Hgt].
  - rewrite (last_n_all n l Hle). reflexivity.
  - unfold last_n.
    set (k := (length l - n)%nat).
    assert (Hk : length (skipn k l) = n) by (rewrite length_skipn; lia).
    rewrite !length_app, Hk. simpl.
    replace (n + 1 - n)%nat with 1%nat by lia.
    replace (length l + 1 - n)%nat with (1 + k)%nat by lia.
    rewrite <- skipn_skipn. f_equal.
    rewrite skipn_app.
    replace (k - length l)%nat with 0%nat by lia.
    reflexivity.
Qed.

(** [record_timing] appends and keeps the last 1000. *)
Lemma record_timing_series {A} op (d : A) (metrics : gmap string (list A)) :
  record_timing op d metrics !! op
  = Some (last_n 1000 (default [] (metrics !! op) ++ [d])).
Proof.
  unfold record_timing. rewrite lookup_insert_eq. f_equal.
  destruct (Z.gtb_spec
              (Z.of_nat (length (default [] (metrics !! op) ++ [d]))) 1000)
    as [Hgt | Hle]; [reflexivity |].
  symmetry. apply last_n_all. lia.
Qed.

Lemma record_timing_other {A} op op' (d : A)
    (metrics : gmap string (list A)) :
  op <> op' -> record_timing op d metrics !! op' = metrics !! op'.
Proof. intros H. unfold record_timing. apply lookup_insert_ne. exact H. Qed.

Lemma recorded_snoc trace op d :
  recorded (trace ++ [(op, d)]) = record_timing op d (recorded trace).
Proof. unfold recorded. rewrite fold_left_app. reflexivity. Qed.

Lemma samples_of_snoc operation trace op d :
  samples_of operation (trace ++ [(op, d)])
  = (samples_of operation trace
     ++ if String.eqb op operation then [d] else [])%list.
Proof.
  induction trace as [| [op0 d0] trace IH]; simpl.
  - destruct (String.eqb op operation); reflexivity.
  - rewrite IH. destruct (String.eqb op0 operation); reflexivity.
Qed.

Lemma recorded_series operation trace :
  recorded trace !! operation =
    match samples_of operation trace with
    | [] => None
    | samples => Some (last_n 1000 samples)
    end.
Proof.
  induction trace as [| [op d] trace IH] using rev_ind.
  - reflexivity.
  - rewrite recorded_snoc, samples_of_snoc.
    destruct (String.eqb_spec op operation) as [-> | Hne].
    + rewrite record_timing_series, IH.
      destruct (samples_of operation trace) as [| s0 ss] eqn:E.
      * reflexivity.
      * cbn [default from_option id]. rewrite last_n_snoc by lia.
        destruct ((s0 :: ss) ++ [d])%list eqn:E2; [| reflexivity].
        destruct ss; discriminate E2.
    + rewrite record_timing_other by exact Hne. rewrite IH, app_nil_r.
      reflexivity.
Qed.

End WindowContents.

(** X5: The window: after any trace of [record_timing] calls on a new
    monitor, an operation that was never recorded has no series, and an
    operation that was recorded holds exactly its last 1000 samples (all
    of them when there are fewer), in the order of recording; samples of
    other operations do not count. *)
Theorem record_timing_keeps_last_1000
    (trace : list (string * Q)) (operation : string) :
  (samples_of operation trace = [] -> recorded trace !! operation = None) /\
  (samples_of operation trace <> [] ->
   recorded trace !! operation
   = Some (PerformanceMonitor.last_n 1000 (samples_of operation trace)) /\
   length (PerformanceMonitor.last_n 1000 (samples_of operation trace))
   = Nat.min 1000 (length (samples_of operation trace))).
Proof.
  rewrite recorded_series. split.
  - intros ->. reflexivity.
  - intros Hne. split.
    + destruct (samples_of operation trace); [contradiction | reflexivity].
    + unfold PerformanceMonitor.last_n. rewrite length_skipn. lia.
Qed.

Lemma record_timing_keeps_last_1000_witness :
  recorded samples_1500 !! "op"
  = Some (PerformanceMonitor.last_n 1000 (samples_of "op" samples_1500)) /\
  length (PerformanceMonitor.last_n 1000 (samples_of "op" samples_1500))
  = Nat.min 1000 (length (samples_of "op" samples_1500)).
Proof.
  apply (proj2 (record_timing_keeps_last_1000 samples_1500 "op")).
  vm_compute. discriminate.
Defined.

Section Statistics.

Import PerformanceMonitor.

Lemma Qlt_bool_false a b : Qlt_bool a b = false -> (b <= a)%Q.
Proof.
  unfold Qlt_bool. intros H. apply negb_false_iff in H.
  apply Qle_bool_iff. exact H.
Qed.

Lemma Qlt_bool_true a b : Qlt_bool a b = true -> (a <= b)%Q.
Proof.
  unfold Qlt_bool. intros H. apply negb_true_iff in H.
  apply Qlt_le_weak. apply Qnot_le_lt. intros Hle.
  apply Qle_bool_iff in Hle. congruence.
Qed.

Lemma list_min_spec x l :
  In (list_min x l) (x :: l) /\
  Forall (fun y => (list_min x l <= y)%Q) (x :: l).
Proof.
  unfold list_min. revert x.
  induction l as [| y l IH]; intros x; simpl.
  - split; [left; reflexivity |]. constructor; [apply Qle_refl | constructor].
  - destruct (Qlt_bool y x) eqn:E.
    + destruct (IH y) as [Hin Hall]. split; [simpl in Hin; tauto |].
      apply List.Forall_cons_iff in Hall as [Hy Hl].
      constructor; [| constructor; assumption].
      eapply Qle_trans; [exact Hy | apply Qlt_bool_true; exact E].
    + destruct (IH x) as [Hin Hall]. split; [simpl in Hin |- *; tauto |].
      apply List.Forall_cons_iff in Hall as [Hx Hl].
      constructor; [exact Hx |]. constructor; [| exact Hl].
      eapply Qle_trans; [exact Hx | apply Qlt_bool_false; exact E].
Qed.

Lemma list_max_spec x l :
  In (list_max x l) (x :: l) /\
  Forall (fun y => (y <= list_max x l)%Q) (x :: l).
Proof.
  unfold list_max. revert x.
  induction l as [| y l IH]; intros x; simpl.
  - split; [left; reflexivity |]. constructor; [apply Qle_refl | constructor].
  - destruct (Qlt_bool x y) eqn:E.
    + destruct (IH y) as [Hin Hall]. split; [simpl in Hin; tauto |].
      apply List.Forall_cons_iff in Hall as [Hy Hl].
      constructor; [| constructor; assumption].
      eapply Qle_trans; [apply Qlt_bool_true; exact E | exact Hy].
    + destruct (IH x) as [Hin Hall]. split; [simpl in Hin |- *; tauto |].
      apply List.Forall_cons_iff in Hall as [Hx Hl].
      constructor; [exact Hx |]. constructor; [| exact Hl].
      eapply Qle_trans; [apply Qlt_bool_false; exact E | exact Hx].
Qed.

Lemma sorted_nth_le l i j a b :
  (i <= j)%nat ->
  nth_error (sorted l) i = Some a -> nth_error (sorted l) j = Some b ->
  (a <= b)%Q.
Proof.
  intros Hij Ha Hb.
  assert (Hs : StronglySorted Qle (sorted l)).
  { apply Sorted_StronglySorted; [| apply sorted_ascending].
    intros x y z. apply Qle_trans. }
  revert i j Hij Ha Hb. induction Hs as [| x s Hs IH Hall]; intros i j Hij Ha Hb.
  - destruct i; discriminate Ha.
  - destruct i as [| i], j as [| j]; simpl in *.
    + injection Ha as <-. injection Hb as <-. apply Qle_refl.
    + injection Ha as <-. apply nth_error_In in Hb.
      rewrite List.Forall_forall in Hall. apply Hall. exact Hb.
    + lia.
    + apply (IH i j); [lia | assumption | assumption].
Qed.

End Statistics.

Section StatisticsOrder.

Import PerformanceMonitor.

Lemma get_stats_value operation metrics x l' :
  metrics !! operation = Some (x :: l') ->
  (length (x :: l') <= 1000)%nat ->
  let ts := x :: l' in
  let n := Z.of_nat (length ts) in
  exists v50 v95 v99,
    nth_error (sorted ts) (Z.to_nat (n / 2)) = Some v50 /\
    nth_error (sorted ts) (Z.to_nat (n * 95 / 100)) = Some v95 /\
    nth_error (sorted ts) (Z.to_nat (n * 99 / 100)) = Some v99 /\
    get_stats operation metrics =
      Ok (Some {| count := n;
                  min := list_min x l';
                  max := list_max x l';
                  p50 := v50; p95 := v95; p99 := v99 |}).
Proof.
  intros Hts Hlen ts n.
  assert (Hn : 1 <= n <= 1000) by (unfold n, ts; simpl in *; lia).
  unfold get_stats. rewrite Hts. fold ts.
  rewrite sorted_length. fold n.
  rewrite (int_mul_float_0_95 n Hn), (int_mul_float_0_99 n Hn).
  destruct (index_in_range (sorted ts) (n / 2)) as (v50 & -> & H50).
  { rewrite sorted_length. fold n. split.
    - apply Z.div_pos; lia.
    - apply Z.div_lt; lia. }
  destruct (index_in_range (sorted ts) (n * 95 / 100)) as (v95 & H95' & H95).
  { rewrite sorted_length. fold n. split.
    - apply Z.div_pos; lia.
    - apply Z.div_lt_upper_bound; lia. }
  destruct (index_in_range (sorted ts) (n * 99 / 100)) as (v99 & H99' & H99).
  { rewrite sorted_length. fold n. split.
    - apply Z.div_pos; lia.
    - apply Z.div_lt_upper_bound; lia. }
  cbn [mbind res_bind Py.bind]. rewrite H95'.
  cbn [mbind res_bind Py.bind]. rewrite H99'.
  cbn [mbind res_bind Py.bind mret res_ret].
  exists v50, v95, v99. repeat split; assumption.
Qed.

End StatisticsOrder.

(** X6: The statistics of a recorded series are consistent: the count is
    the length of the window; min, max, p50, p95 and p99 are samples of
    the window; and min <= p50 <= p95 <= p99 <= max. *)
Theorem get_stats_ordered
    (trace : list (string * Q)) (operation : string) (ts : list Q)
    (Hseries : recorded trace !! operation = Some ts) :
  exists st,
    PerformanceMonitor.get_stats operation (recorded trace) = Ok (Some st) /\
    PerformanceMonitor.count st = Z.of_nat (length ts) /\
    In (PerformanceMonitor.min st) ts /\
    In (PerformanceMonitor.max st) ts /\
    In (PerformanceMonitor.p50 st) ts /\
    In (PerformanceMonitor.p95 st) ts /\
    In (PerformanceMonitor.p99 st) ts /\
    (PerformanceMonitor.min st <= PerformanceMonitor.p50 st)%Q /\
    (PerformanceMonitor.p50 st <= PerformanceMonitor.p95 st)%Q /\
    (PerformanceMonitor.p95 st <= PerformanceMonitor.p99 st)%Q /\
    (PerformanceMonitor.p99 st <= PerformanceMonitor.max st)%Q.
Proof.
  pose proof (windowed_recorded trace operation ts Hseries) as Hlen.
  destruct ts as [| x l']; [simpl in Hlen; lia |].
  destruct (get_stats_value operation (recorded trace) x l' Hseries
              ltac:(lia)) as (v50 & v95 & v99 & H50 & H95 & H99 & Hst).
  set (ts := x :: l') in *. set (n := Z.of_nat (length ts)) in *.
  assert (Hn : 1 <= n) by (unfold n; lia).
  destruct (list_min_spec x l') as [Hmin_in Hmin].
  destruct (list_max_spec x l') as [Hmax_in Hmax].
  fold ts in Hmin_in, Hmin, Hmax_in, Hmax.
  rewrite List.Forall_forall in Hmin, Hmax.
  assert (Hin : forall i v, nth_error (PerformanceMonitor.sorted ts) i = Some v
                            -> In v ts).
  { intros i v H. apply nth_error_In in H.
    eapply Permutation_in; [| exact H].
    symmetry. apply sorted_perm. }
  eexists. split; [exact Hst |].
  cbn [PerformanceMonitor.count PerformanceMonitor.min PerformanceMonitor.max
       PerformanceMonitor.p50 PerformanceMonitor.p95 PerformanceMonitor.p99].
  split; [reflexivity |].
  split; [exact Hmin_in |]. split; [exact Hmax_in |].
  split; [eapply Hin; exact H50 |].
  split; [eapply Hin; exact H95 |].
  split; [eapply Hin; exact H99 |].
  split; [apply Hmin; eapply Hin; exact H50 |].
  assert (Hi1 : (Z.to_nat (n / 2) <= Z.to_nat (n * 95 / 100))%nat).
  { apply Z2Nat.inj_le; [apply Z.div_pos; lia | apply Z.div_pos; lia |].
    apply Z.div_le_lower_bound; [lia |].
    assert (2 * (n / 2) <= n) by (apply Z.mul_div_le; lia). lia. }
  assert (Hi2 : (Z.to_nat (n * 95 / 100) <= Z.to_nat (n * 99 / 100))%nat).
  { apply Z2Nat.inj_le; [apply Z.div_pos; lia | apply Z.div_pos; lia |].
    apply Z.div_le_mono; lia. }
  split; [exact (sorted_nth_le ts _ _ _ _ Hi1 H50 H95) |].
  split; [exact (sorted_nth_le ts _ _ _ _ Hi2 H95 H99) |].
  apply Hmax. eapply Hin. exact H99.
Qed.

Lemma get_stats_ordered_witness :
  exists st,
    PerformanceMonitor.get_stats "op" (recorded fixture_1_100) = Ok (Some st) /\
    PerformanceMonitor.count st
      = Z.of_nat (length (map snd fixture_1_100)) /\
    In (PerformanceMonitor.min st) (map snd fixture_1_100) /\
    In (PerformanceMonitor.max st) (map snd fixture_1_100) /\
    In (PerformanceMonitor.p50 st) (map snd fixture_1_100) /\
    In (PerformanceMonitor.p95 st) (map snd fixture_1_100) /\
    In (PerformanceMonitor.p99 st) (map snd fixture_1_100) /\
    (PerformanceMonitor.min st <= PerformanceMonitor.p50 st)%Q /\
    (PerformanceMonitor.p50 st <= PerformanceMonitor.p95 st)%Q /\
    (PerformanceMonitor.p95 st <= PerformanceMonitor.p99 st)%Q /\
    (PerformanceMonitor.p99 st <= PerformanceMonitor.max st)%Q.
Proof.
  apply (get_stats_ordered fixture_1_100 "op" (map snd fixture_1_100)).
  vm_compute. reflexivity.
Defined.

(** ** Error handler: retries, breaker, executors, entry point *)

Section Keywords.

Import MorphErrorHandler.

Lemma is_prefix_app a b s : is_prefix (a ++ b) s = true -> is_prefix a s = true.
Proof.
  revert s. induction a as [| c a IH]; intros s; simpl; [reflexivity |].
  destruct s as [| c' s]; [discriminate |].
  destruct (Ascii.eqb c c'); simpl; [apply IH | discriminate].
Qed.

Lemma str_contains_app a b s :
  str_contains (a ++ b) s = true -> str_contains a s = true.
Proof.
  induction s as [| c s IH]; simpl.
  - rewrite !orb_false_r. apply is_prefix_app.
  - intros H. apply orb_true_iff in H as [H | H]; apply orb_true_iff.
    + left. apply (is_prefix_app a b). exact H.
    + right. apply IH. exact H.
Qed.

End Keywords.

(** X7: [classify_error]: the keyword "connection reset" of the network group
    can never decide a classification. A message that contains it
    contains "connection" and is classified as server unavailable by the
    first group; so a message classified as a network error contains
    "network" or "dns". *)
Theorem classify_connection_reset_shadowed (msg : string) :
  (str_contains "connection reset" (lower msg) = true ->
   MorphErrorHandler.classify_error msg
     = MorphErrorHandler.SERVER_UNAVAILABLE) /\
  (MorphErrorHandler.classify_error msg = MorphErrorHandler.NETWORK_ERROR ->
   any_in ["network"; "dns"] (lower msg) = true).
Proof.
  split.
  - intros H. unfold MorphErrorHandler.classify_error.
    assert (Hc : str_contains "connection" (lower msg) = true)
      by exact (str_contains_app "connection" " reset" _ H).
    unfold any_in at 1. cbn [existsb]. rewrite Hc. reflexivity.
  - unfold MorphErrorHandler.classify_error.
    repeat match goal with
           | |- context [if any_in ?ks ?s then _ else _] =>
               destruct (any_in ks s) eqn:?; try discriminate
           end.
    intros _.
    match goal with
    | H : any_in ["network"; "dns"; "connection reset"] _ = true |- _ =>
        unfold any_in in H |- *; cbn [existsb] in H |- *;
        apply orb_true_iff in H as [H | H]; [rewrite H; reflexivity |];
        apply orb_true_iff in H as [H | H];
        [rewrite H; apply orb_true_r |]
    end.
    match goal with
    | H : (str_contains "connection reset" _ || false)%bool = true |- _ =>
        rewrite orb_false_r in H;
        pose proof (str_contains_app "connection" " reset" _ H) as Hc
    end.
    match goal with
    | H : any_in ["connection"; "server"; "unavailable"; "unreachable"] _
          = false |- _ =>
        unfold any_in in H; cbn [existsb] in H; rewrite Hc in H;
        discriminate H
    end.
Qed.

Lemma classify_connection_reset_shadowed_witness :
  MorphErrorHandler.classify_error "Connection reset by peer (DNS ok)"
    = MorphErrorHandler.SERVER_UNAVAILABLE /\
  any_in ["network"; "dns"] (lower "DNS lookup failed") = true.
Proof.
  split.
  - apply (proj1 (classify_connection_reset_shadowed
                    "Connection reset by peer (DNS ok)")).
    reflexivity.
  - apply (proj2 (classify_connection_reset_shadowed "DNS lookup failed")).
    reflexivity.
Defined.


Section Effects.

Import MorphErrorHandler.

Variable cfg : Config.
Variable pid : string.
Variable isoformat : Z -> string.

Ltac run :=
  unfold mbind, mret, M_bind, M_ret, bind, ret, lift, modify, get_world in *;
  simpl in *.

Lemma same_breaker_refl w : same_breaker w w.
Proof. split; reflexivity. Qed.

Lemma same_breaker_trans w1 w2 w3 :
  same_breaker w1 w2 -> same_breaker w2 w3 -> same_breaker w1 w3.
Proof.
  intros [Hc1 Hp1] [Hc2 Hp2]. split; [congruence |].
  intros kind. rewrite Hp2. apply Hp1.
Qed.

Lemma update_fallback_stats_effect ctx strategy w :
  exists w', update_fallback_stats ctx strategy w = (Ok tt, w') /\
             same_breaker w w'.
Proof.
  unfold update_fallback_stats, modify. eexists. split; [reflexivity |].
  split; reflexivity.
Qed.

Lemma fallback_to_native_tool_effect ctx w r w' :
  fallback_to_native_tool ctx w = (r, w') -> same_breaker w w'.
Proof.
  unfold fallback_to_native_tool. run.
  destruct (table_get _ _ _); intros [= _ <-].
  - split; reflexivity.
  - apply same_breaker_refl.
Qed.

Lemma retry_with_backoff_effect ctx w r w' :
  retry_with_backoff cfg ctx w = (r, w') -> same_breaker w w'.
Proof.
  unfold retry_with_backoff.
  destruct (_ >=? _); [apply fallback_to_native_tool_effect |]. run.
  destruct (index _ _); intros [= _ <-]; apply same_breaker_refl.
Qed.

Lemma handle_batch_operation_effect ctx w r w' :
  handle_batch_operation ctx w = (r, w') -> same_breaker w w'.
Proof.
  unfold handle_batch_operation. run.
  destruct (contains _ _) as [[|] |];
    try apply fallback_to_native_tool_effect;
    try (intros [= _ <-]; apply same_breaker_refl).
  destruct (getitem _ _) as [edits |];
    [| intros [= _ <-]; apply same_breaker_refl].
  destruct (len edits) as [n |];
    [| intros [= _ <-]; apply same_breaker_refl].
  destruct (n >? 1); [| apply fallback_to_native_tool_effect].
  intros [= _ <-]; apply same_breaker_refl.
Qed.

Lemma use_alternative_tool_effect ctx w r w' :
  use_alternative_tool ctx w = (r, w') -> same_breaker w w'.
Proof.
  unfold use_alternative_tool.
  destruct (error_type ctx); try apply fallback_to_native_tool_effect.
  run.
  destruct (table_get _ _ _) as [[alternative |] |];
    try apply fallback_to_native_tool_effect;
    try (intros [= _ <-]; apply same_breaker_refl).
  destruct (adapt_input_for_alternative _ _); intros [= _ <-];
    apply same_breaker_refl.
Qed.

Lemma graceful_degradation_effect ctx w r w' :
  graceful_degradation ctx w = (r, w') -> same_breaker w w'.
Proof.
  unfold graceful_degradation.
  destruct (error_type ctx); try apply fallback_to_native_tool_effect.
  run.
  destruct (copy _) as [modified_input |];
    [| intros [= _ <-]; apply same_breaker_refl].
  destruct (contains _ _) as [[|] |];
    try (intros [= _ <-]; apply same_breaker_refl).
  destruct (setitem _ _ _); intros [= _ <-]; apply same_breaker_refl.
Qed.

Lemma execute_fallback_strategy_effect ctx strategy w r w' :
  execute_fallback_strategy cfg ctx strategy w = (r, w') ->
  same_breaker w w'.
Proof.
  destruct strategy; simpl.
  - apply fallback_to_native_tool_effect.
  - apply retry_with_backoff_effect.
  - apply handle_batch_operation_effect.
  - apply use_alternative_tool_effect.
  - apply graceful_degradation_effect.
  - unfold fail_fast. run. intros [= _ <-]. apply same_breaker_refl.
Qed.

Lemma log_error_effect ctx w :
  exists w', log_error isoformat ctx w = (Ok tt, w') /\ same_breaker w w' /\
             stats_file w' = stats_file w.
Proof.
  unfold log_error, modify. eexists. split; [reflexivity |].
  destruct (json_dumps _); repeat split; reflexivity.
Qed.

End Effects.

Section Actions.

Import MorphErrorHandler.

Variable cfg : Config.
Variable pid : string.
Variable isoformat : Z -> string.

Ltac run :=
  unfold mbind, mret, M_bind, M_ret, bind, ret, lift, modify, get_world in *;
  simpl in *.

Lemma fallback_to_native_tool_action ctx w r w' :
  fallback_to_native_tool ctx w = (Ok r, w') -> action_of r = Some "fallback".
Proof.
  unfold fallback_to_native_tool, update_fallback_stats. run.
  destruct (table_get _ _ _); intros [= <- _]. reflexivity.
Qed.

Lemma retry_with_backoff_action ctx w r w' :
  retry_with_backoff cfg ctx w = (Ok r, w') ->
  action_of r = Some "fallback" \/
  (retry_count ctx < max_retry_attempts cfg /\ w' = w /\
   exists delay,
     index (retry_delay_seconds cfg)
           (Z.min (retry_count ctx)
                  (Z.of_nat (length (retry_delay_seconds cfg)) - 1))
     = Ok delay /\
     r = retry_response cfg ctx delay).
Proof.
  unfold retry_with_backoff.
  destruct (Z.geb_spec (retry_count ctx) (max_retry_attempts cfg))
    as [Hge | Hlt].
  - intros Hnat. left. eapply fallback_to_native_tool_action. exact Hnat.
  - run. destruct (index _ _) as [delay |]; intros [= <- <-].
    right. split; [lia |]. split; [reflexivity |]. eauto.
Qed.

Lemma execute_fallback_strategy_retry ctx strategy w r w' :
  execute_fallback_strategy cfg ctx strategy w = (Ok r, w') ->
  action_of r = Some "retry" ->
  strategy = RETRY_WITH_BACKOFF /\ w' = w /\
  exists delay,
    index (retry_delay_seconds cfg)
          (Z.min (retry_count ctx)
                 (Z.of_nat (length (retry_delay_seconds cfg)) - 1))
    = Ok delay /\
    r = retry_response cfg ctx delay.
Proof.
  destruct strategy; simpl; intros Hexec Hact.
  - rewrite (fallback_to_native_tool_action _ _ _ _ Hexec) in Hact.
    discriminate Hact.
  - destruct (retry_with_backoff_action _ _ _ _ Hexec) as [H | (_ & Hw & H)].
    + rewrite H in Hact. discriminate Hact.
    + auto.
  - revert Hexec. unfold handle_batch_operation. run.
    destruct (contains _ _) as [[|] |]; try discriminate.
    + destruct (getitem _ _) as [edits |]; try discriminate.
      destruct (len edits) as [n |]; try discriminate.
      destruct (n >? 1).
      * intros [= <- _]. discriminate Hact.
      * intros Hnat.
        rewrite (fallback_to_native_tool_action _ _ _ _ Hnat) in Hact.
        discriminate Hact.
    + intros Hnat.
      rewrite (fallback_to_native_tool_action _ _ _ _ Hnat) in Hact.
      discriminate Hact.
  - revert Hexec. unfold use_alternative_tool.
    destruct (error_type ctx);
      try (intros Hnat;
           rewrite (fallback_to_native_tool_action _ _ _ _ Hnat) in Hact;
           discriminate Hact).
    run.
    destruct (table_get _ _ _) as [[alternative |] |]; try discriminate.
    + destruct (adapt_input_for_alternative _ _); intros [= <- _].
      discriminate Hact.
    + intros Hnat.
      rewrite (fallback_to_native_tool_action _ _ _ _ Hnat) in Hact.
      discriminate Hact.
  - revert Hexec. unfold graceful_degradation.
    destruct (error_type ctx);
      try (intros Hnat;
           rewrite (fallback_to_native_tool_action _ _ _ _ Hnat) in Hact;
           discriminate Hact).
    run.
    destruct (copy _) as [modified_input |]; try discriminate.
    destruct (contains _ _) as [[|] |]; try discriminate.
    + intros [= <- _]. discriminate Hact.
    + destruct (setitem _ _ _); intros [= <- _]. discriminate Hact.
  - revert Hexec. unfold fail_fast. run. intros [= <- _]. discriminate Hact.
Qed.

End Actions.

(** X8: [handle_error] builds a fresh context for every call, so
    [retry_count] is 0 when the strategy runs: whenever it answers
    "retry", the delay is the first entry of [retry_delay_seconds] and
    the reported [retry_count] is 1, whatever the configuration, the
    arguments and the persisted state. *)
Theorem handle_error_retry_is_first_retry
    (cfg : MorphErrorHandler.Config) (pid : string) (isoformat : Z -> string)
    (tool_name tool_input error_message tool_result : pyval)
    (w : MorphErrorHandler.World)
    (Hretry :
       action_of
         (fst (MorphErrorHandler.handle_error cfg pid isoformat tool_name
                 tool_input error_message tool_result w)) = Some "retry") :
  exists delay rest,
    MorphErrorHandler.retry_delay_seconds cfg = delay :: rest /\
    getitem (fst (MorphErrorHandler.handle_error cfg pid isoformat tool_name
                    tool_input error_message tool_result w)) "retry_delay"
      = Ok (PInt delay) /\
    getitem (fst (MorphErrorHandler.handle_error cfg pid isoformat tool_name
                    tool_input error_message tool_result w)) "retry_count"
      = Ok (PInt 1).
Proof.
  revert Hretry. unfold MorphErrorHandler.handle_error.
  destruct (MorphErrorHandler.handle_error_try _ _ _ _ _ _ _ _)
    as [[r | e] w1] eqn:E; cbn [fst]; [| discriminate].
  intros Hact. revert E.
  unfold MorphErrorHandler.handle_error_try,
    MorphErrorHandler.create_error_context, MorphErrorHandler.log_error,
    MorphErrorHandler.update_circuit_breaker.
  unfold mbind, mret, MorphErrorHandler.M_bind, MorphErrorHandler.M_ret,
    MorphErrorHandler.bind, MorphErrorHandler.ret, MorphErrorHandler.modify,
    MorphErrorHandler.get_world.
  destruct error_message; try discriminate.
  match goal with
  | |- context [MorphErrorHandler.execute_fallback_strategy cfg ?c ?st ?w0] =>
      destruct (MorphErrorHandler.execute_fallback_strategy cfg c st w0)
        as [[r0 | e] w2] eqn:Hexec; try discriminate;
      intros [= <- _];
      destruct (execute_fallback_strategy_retry cfg c st w0 r0 w2 Hexec Hact)
        as (_ & _ & delay & Hidx & ->)
  end.
  cbn [MorphErrorHandler.retry_count] in Hidx.
  destruct (MorphErrorHandler.retry_delay_seconds cfg) as [| d rest] eqn:Hd.
  - discriminate Hidx.
  - exists d, rest. split; [reflexivity |].
    assert (Hmin : Z.min 0 (Z.of_nat (length (d :: rest)) - 1) = 0)
      by (simpl length; lia).
    rewrite Hmin in Hidx. injection Hidx as <-.
    split; reflexivity.
Qed.

Lemma handle_error_retry_is_first_retry_witness :
  exists delay rest,
    MorphErrorHandler.retry_delay_seconds MorphErrorHandler.config
      = delay :: rest /\
    getitem (fst (MorphErrorHandler.handle_error MorphErrorHandler.config
                    "4242" epoch (PStr "mcp__morph__read_file")
                    (PDict [("file_path", PStr "a.txt")])
                    (PStr "Operation timed out") (PDict []) tripped_once))
            "retry_delay" = Ok (PInt delay) /\
    getitem (fst (MorphErrorHandler.handle_error MorphErrorHandler.config
                    "4242" epoch (PStr "mcp__morph__read_file")
                    (PDict [("file_path", PStr "a.txt")])
                    (PStr "Operation timed out") (PDict []) tripped_once))
            "retry_count" = Ok (PInt 1).
Proof.
  apply handle_error_retry_is_first_retry. vm_compute. reflexivity.
Defined.

Section Recording.

Import MorphErrorHandler.

Variable cfg : Config.
Hypothesis Henabled : enable_circuit_breaker cfg = true.

Lemma persisted_at_time t w kind :
  persisted (at_time t w) kind = persisted w kind.
Proof.
  unfold persisted, load_fallback_stats, at_time. simpl.
  destruct (stats_file w); reflexivity.
Qed.

Lemma persisted_after_update_other kind kind' is_failure w w' :
  kind' <> kind ->
  update_circuit_breaker cfg kind is_failure w = (Ok tt, w') ->
  persisted w' kind' = persisted w kind'.
Proof.
  intros Hne. unfold update_circuit_breaker, modify. rewrite Henabled. simpl.
  intros [= <-]. unfold persisted at 1. unfold load_fallback_stats at 1.
  simpl. rewrite lookup_insert_ne; [reflexivity |].
  intros Hv. apply Hne. symmetry. apply value_inj. exact Hv.
Qed.

Lemma is_open_same_breaker kind w w' :
  same_breaker w w' ->
  is_circuit_breaker_open cfg kind w' = is_circuit_breaker_open cfg kind w.
Proof.
  intros [Hc Hp]. rewrite !is_open_persisted, Hp, Hc. reflexivity.
Qed.

End Recording.

(** X9: [update_circuit_breaker] touches the entry of its own error kind
    only: it returns normally, the persisted state of every other kind is
    unchanged, and so is the answer of [is_circuit_breaker_open] for every
    other kind. *)
Theorem update_circuit_breaker_other_kinds
    (cfg : MorphErrorHandler.Config) (kind kind' : MorphErrorHandler.ErrorType)
    (is_failure : bool) (w : MorphErrorHandler.World)
    (Hother : kind' <> kind) :
  exists w',
    MorphErrorHandler.update_circuit_breaker cfg kind is_failure w
      = (Ok tt, w') /\
    persisted w' kind' = persisted w kind' /\
    MorphErrorHandler.is_circuit_breaker_open cfg kind' w'
      = MorphErrorHandler.is_circuit_breaker_open cfg kind' w.
Proof.
  destruct (update_runs cfg kind is_failure w) as [w' Hw'].
  exists w'. split; [exact Hw' |].
  destruct (MorphErrorHandler.enable_circuit_breaker cfg) eqn:Hen.
  - assert (Hp : persisted w' kind' = persisted w kind')
      by exact (persisted_after_update_other cfg Hen kind kind' is_failure
                  w w' Hother Hw').
    split; [exact Hp |].
    rewrite !is_open_persisted, Hp.
    destruct (persisted_after_update cfg kind is_failure w w' Hen Hw')
      as [-> _].
    reflexivity.
  - revert Hw'. unfold MorphErrorHandler.update_circuit_breaker,
      MorphErrorHandler.modify. rewrite Hen. simpl. intros [= <-].
    split; reflexivity.
Qed.

Lemma update_circuit_breaker_other_kinds_witness :
  exists w',
    MorphErrorHandler.update_circuit_breaker MorphErrorHandler.config
      MorphErrorHandler.NETWORK_ERROR false tripped = (Ok tt, w') /\
    persisted w' MorphErrorHandler.TIMEOUT
      = persisted tripped MorphErrorHandler.TIMEOUT /\
    MorphErrorHandler.is_circuit_breaker_open MorphErrorHandler.config
      MorphErrorHandler.TIMEOUT w'
    = MorphErrorHandler.is_circuit_breaker_open MorphErrorHandler.config
        MorphErrorHandler.TIMEOUT tripped.
Proof.
  apply update_circuit_breaker_other_kinds. discriminate.
Defined.

Section HandleErrorEffect.

Import MorphErrorHandler.

Variable cfg : Config.
Variable pid : string.
Variable isoformat : Z -> string.

(** The [try] block of [handle_error] on a string message: the context,
    the state after logging, and the outcome of the executor decide the
    result. *)
Lemma handle_error_try_string tool_name tool_input msg tool_result w :
  exists ctx w1,
    error_type ctx = classify_error msg /\
    retry_count ctx = 0 /\
    MorphErrorHandler.tool_name ctx = tool_name /\
    same_breaker w w1 /\
    handle_error_try cfg pid isoformat tool_name tool_input (PStr msg)
      tool_result w
    = match execute_fallback_strategy cfg ctx
              (get_fallback_strategy cfg ctx w1) w1 with
      | (Ok r, w2) =>
          (Ok r, snd (update_circuit_breaker cfg (classify_error msg) true w2))
      | (Raise e, w2) => (Raise e, w2)
      end.
Proof.
  unfold handle_error_try, create_error_context.
  unfold mbind, mret, M_bind, M_ret, bind, ret, get_world.
  match goal with
  | |- context [log_error isoformat ?c w] =>
      destruct (log_error_effect isoformat c w) as (w1 & Hlog & Hsame & _);
      exists c, w1; rewrite Hlog
  end.
  repeat split; try reflexivity; apply Hsame.
Qed.

End HandleErrorEffect.

Lemma handle_error_outcome
    (cfg : MorphErrorHandler.Config) (pid : string) (isoformat : Z -> string)
    (tool_name tool_input tool_result : pyval) (msg : string)
    (w : MorphErrorHandler.World)
    (Henabled : MorphErrorHandler.enable_circuit_breaker cfg = true) :
  let result :=
    MorphErrorHandler.handle_error cfg pid isoformat tool_name tool_input
      (PStr msg) tool_result w in
  let kind := MorphErrorHandler.classify_error msg in
  MorphErrorHandler.clock (snd result) = MorphErrorHandler.clock w /\
  ((is_ultimate_fallback tool_input (fst result) /\
    forall kind', persisted (snd result) kind' = persisted w kind') \/
   (persisted (snd result) kind
    = {| MorphErrorHandler.failure_count :=
           MorphErrorHandler.failure_count (persisted w kind) + 1;
         MorphErrorHandler.last_failure :=
           Some (MorphErrorHandler.clock w) |} /\
    forall kind', kind' <> kind ->
                  persisted (snd result) kind' = persisted w kind')).
Proof.
  intros result kind. subst result.
  unfold MorphErrorHandler.handle_error.
  destruct (handle_error_try_string cfg pid isoformat tool_name tool_input
              msg tool_result w)
    as (ctx & w1 & _ & _ & _ & Hsame1 & ->).
  destruct (MorphErrorHandler.execute_fallback_strategy _ _ _ _)
    as [[r | e] w2] eqn:Hexec; cbn [fst snd].
  - pose proof (execute_fallback_strategy_effect cfg _ _ _ _ _ Hexec)
      as Hsame2.
    destruct (same_breaker_trans _ _ _ Hsame1 Hsame2) as [Hclock Hpers].
    destruct (update_runs cfg kind true w2) as [w3 Hw3].
    fold kind. rewrite Hw3. cbn [snd].
    destruct (persisted_after_update cfg kind true w2 w3 Henabled Hw3)
      as [Hc3 Hp3].
    split; [congruence |]. right. split.
    + rewrite Hp3, Hpers, Hclock. reflexivity.
    + intros kind' Hne.
      rewrite (persisted_after_update_other cfg Henabled kind kind' true
                 w2 w3 Hne Hw3).
      apply Hpers.
  - pose proof (execute_fallback_strategy_effect cfg _ _ _ _ _ Hexec)
      as Hsame2.
    destruct (same_breaker_trans _ _ _ Hsame1 Hsame2) as [Hclock Hpers].
    split; [exact Hclock |]. left. split; [| exact Hpers].
    eexists. reflexivity.
Qed.

(** X10: [handle_error] with the circuit breaker enabled and a string message:
    either the call ended in the ultimate fallback and no circuit state
    changed, or the failure was recorded: the failure count of the
    classified kind grew by one, its last failure is the time of the call,
    and the states of the other kinds are unchanged. *)
Theorem handle_error_records_failure
    (cfg : MorphErrorHandler.Config) (pid : string) (isoformat : Z -> string)
    (tool_name tool_input tool_result : pyval) (msg : string)
    (w : MorphErrorHandler.World)
    (Henabled : MorphErrorHandler.enable_circuit_breaker cfg = true) :
  let result :=
    MorphErrorHandler.handle_error cfg pid isoformat tool_name tool_input
      (PStr msg) tool_result w in
  let kind := MorphErrorHandler.classify_error msg in
  MorphErrorHandler.clock (snd result) = MorphErrorHandler.clock w /\
  ((is_ultimate_fallback tool_input (fst result) /\
    forall kind', persisted (snd result) kind' = persisted w kind') \/
   (persisted (snd result) kind
    = {| MorphErrorHandler.failure_count :=
           MorphErrorHandler.failure_count (persisted w kind) + 1;
         MorphErrorHandler.last_failure :=
           Some (MorphErrorHandler.clock w) |} /\
    forall kind', kind' <> kind ->
                  persisted (snd result) kind' = persisted w kind')).
Proof.
  exact (handle_error_outcome cfg pid isoformat tool_name tool_input
           tool_result msg w Henabled).
Qed.

Lemma handle_error_records_failure_witness :
  persisted
    (snd (MorphErrorHandler.handle_error MorphErrorHandler.config "4242" epoch
            (PStr "mcp__morph__read_file") (PDict [])
            (PStr "Operation timed out") (PDict []) tripped_once))
    MorphErrorHandler.TIMEOUT
  = {| MorphErrorHandler.failure_count := 2;
       MorphErrorHandler.last_failure := Some 1000000 |}.
Proof.
  pose proof (handle_error_records_failure MorphErrorHandler.config "4242"
                epoch (PStr "mcp__morph__read_file") (PDict [])
                (PDict []) "Operation timed out" tripped_once eq_refl)
    as [_ [[[reason Hu] _] | [Hp _]]].
  - vm_compute in Hu. discriminate Hu.
  - exact Hp.
Defined.


Section Tripping.

Import MorphErrorHandler.

Variable pid : string.
Variable isoformat : Z -> string.

(** One call with the default configuration, for a kind that the table
    sends to [RETRY_WITH_BACKOFF] and a tool name that is a string. *)
Lemma handle_error_retry_kind tool tool_input tool_result msg w :
  error_strategies (classify_error msg) = RETRY_WITH_BACKOFF ->
  let result :=
    handle_error config pid isoformat (PStr tool) tool_input (PStr msg)
      tool_result w in
  let kind := classify_error msg in
  action_of (fst result)
    = Some (if is_circuit_breaker_open config kind w then "fallback"
            else "retry") /\
  persisted (snd result) kind
    = {| failure_count := failure_count (persisted w kind) + 1;
         last_failure := Some (clock w) |}.
Proof.
  intros Htable result kind.
  destruct (handle_error_outcome config pid isoformat (PStr tool) tool_input
              tool_result msg w eq_refl) as [_ Hout].
  fold result kind in Hout.
  assert (Haction :
            action_of (fst result)
            = Some (if is_circuit_breaker_open config kind w then "fallback"
                    else "retry") /\
            ~ is_ultimate_fallback tool_input (fst result)).
  { subst result. unfold handle_error.
    destruct (handle_error_try_string config pid isoformat (PStr tool)
                tool_input msg tool_result w)
      as (ctx & w1 & Hkind & Hrc & Htool & Hsame & ->).
    rewrite get_fallback_strategy_cases, Hkind, Htable, Hrc.
    change (max_retry_attempts config <=? 0) with false. cbv iota.
    rewrite (is_open_same_breaker config _ _ _ Hsame). fold kind.
    destruct (is_circuit_breaker_open config kind w);
      cbn [execute_fallback_strategy].
    - unfold fallback_to_native_tool, update_fallback_stats.
      unfold mbind, mret, M_bind, M_ret, bind, ret, lift, modify.
      rewrite Htool. cbn. split; [reflexivity |].
      intros [reason H]. discriminate H.
    - unfold retry_with_backoff. rewrite Hrc. cbn.
      split; [reflexivity |]. intros [reason H]. discriminate H. }
  destruct Haction as [Hact Hnot]. split; [exact Hact |].
  destruct Hout as [[Hu _] | [Hp _]]; [contradiction | exact Hp].
Qed.

Lemma is_open_at_time kind t w :
  is_circuit_breaker_open config kind (at_time t w)
  = (5 <=? failure_count (persisted w kind))
    && match last_failure (persisted w kind) with
       | Some l => t - l <? 300000000
       | None => false
       end.
Proof. rewrite is_open_persisted, persisted_at_time. reflexivity. Qed.

End Tripping.

(** X11: With the default configuration, a tool name that is a string and a
    message whose kind is retried (timeout, file lock, network error),
    starting from no recorded failure of that kind: the first five calls
    of [handle_error] answer "retry" and trip the breaker; the sixth
    answers "fallback" when it comes less than 300 seconds (in
    microseconds) after the fifth, and "retry" otherwise. *)
Theorem circuit_opens_after_five_handled_errors
    (pid : string) (isoformat : Z -> string) (tool : string)
    (tool_input tool_result : pyval) (msg : string)
    (w : MorphErrorHandler.World) (t1 t2 t3 t4 t5 t6 : Z)
    (Hretry :
       MorphErrorHandler.error_strategies
         (MorphErrorHandler.classify_error msg)
       = MorphErrorHandler.RETRY_WITH_BACKOFF)
    (Hfresh :
       MorphErrorHandler.failure_count
         (persisted w (MorphErrorHandler.classify_error msg)) = 0) :
  fst (handle_repeatedly MorphErrorHandler.config pid isoformat (PStr tool)
         tool_input (PStr msg) tool_result [t1; t2; t3; t4; t5; t6] w)
  = [ Some "retry"; Some "retry"; Some "retry"; Some "retry"; Some "retry";
      Some (if t6 - t5 <? 300000000 then "fallback" else "retry") ].
Proof.
  set (kind := MorphErrorHandler.classify_error msg) in *.
  assert (Hstep : forall t w0,
            let result :=
              MorphErrorHandler.handle_error MorphErrorHandler.config pid
                isoformat (PStr tool) tool_input (PStr msg) tool_result
                (at_time t w0) in
            action_of (fst result)
              = Some (if (5 <=? MorphErrorHandler.failure_count
                                  (persisted w0 kind))
                         && match MorphErrorHandler.last_failure
                                    (persisted w0 kind) with
                            | Some l => t - l <? 300000000
                            | None => false
                            end
                      then "fallback" else "retry") /\
            persisted (snd result) kind
              = {| MorphErrorHandler.failure_count :=
                     MorphErrorHandler.failure_count (persisted w0 kind) + 1;
                   MorphErrorHandler.last_failure := Some t |}).
  { intros t w0.
    pose proof (handle_error_retry_kind pid isoformat tool tool_input
                  tool_result msg (at_time t w0) Hretry) as [Ha Hp].
    fold kind in Ha, Hp.
    rewrite is_open_at_time in Ha. rewrite persisted_at_time in Hp.
    split; [exact Ha | exact Hp]. }
  cbn [handle_repeatedly].
  repeat match goal with
         | |- context [MorphErrorHandler.handle_error
                         MorphErrorHandler.config pid isoformat (PStr tool)
                         tool_input (PStr msg) tool_result (at_time ?t ?w0)] =>
             let Ha := fresh "Ha" in
             let Hp := fresh "Hp" in
             destruct (Hstep t w0) as [Ha Hp];
             destruct (MorphErrorHandler.handle_error
                         MorphErrorHandler.config pid isoformat (PStr tool)
                         tool_input (PStr msg) tool_result (at_time t w0))
               as [? ?];
             cbn [fst snd] in Ha, Hp
         end.
  cbn [fst].
  rewrite Hfresh in *.
  repeat match goal with
         | H : persisted _ kind = _ |- _ => rewrite H in *; clear H
         end.
  cbn in *.
  repeat match goal with
         | H : action_of _ = _ |- _ => rewrite H; clear H
         end.
  reflexivity.
Qed.

Lemma circuit_opens_after_five_handled_errors_witness :
  fst (handle_repeatedly MorphErrorHandler.config "4242" epoch
         (PStr "mcp__morph__read_file") (PDict [("file_path", PStr "a.txt")])
         (PStr "Operation timed out") (PDict [])
         [0; 1000000; 2000000; 3000000; 4000000; 5000000] fresh)
  = [ Some "retry"; Some "retry"; Some "retry"; Some "retry"; Some "retry";
      Some (if 5000000 - 4000000 <? 300000000 then "fallback" else "retry") ].
Proof.
  apply circuit_opens_after_five_handled_errors.
  - reflexivity.
  - vm_compute. reflexivity.
Defined.

(** X12: [retry_with_backoff] with the default configuration: for a retry
    count of 0, 1 or 2 it asks for a retry after 1, 2 or 4 seconds
    ([2 ^ retry_count]) and leaves the statistics alone; from 3 on it is
    [fallback_to_native_tool]. *)
Theorem retry_with_backoff_schedule
    (ctx : MorphErrorHandler.ErrorContext) (w : MorphErrorHandler.World) :
  (0 <= MorphErrorHandler.retry_count ctx < 3 ->
   MorphErrorHandler.retry_with_backoff MorphErrorHandler.config ctx w
   = (Ok (retry_response MorphErrorHandler.config ctx
            (2 ^ MorphErrorHandler.retry_count ctx)), w)) /\
  (3 <= MorphErrorHandler.retry_count ctx ->
   MorphErrorHandler.retry_with_backoff MorphErrorHandler.config ctx w
   = MorphErrorHandler.fallback_to_native_tool ctx w).
Proof.
  unfold MorphErrorHandler.retry_with_backoff, retry_response. split.
  - intros H.
    assert (Hrc : MorphErrorHandler.retry_count ctx = 0 \/
                  MorphErrorHandler.retry_count ctx = 1 \/
                  MorphErrorHandler.retry_count ctx = 2) by lia.
    destruct Hrc as [-> | [-> | ->]]; reflexivity.
  - intros H.
    destruct (Z.geb_spec (MorphErrorHandler.retry_count ctx)
                (MorphErrorHandler.max_retry_attempts
                   MorphErrorHandler.config)) as [_ | Hlt];
      [reflexivity |].
    simpl in Hlt. lia.
Qed.

Lemma retry_with_backoff_schedule_witness :
  MorphErrorHandler.retry_with_backoff MorphErrorHandler.config
    (timeout_attempt 2) fresh
  = (Ok (retry_response MorphErrorHandler.config (timeout_attempt 2) (2 ^ 2)),
     fresh) /\
  MorphErrorHandler.retry_with_backoff MorphErrorHandler.config
    (timeout_attempt 3) fresh
  = MorphErrorHandler.fallback_to_native_tool (timeout_attempt 3) fresh.
Proof.
  split.
  - apply (proj1 (retry_with_backoff_schedule (timeout_attempt 2) fresh)).
    simpl. lia.
  - apply (proj2 (retry_with_backoff_schedule (timeout_attempt 3) fresh)).
    simpl. lia.
Defined.

Section Executors.

Import MorphErrorHandler.

Lemma fallback_to_native_tool_value ctx tool w :
  tool_name ctx = PStr tool ->
  exists w',
    fallback_to_native_tool ctx w =
      (Ok (PDict
             [ ("action", PStr "fallback");
               ("fallback_tool",
                PStr (default "Read" (assoc tool tool_fallback_mapping)));
               ("fallback_input", tool_input ctx);
               ("reason", PStr ("MorphLLM " ++ value (error_type ctx) ++
                                ": " ++ error_message ctx));
               ("performance_note",
                PStr "Using native tool due to MorphLLM failure");
               ("original_error", PStr (error_message ctx)) ]), w') /\
    total_errors (load_fallback_stats w')
      = total_errors (load_fallback_stats w) + 1.
Proof.
  intros Htool. unfold fallback_to_native_tool, update_fallback_stats.
  unfold mbind, mret, M_bind, M_ret, bind, ret, lift, modify.
  rewrite Htool. cbn [table_get]. eexists. split; reflexivity.
Qed.

Lemma assoc_del_other {A} k k' (d : list (string * A)) :
  k <> k' -> assoc k (assoc_del k' d) = assoc k d.
Proof.
  intros Hne. induction d as [| [k0 v0] d IH]; simpl; [reflexivity |].
  destruct (String.eqb_spec k' k0) as [-> | Hne0].
  - destruct (String.eqb_spec k k0); [contradiction | reflexivity].
  - simpl. rewrite IH. reflexivity.
Qed.

Lemma assoc_del_same {A} k (d : list (string * A)) :
  List.NoDup (map fst d) -> assoc k (assoc_del k d) = None.
Proof.
  induction d as [| [k0 v0] d IH]; simpl; intros Hnd; [reflexivity |].
  apply List.NoDup_cons_iff in Hnd as [Hnin Hnd].
  destruct (String.eqb_spec k k0) as [-> | Hne].
  - apply assoc_None_keys. exact Hnin.
  - simpl. destruct (String.eqb_spec k k0); [contradiction | auto].
Qed.

Lemma assoc_set_same {A} k (v : A) d : assoc k (assoc_set k v d) = Some v.
Proof.
  induction d as [| [k0 v0] d IH]; simpl.
  - rewrite String.eqb_refl. reflexivity.
  - destruct (String.eqb_spec k k0) as [-> | Hne]; simpl.
    + rewrite String.eqb_refl. reflexivity.
    + destruct (String.eqb_spec k k0); [contradiction | exact IH].
Qed.

Lemma assoc_set_other {A} k k' (v : A) d :
  k <> k' -> assoc k (assoc_set k' v d) = assoc k d.
Proof.
  intros Hne. induction d as [| [k0 v0] d IH]; simpl.
  - destruct (String.eqb_spec k k'); [contradiction | reflexivity].
  - destruct (String.eqb_spec k' k0) as [-> | Hne0]; simpl.
    + destruct (String.eqb_spec k k0); [contradiction | reflexivity].
    + rewrite IH. reflexivity.
Qed.

Lemma assoc_del_keys_NoDup {A} k (d : list (string * A)) :
  List.NoDup (map fst d) -> List.NoDup (map fst (assoc_del k d)).
Proof.
  induction d as [| [k0 v0] d IH]; simpl; intros Hnd; [constructor |].
  apply List.NoDup_cons_iff in Hnd as [Hnin Hnd].
  destruct (String.eqb k k0); [exact Hnd |].
  simpl. apply List.NoDup_cons_iff. split; [| auto].
  intros Hin. apply Hnin. eapply assoc_del_keys_incl. exact Hin.
Qed.

End Executors.

(** X13: [fallback_to_native_tool] undoes the interceptor's [TOOL_MAPPING]:
    for a tool the interceptor maps to a MorphLLM tool, the fallback tool
    of the error on that MorphLLM tool is the native tool again, except
    for MultiEdit, which shares [mcp__morph__edit_file] with Edit and
    comes back as Edit. The input is passed through unchanged. *)
Theorem native_tool_round_trip
    (ctx : MorphErrorHandler.ErrorContext) (w : MorphErrorHandler.World)
    (tool morph : string)
    (Hmapped : assoc tool MorphToolInterceptor.TOOL_MAPPING = Some morph)
    (Htool : MorphErrorHandler.tool_name ctx = PStr morph) :
  exists response w',
    MorphErrorHandler.fallback_to_native_tool ctx w = (Ok response, w') /\
    getitem response "fallback_tool"
      = Ok (PStr (if String.eqb tool "MultiEdit" then "Edit" else tool)) /\
    getitem response "fallback_input"
      = Ok (MorphErrorHandler.tool_input ctx).
Proof.
  destruct (fallback_to_native_tool_value ctx morph w Htool)
    as (w' & -> & _).
  eexists _, w'. split; [reflexivity |]. split; [| reflexivity].
  cbn [getitem assoc String.eqb Ascii.eqb Bool.eqb].
  revert Hmapped. unfold MorphToolInterceptor.TOOL_MAPPING.
  cbn [assoc].
  repeat match goal with
         | |- context [String.eqb tool ?s] =>
             destruct (String.eqb_spec tool s) as [-> | ?]
         end; intros [= <-]; reflexivity.
Qed.

Lemma native_tool_round_trip_witness :
  exists response w',
    MorphErrorHandler.fallback_to_native_tool (timeout_attempt 3) fresh
      = (Ok response, w') /\
    getitem response "fallback_tool"
      = Ok (PStr (if String.eqb "Read" "MultiEdit" then "Edit" else "Read")) /\
    getitem response "fallback_input"
      = Ok (MorphErrorHandler.tool_input (timeout_attempt 3)).
Proof.
  apply (native_tool_round_trip (timeout_attempt 3) fresh "Read"
           "mcp__morph__read_file"); reflexivity.
Defined.

(** X14: [adapt_input_for_alternative] on a dict: for
    [mcp__morph__write_file] the result has neither "old_string" nor
    "new_string" and agrees with the input on every other key; for any
    other alternative tool the input is returned as it is. *)
Theorem adapt_input_drops_edit_strings
    (d : list (string * pyval))
    (Hkeys : List.NoDup (map fst d)) :
  (exists d',
      MorphErrorHandler.adapt_input_for_alternative (PDict d)
        "mcp__morph__write_file" = Ok (PDict d') /\
      assoc "old_string" d' = None /\
      assoc "new_string" d' = None /\
      forall k, k <> "old_string" -> k <> "new_string" ->
                assoc k d' = assoc k d) /\
  (forall alternative_tool,
      alternative_tool <> "mcp__morph__write_file" ->
      MorphErrorHandler.adapt_input_for_alternative (PDict d) alternative_tool
      = Ok (PDict d)).
Proof.
  split.
  - eexists. split; [reflexivity |]. split; [| split].
    + rewrite assoc_del_other by discriminate. apply assoc_del_same.
      exact Hkeys.
    + apply assoc_del_same. apply assoc_del_keys_NoDup. exact Hkeys.
    + intros k H1 H2. rewrite !assoc_del_other by assumption. reflexivity.
  - intros alternative_tool Hne.
    unfold MorphErrorHandler.adapt_input_for_alternative.
    cbn [copy mbind res_bind Py.bind].
    destruct (String.eqb_spec alternative_tool "mcp__morph__write_file");
      [contradiction | reflexivity].
Qed.

Lemma adapt_input_drops_edit_strings_witness :
  exists d',
    MorphErrorHandler.adapt_input_for_alternative
      (PDict [ ("file_path", PStr "a.txt"); ("old_string", PStr "x");
               ("new_string", PStr "y") ])
      "mcp__morph__write_file" = Ok (PDict d') /\
    assoc "old_string" d' = None /\
    assoc "new_string" d' = None /\
    forall k, k <> "old_string" -> k <> "new_string" ->
              assoc k d'
              = assoc k [ ("file_path", PStr "a.txt");
                          ("old_string", PStr "x");
                          ("new_string", PStr "y") ].
Proof.
  apply (proj1 (adapt_input_drops_edit_strings
                  [ ("file_path", PStr "a.txt"); ("old_string", PStr "x");
                    ("new_string", PStr "y") ]
                  ltac:(repeat constructor; simpl; intuition discriminate))).
Defined.

(** X15: [graceful_degradation] on a memory error with a dict input answers
    "degrade" without touching the statistics; the degraded input keeps a
    "limit" the caller gave, sets it to 1000 otherwise, and agrees with
    the input on every other key. *)
Theorem graceful_degradation_limits_scope
    (ctx : MorphErrorHandler.ErrorContext) (w : MorphErrorHandler.World)
    (d : list (string * pyval))
    (Hkind : MorphErrorHandler.error_type ctx = MorphErrorHandler.MEMORY_ERROR)
    (Hinput : MorphErrorHandler.tool_input ctx = PDict d) :
  exists d',
    MorphErrorHandler.graceful_degradation ctx w
    = (Ok (PDict
             [ ("action", PStr "degrade");
               ("degraded_input", PDict d');
               ("reason",
                PStr "Reducing operation scope due to memory constraints");
               ("degradation_type", PStr "memory_optimization") ]), w) /\
    assoc "limit" d' = Some (default (PInt 1000) (assoc "limit" d)) /\
    forall k, k <> "limit" -> assoc k d' = assoc k d.
Proof.
  unfold MorphErrorHandler.graceful_degradation. rewrite Hkind, Hinput.
  unfold mbind, mret, MorphErrorHandler.M_bind, MorphErrorHandler.M_ret,
    MorphErrorHandler.bind, MorphErrorHandler.ret, MorphErrorHandler.lift.
  cbn [copy contains].
  destruct (assoc "limit" d) as [limit |] eqn:E.
  - exists d. split; [reflexivity |]. split; [exact E | reflexivity].
  - cbn [setitem]. eexists. split; [reflexivity |]. split.
    + apply assoc_set_same.
    + intros k Hk. apply assoc_set_other. exact Hk.
Qed.

Lemma graceful_degradation_limits_scope_witness :
  exists d',
    MorphErrorHandler.graceful_degradation out_of_memory fresh
    = (Ok (PDict
             [ ("action", PStr "degrade");
               ("degraded_input", PDict d');
               ("reason",
                PStr "Reducing operation scope due to memory constraints");
               ("degradation_type", PStr "memory_optimization") ]), fresh) /\
    assoc "limit" d'
    = Some (default (PInt 1000)
                    (assoc "limit" [("file_path", PStr "big.log")])) /\
    forall k, k <> "limit" ->
              assoc k d' = assoc k [("file_path", PStr "big.log")].
Proof.
  apply (graceful_degradation_limits_scope out_of_memory fresh
           [("file_path", PStr "big.log")]); reflexivity.
Defined.

(** X16: [handle_batch_operation] on an input with more than one edit answers
    "split_batch" with half the edits, rounded down, and leaves the
    statistics alone; the new batch size is at least 1 and smaller than
    the original. *)
Theorem handle_batch_operation_halves
    (ctx : MorphErrorHandler.ErrorContext) (w : MorphErrorHandler.World)
    (d : list (string * pyval)) (edits : list pyval)
    (Hinput : MorphErrorHandler.tool_input ctx = PDict d)
    (Hedits : assoc "edits" d = Some (PList edits))
    (Hmany : (1 < length edits)%nat) :
  let n := Z.of_nat (length edits) in
  MorphErrorHandler.handle_batch_operation ctx w
  = (Ok (PDict
           [ ("action", PStr "split_batch");
             ("batch_size", PInt (n / 2));
             ("reason", PStr "Splitting batch operation due to error");
             ("original_batch_size", PInt n) ]), w) /\
  1 <= n / 2 < n.
Proof.
  intros n. assert (Hn : 2 <= n) by (unfold n; lia).
  assert (Hhalf : 1 <= n / 2 < n).
  { split.
    - apply Z.div_le_lower_bound; lia.
    - apply Z.div_lt; lia. }
  split; [| exact Hhalf].
  unfold MorphErrorHandler.handle_batch_operation. rewrite Hinput.
  unfold mbind, mret, MorphErrorHandler.M_bind, MorphErrorHandler.M_ret,
    MorphErrorHandler.bind, MorphErrorHandler.ret, MorphErrorHandler.lift.
  cbn [contains getitem]. rewrite Hedits. cbn [len]. fold n.
  destruct (Z.gtb_spec n 1) as [_ | Hle]; [| lia].
  rewrite Z.max_r by lia. reflexivity.
Qed.

Lemma handle_batch_operation_halves_witness :
  MorphErrorHandler.handle_batch_operation five_edits fresh
  = (Ok (PDict
           [ ("action", PStr "split_batch");
             ("batch_size", PInt (5 / 2));
             ("reason", PStr "Splitting batch operation due to error");
             ("original_batch_size", PInt 5) ]), fresh) /\
  1 <= 5 / 2 < 5.
Proof.
  apply (handle_batch_operation_halves five_edits fresh
           [("file_path", PStr "a.txt");
            ("edits", PList [PNone; PNone; PNone; PNone; PNone])]
           [PNone; PNone; PNone; PNone; PNone]).
  - reflexivity.
  - reflexivity.
  - simpl. lia.
Defined.


(** X17: [main] of the error handler: without an argument it prints the
    "No error data provided" object and exits with 1; with one, whatever
    the argument, the parser, the constructor and the stored state do, it
    prints a response whose action is one of the handler's actions and
    exits with 0. *)
Theorem handler_main_always_answers
    (json_loads : string -> res pyval) (makedirs : res unit) (pid : string)
    (isoformat : Z -> string) (argv : list string)
    (w : MorphErrorHandler.World) :
  let out :=
    fst (MorphErrorHandlerMain.main json_loads makedirs pid isoformat argv w)
  in
  ((length argv < 2)%nat ->
   out = (PDict [("error", PStr "No error data provided")], 1)) /\
  ((2 <= length argv)%nat -> is_descriptor (fst out) /\ snd out = 0).
Proof.
  intros out. subst out. unfold MorphErrorHandlerMain.main. split.
  - intros H. destruct (Z.ltb_spec (Z.of_nat (length argv)) 2); [| lia].
    reflexivity.
  - intros H. destruct (Z.ltb_spec (Z.of_nat (length argv)) 2); [lia |].
    destruct (MorphErrorHandlerMain.main_try _ _ _ _ _ _)
      as [[printed | e] w'] eqn:E; cbn [fst snd]; (split; [| reflexivity]).
    + revert E. unfold MorphErrorHandlerMain.main_try.
      unfold mbind, MorphErrorHandler.M_bind, MorphErrorHandler.bind,
        MorphErrorHandler.lift.
      destruct (index argv 1) as [arg |]; [| discriminate].
      destruct (json_loads arg) as [error_data |]; [| discriminate].
      destruct (dict_get error_data "tool_name" _) as [tool_name |];
        [| discriminate].
      destruct (dict_get error_data "tool_input" _) as [tool_input |];
        [| discriminate].
      destruct (dict_get error_data "error_message" _) as [error_message |];
        [| discriminate].
      destruct (dict_get error_data "tool_result" _) as [tool_result |];
        [| discriminate].
      destruct makedirs as [[] |]; [| discriminate].
      unfold MorphErrorHandler.handle_error.
      destruct (MorphErrorHandler.handle_error_try _ _ _ _ _ _ _ _)
        as [[r | e] w1] eqn:Htry.
      * unfold json_dumps. destruct (json_serializable r); [| discriminate].
        intros [= <- _].
        eapply handle_error_try_descriptor. exact Htry.
      * unfold json_dumps.
        destruct (json_serializable _); [| discriminate].
        intros [= <- _].
        exists "fallback". split; [reflexivity | left; reflexivity].
    + exists "fallback". split; [reflexivity | left; reflexivity].
Qed.

Lemma handler_main_always_answers_witness :
  is_descriptor
    (fst (fst (MorphErrorHandlerMain.main (fun _ => Ok (PList [])) (Ok tt)
                 "4242"
                 epoch ["morph_error_handler.py"; "[]"] fresh))) /\
  snd (fst (MorphErrorHandlerMain.main (fun _ => Ok (PList [])) (Ok tt)
                 "4242"
              epoch ["morph_error_handler.py"; "[]"] fresh)) = 0.
Proof.
  apply (proj2 (handler_main_always_answers (fun _ => Ok (PList [])) (Ok tt)
                  "4242"
                  epoch ["morph_error_handler.py"; "[]"] fresh)).
  simpl. lia.
Defined.

(** ** Tool interceptor: what is intercepted, and what main answers *)

Section Interception.

Import MorphToolInterceptor.

Variable env : Env.
Variable isoformat : Z -> string.

Lemma mem_TOOL_MAPPING tool_name :
  mem tool_name TOOL_MAPPING = true ->
  exists morph,
    assoc tool_name TOOL_MAPPING = Some morph /\
    is_prefix "mcp__morph__" morph = true.
Proof.
  unfold mem, TOOL_MAPPING. cbn [assoc].
  repeat match goal with
         | |- context [String.eqb tool_name ?s] =>
             destruct (String.eqb tool_name s)
         end;
    try discriminate; intros _; eexists; split; reflexivity.
Qed.

Lemma should_auto_activate_mapped self tool_name tool_input flags :
  should_auto_activate env self tool_name tool_input flags = Ok true ->
  mem tool_name TOOL_MAPPING = true.
Proof.
  unfold should_auto_activate.
  destruct (mem tool_name TOOL_MAPPING); [reflexivity | discriminate].
Qed.

Lemma should_intercept_mapped self tool_name tool_input flags :
  should_intercept env self tool_name tool_input flags = Ok true ->
  mem tool_name TOOL_MAPPING = true.
Proof.
  unfold should_intercept.
  destruct (existsb (String.eqb "--no-morph") flags); [discriminate |].
  destruct (existsb (String.eqb "--morph-only") flags);
    [intros [= ->]; reflexivity |].
  destruct (existsb (String.eqb "--morph") flags
            || existsb (String.eqb "--morphllm") flags);
    [intros [= ->]; reflexivity |].
  destruct (should_auto_activate env self tool_name tool_input flags)
    as [[|] | e] eqn:E; try discriminate.
  intros _. eapply should_auto_activate_mapped. exact E.
Qed.

Lemma existsb_eqb_not_In (x : string) (l : list string) :
  ~ In x l -> existsb (String.eqb x) l = false.
Proof.
  intros H. destruct (existsb (String.eqb x) l) eqn:E; [| reflexivity].
  exfalso. apply H. apply existsb_exists in E as (y & Hy & Heq).
  apply String.eqb_eq in Heq. subst y. exact Hy.
Qed.

End Interception.

(** X18: [should_intercept] says yes only for a tool that has a MorphLLM
    equivalent in [TOOL_MAPPING], whatever the flags, the input and the
    counters are. *)
Theorem should_intercept_only_mapped
    (env : MorphToolInterceptor.Env)
    (self : MorphToolInterceptor.SessionStats)
    (tool_name : string) (tool_input : pyval) (flags : list string)
    (Hyes : MorphToolInterceptor.should_intercept env self tool_name
              tool_input flags = Ok true) :
  exists morph,
    assoc tool_name MorphToolInterceptor.TOOL_MAPPING = Some morph /\
    is_prefix "mcp__morph__" morph = true.
Proof.
  apply mem_TOOL_MAPPING.
  eapply should_intercept_mapped. exact Hyes.
Qed.

Lemma should_intercept_only_mapped_witness :
  exists morph,
    assoc "MultiEdit" MorphToolInterceptor.TOOL_MAPPING = Some morph /\
    is_prefix "mcp__morph__" morph = true.
Proof.
  apply (should_intercept_only_mapped no_flags
           (MorphToolInterceptor.session_stats (new_interceptor 0))
           "MultiEdit" (PDict [("edits", PList [PNone; PNone; PNone])]) []).
  reflexivity.
Defined.

(** X19: Interception that does not depend on the input: unless "--no-morph"
    is given, a call of LS, and a call of any mapped tool once the
    interceptor has counted five operations, is intercepted, whatever the
    input and the other flags are, and without an exception. *)
Theorem should_intercept_without_reading_input
    (env : MorphToolInterceptor.Env)
    (self : MorphToolInterceptor.SessionStats)
    (tool_name : string) (tool_input : pyval) (flags : list string)
    (Hallowed : ~ In "--no-morph" flags)
    (Hmapped : In tool_name mapped_tools)
    (Hauto : tool_name = "LS" \/
             5 <= MorphToolInterceptor.total_operations self) :
  MorphToolInterceptor.should_intercept env self tool_name tool_input flags
  = Ok true.
Proof.
  assert (Hmem : mem tool_name MorphToolInterceptor.TOOL_MAPPING = true).
  { unfold mapped_tools in Hmapped. simpl in Hmapped.
    destruct Hmapped as [<- | [<- | [<- | [<- | [<- | [<- | []]]]]]];
      reflexivity. }
  unfold MorphToolInterceptor.should_intercept.
  rewrite (existsb_eqb_not_In _ _ Hallowed).
  destruct (existsb (String.eqb "--morph-only") flags);
    [rewrite Hmem; reflexivity |].
  destruct (existsb (String.eqb "--morph") flags
            || existsb (String.eqb "--morphllm") flags);
    [rewrite Hmem; reflexivity |].
  unfold MorphToolInterceptor.should_auto_activate. rewrite Hmem.
  cbn [negb].
  destruct (Z.geb_spec (MorphToolInterceptor.total_operations self)
              MorphToolInterceptor.filesystem_operations) as [Hge | Hlt];
    [reflexivity |].
  destruct Hauto as [-> | Hfive];
    [reflexivity |].
  unfold MorphToolInterceptor.filesystem_operations in Hlt. lia.
Qed.

Lemma should_intercept_without_reading_input_witness :
  MorphToolInterceptor.should_intercept no_flags
    (MorphToolInterceptor.session_stats (new_interceptor 0))
    "LS" (PInt 7) ["--morph-fast"]
  = Ok true.
Proof.
  apply should_intercept_without_reading_input.
  - simpl. intros [H | []]. discriminate H.
  - unfold mapped_tools. simpl. tauto.
  - left. reflexivity.
Defined.

(** X20: The switch: when NO_MORPH is set to a non-empty value, or
    "--no-morph" is among the command-line arguments, the flags that
    [parse_flags] collects make [should_intercept] answer no for every
    tool, whatever else is set. *)
Theorem no_morph_switch_disables
    (env : MorphToolInterceptor.Env)
    (self : MorphToolInterceptor.SessionStats)
    (tool_name : string) (tool_input : pyval)
    (Hswitch :
       MorphToolInterceptor.unset
         (MorphToolInterceptor.getenv env "NO_MORPH") = false \/
       In "--no-morph" (tl (MorphToolInterceptor.argv env))) :
  MorphToolInterceptor.should_intercept env self tool_name tool_input
    (MorphToolInterceptor.parse_flags env)
  = Ok false.
Proof.
  assert (Hflag : In "--no-morph" (MorphToolInterceptor.parse_flags env)).
  { unfold MorphToolInterceptor.parse_flags.
    do 3 (apply in_or_app; right). apply in_or_app.
    destruct Hswitch as [Henv | Harg].
    - left. rewrite Henv. left. reflexivity.
    - right. apply list_elem_of_In. apply list_elem_of_filter.
      split; [exact I | apply list_elem_of_In; exact Harg]. }
  unfold MorphToolInterceptor.should_intercept.
  rewrite (existsb_eqb_In _ _ Hflag). reflexivity.
Qed.

Lemma no_morph_switch_disables_witness :
  MorphToolInterceptor.should_intercept morph_switched_off
    (MorphToolInterceptor.session_stats (new_interceptor 0))
    "Read" (PDict [("file_path", PStr "a.txt")])
    (MorphToolInterceptor.parse_flags morph_switched_off)
  = Ok false.
Proof.
  apply no_morph_switch_disables. left. reflexivity.
Defined.

(** X21: [process_tool_call] never returns and never counts a MorphLLM or
    fallback operation: every call raises, the log is not written,
    [total_operations] grows by one, [native_operations] grows by one
    exactly when the call was not to be intercepted, and the other
    counters keep their values. *)
Theorem process_tool_call_counts_nothing
    (env : MorphToolInterceptor.Env) (isoformat : Z -> string)
    (tool_name : string) (tool_input : pyval)
    (st : MorphToolInterceptor.State) :
  let self := MorphToolInterceptor.session_stats st in
  exists e st',
    MorphToolInterceptor.process_tool_call env isoformat tool_name tool_input
      st = (Raise e, st') /\
    MorphToolInterceptor.interception_log st'
      = MorphToolInterceptor.interception_log st /\
    MorphToolInterceptor.session_stats st'
      = match MorphToolInterceptor.should_intercept env (counted self)
                tool_name tool_input (MorphToolInterceptor.parse_flags env)
        with
        | Ok false =>
            {| MorphToolInterceptor.total_operations :=
                 MorphToolInterceptor.total_operations self + 1;
               MorphToolInterceptor.morph_operations :=
                 MorphToolInterceptor.morph_operations self;
               MorphToolInterceptor.native_operations :=
                 MorphToolInterceptor.native_operations self + 1;
               MorphToolInterceptor.fallback_operations :=
                 MorphToolInterceptor.fallback_operations self;
               MorphToolInterceptor.start_time :=
                 MorphToolInterceptor.start_time self |}
        | _ => counted self
        end.
Proof.
  intros self. subst self.
  unfold MorphToolInterceptor.process_tool_call.
  unfold mbind, MorphToolInterceptor.M_bind, MorphToolInterceptor.bind,
    MorphToolInterceptor.modify_stats, MorphToolInterceptor.get_state,
    MorphToolInterceptor.lift.
  cbn [MorphToolInterceptor.session_stats
         MorphToolInterceptor.interception_log].
  fold (counted (MorphToolInterceptor.session_stats st)).
  destruct (MorphToolInterceptor.should_intercept _ _ _ _ _) as [[|] | e].
  - destruct (MorphToolInterceptor.validate_morph_server env);
      cbn [negb].
    + destruct (MorphToolInterceptor.create_morph_tool_call _ _ _ _)
        as [morph_call | e]; [| eauto].
      destruct (getitem morph_call "tool") as [tool | e]; [| eauto].
      rewrite log_interception_raises. eauto.
    + rewrite log_interception_raises. eauto.
  - rewrite log_interception_raises. eauto.
  - eauto.
Qed.

(** X22: [main] of the interceptor, from the construction of the interceptor
    on and for a tool name that is a string: whatever the environment,
    the tool and its input are, it prints the generic "allow" answer with
    an error message and exits with 0; no call is ever blocked or routed
    to MorphLLM. *)
Theorem interceptor_main_never_blocks
    (env : MorphToolInterceptor.Env) (isoformat : Z -> string)
    (tool_name : string) (tool_input : pyval) :
  exists message,
    MorphToolInterceptor.main env isoformat tool_name tool_input
    = (PDict [ ("action", PStr "allow");
               ("error", PStr message);
               ("fallback_mode", PBool true) ], PInt 0).
Proof.
  unfold MorphToolInterceptor.main.
  unfold mbind at 1, MorphToolInterceptor.M_bind at 1,
    MorphToolInterceptor.bind at 1.
  match goal with
  | |- context [MorphToolInterceptor.process_tool_call env isoformat
                  tool_name tool_input ?st] =>
      destruct (process_tool_call_raises env isoformat tool_name tool_input
                  st) as (e & st' & ->)
  end.
  eauto.
Qed.

Section Composition.

Import MorphErrorHandler.

Variable pid : string.
Variable isoformat : Z -> string.

Ltac run :=
  unfold mbind, mret, M_bind, M_ret, bind, ret, lift, modify, get_world in *;
  simpl in *.

Lemma fallback_to_native_tool_fields ctx morph w r w' :
  tool_name ctx = PStr morph ->
  fallback_to_native_tool ctx w = (Ok r, w') ->
  getitem r "fallback_tool"
    = Ok (PStr (default "Read" (assoc morph tool_fallback_mapping))) /\
  getitem r "fallback_input" = Ok (tool_input ctx).
Proof.
  intros Htool.
  destruct (fallback_to_native_tool_value ctx morph w Htool)
    as (w'' & -> & _).
  intros [= <- _]. split; reflexivity.
Qed.

Lemma execute_fallback_strategy_fallback cfg ctx morph strategy w r w' :
  tool_name ctx = PStr morph ->
  execute_fallback_strategy cfg ctx strategy w = (Ok r, w') ->
  action_of r = Some "fallback" ->
  getitem r "fallback_tool"
    = Ok (PStr (default "Read" (assoc morph tool_fallback_mapping))) /\
  getitem r "fallback_input" = Ok (tool_input ctx).
Proof.
  intros Htool.
  pose proof (fun w r w' => fallback_to_native_tool_fields ctx morph w r w'
                              Htool) as Hnative.
  destruct strategy; simpl; intros Hexec Hact.
  - eauto.
  - revert Hexec. unfold retry_with_backoff.
    destruct (_ >=? _); [eauto |]. run.
    destruct (index _ _); intros [= <- _]; discriminate Hact.
  - revert Hexec. unfold handle_batch_operation. run.
    destruct (contains _ _) as [[|] |]; try discriminate; [| eauto].
    destruct (getitem _ _) as [edits |]; try discriminate.
    destruct (len edits) as [n |]; try discriminate.
    destruct (n >? 1); [| eauto].
    intros [= <- _]. discriminate Hact.
  - revert Hexec. unfold use_alternative_tool.
    destruct (error_type ctx); eauto.
    run.
    destruct (table_get _ _ _) as [[alternative |] |]; try discriminate;
      [| eauto].
    destruct (adapt_input_for_alternative _ _); intros [= <- _].
    discriminate Hact.
  - revert Hexec. unfold graceful_degradation.
    destruct (error_type ctx); eauto.
    run.
    destruct (copy _) as [c |]; try discriminate.
    destruct (contains _ _) as [[|] |]; try discriminate.
    + intros [= <- _]. discriminate Hact.
    + destruct (setitem _ _ _); intros [= <- _]. discriminate Hact.
  - revert Hexec. unfold fail_fast. run. intros [= <- _]. discriminate Hact.
Qed.

(** With the default configuration, a tool name that is a string, an
    input that is a dict and a first attempt, the selected strategy runs
    to its end. *)
Lemma selected_strategy_runs ctx morph d w0 w :
  tool_name ctx = PStr morph ->
  tool_input ctx = PDict d ->
  retry_count ctx = 0 ->
  exists r w',
    execute_fallback_strategy config ctx (get_fallback_strategy config ctx w0)
      w = (Ok r, w').
Proof.
  intros Htool Hinput Hcount.
  assert (Hnative : exists r w', fallback_to_native_tool ctx w = (Ok r, w')).
  { destruct (fallback_to_native_tool_value ctx morph w Htool)
      as (w' & E & _). eauto. }
  rewrite get_fallback_strategy_cases. rewrite Hcount.
  change (max_retry_attempts config <=? 0) with false. cbv iota.
  destruct (is_circuit_breaker_open _ _ _); [exact Hnative |].
  destruct (error_type ctx) eqn:Hkind; cbn [error_strategies];
    cbn [execute_fallback_strategy]; try exact Hnative.
  - unfold retry_with_backoff. rewrite Hcount. simpl. eauto.
  - unfold retry_with_backoff. rewrite Hcount. simpl. eauto.
  - unfold graceful_degradation. rewrite Hkind, Hinput. run.
    destruct (assoc "limit" d); eauto.
  - unfold retry_with_backoff. rewrite Hcount. simpl. eauto.
  - unfold use_alternative_tool. rewrite Hkind, Htool, Hinput. run.
    destruct (String.eqb morph "mcp__morph__edit_file"); [simpl; eauto |].
    destruct (String.eqb morph "mcp__morph__search_files");
      [simpl; eauto | exact Hnative].
Qed.

Lemma handle_error_fallback_fields morph d msg tool_result w :
  let response :=
    fst (handle_error config pid isoformat (PStr morph) (PDict d) (PStr msg)
           tool_result w) in
  action_of response = Some "fallback" ->
  getitem response "fallback_tool"
    = Ok (PStr (default "Read" (assoc morph tool_fallback_mapping))) /\
  getitem response "fallback_input" = Ok (PDict d).
Proof.
  intros response. subst response.
  unfold handle_error, handle_error_try, create_error_context.
  unfold mbind, mret, M_bind, M_ret, bind, ret, get_world.
  match goal with
  | |- context [log_error isoformat ?c w] =>
      set (ctx := c);
      destruct (log_error_effect isoformat ctx w) as (w1 & -> & _ & _)
  end.
  destruct (selected_strategy_runs ctx morph d w1 w1 eq_refl eq_refl eq_refl)
    as (r & w2 & Hexec).
  rewrite Hexec.
  destruct (update_runs config (error_type ctx) true w2) as [w3 ->].
  cbn [fst]. intros Hact.
  exact (execute_fallback_strategy_fallback config ctx morph _ w1 r w2
           eq_refl Hexec Hact).
Qed.

End Composition.

(** X23: The interceptor and the error handler compose: for a mapped tool and
    a dict input, [create_morph_tool_call] names the MorphLLM tool and,
    except for MultiEdit, passes the input on unchanged; when that call
    fails and [handle_error] (default configuration) answers "fallback",
    the fallback tool is the original tool with the input of the call.
    MultiEdit comes back as Edit, with the batch form of its input. *)
Theorem intercepted_call_falls_back_to_native
    (env : MorphToolInterceptor.Env) (rendering : Z -> string)
    (pid : string) (isoformat : Z -> string)
    (tool morph : string) (d : list (string * pyval))
    (msg : string) (tool_result : pyval) (w : MorphErrorHandler.World)
    (Hmapped : assoc tool MorphToolInterceptor.TOOL_MAPPING = Some morph) :
  exists call mapped_input,
    MorphToolInterceptor.create_morph_tool_call env rendering tool (PDict d)
      = Ok call /\
    getitem call "tool" = Ok (PStr morph) /\
    getitem call "input" = Ok mapped_input /\
    (tool <> "MultiEdit" -> mapped_input = PDict d) /\
    let response :=
      fst (MorphErrorHandler.handle_error MorphErrorHandler.config pid
             isoformat (PStr morph) mapped_input (PStr msg) tool_result w) in
    (action_of response = Some "fallback" ->
     getitem response "fallback_tool"
       = Ok (PStr (if String.eqb tool "MultiEdit" then "Edit" else tool)) /\
     getitem response "fallback_input" = Ok mapped_input).
Proof.
  revert Hmapped. unfold MorphToolInterceptor.TOOL_MAPPING. cbn [assoc].
  repeat match goal with
         | |- context [String.eqb tool ?s] =>
             destruct (String.eqb_spec tool s) as [-> | ?]
         end; intros [= <-];
    (eexists _, _;
     split; [reflexivity |]; split; [reflexivity |];
     split; [reflexivity |]; split; [try reflexivity; congruence |];
     intros Hact;
     exact (handle_error_fallback_fields pid isoformat _ _ msg tool_result w
              Hact)).
Qed.

Lemma intercepted_call_falls_back_to_native_witness :
  exists call mapped_input,
    MorphToolInterceptor.create_morph_tool_call no_flags epoch "Write"
      (PDict [("file_path", PStr "a.txt"); ("content", PStr "x")])
      = Ok call /\
    getitem call "tool" = Ok (PStr "mcp__morph__write_file") /\
    getitem call "input" = Ok mapped_input /\
    ("Write" <> "MultiEdit" ->
     mapped_input
     = PDict [("file_path", PStr "a.txt"); ("content", PStr "x")]) /\
    let response :=
      fst (MorphErrorHandler.handle_error MorphErrorHandler.config "4242"
             epoch (PStr "mcp__morph__write_file") mapped_input
             (PStr "Permission denied") PNone fresh) in
    (action_of response = Some "fallback" ->
     getitem response "fallback_tool"
       = Ok (PStr (if String.eqb "Write" "MultiEdit" then "Edit"
                   else "Write")) /\
     getitem response "fallback_input" = Ok mapped_input).
Proof.
  apply (intercepted_call_falls_back_to_native no_flags epoch "4242" epoch
           "Write" "mcp__morph__write_file").
  reflexivity.
Defined.

(** ** Pre-tool hook: fast path and cached decisions *)

(** X25: The fast path of [main]: [should_skip_bridge_routing], applied to the
    level that [determine_processing_level] gives the tool, is true
    exactly when smart routing and selective activation are both enabled
    and the tool is LS, Read, Grep or Glob, whatever the arguments.  In
    particular [needs_mcp_analysis] never keeps Read, Grep or Glob on the
    bridge. *)
Theorem bridge_skipped_iff
    (enable_smart_routing enable_selective_activation : bool)
    (tool_name : string) (tool_args : pyval) :
  PreToolUseActivation.should_skip_bridge_routing enable_smart_routing
    tool_name
    (PreToolUseActivation.determine_processing_level
       enable_selective_activation tool_name tool_args) = true
  <-> enable_smart_routing = true /\
      enable_selective_activation = true /\
      In tool_name ["LS"; "Read"; "Grep"; "Glob"].
Proof.
  unfold PreToolUseActivation.should_skip_bridge_routing,
    PreToolUseActivation.determine_processing_level.
  split.
  - destruct enable_smart_routing; [| discriminate].
    destruct enable_selective_activation; cbn [negb];
      [| cbn; discriminate].
    intros H. split; [reflexivity |]. split; [reflexivity |].
    revert H. cbn [in_strs existsb].
    destruct (String.eqb_spec tool_name "LS") as [-> | _];
      [intros _; simpl; tauto |].
    destruct (String.eqb_spec tool_name "Read") as [-> | _];
      [intros _; simpl; tauto |].
    destruct (String.eqb_spec tool_name "Grep") as [-> | _];
      [intros _; simpl; tauto |].
    destruct (String.eqb_spec tool_name "Glob") as [-> | _];
      [intros _; simpl; tauto |].
    rewrite !orb_false_r, !andb_false_r. cbn [andb]. discriminate.
  - intros (-> & -> & [<- | [<- | [<- | [<- | []]]]]); reflexivity.
Qed.

Section BridgeCache.

Import PreToolUseHook.

Variable env : Env.
Variable timeout : Binary64.float.

Lemma timed_operation_run {A} name (func : G A) g :
  timed_operation env name func g =
  (fst (func (snd (read_perf_counter env g))),
   let g1 := snd (func (snd (read_perf_counter env g))) in
   {| cache := cache g1;
      monitor :=
        PerformanceMonitor.record_timing name
          (milliseconds_between (perf_counter env (perf_reads g))
             (perf_counter env (perf_reads g1)))
          (monitor g1);
      time_reads := time_reads g1;
      perf_reads := S (perf_reads g1) |}).
Proof.
  unfold timed_operation, mbind, G_bind, bind, finally, read_perf_counter,
    record_timing.
  simpl. destruct (func _) as [r g1]. reflexivity.
Qed.

Lemma set_absent {V} key (value : V) now (c : LRUCache.t V) :
  assoc key (LRUCache.cache c) = None ->
  1 <= LRUCache.max_size c ->
  exists d,
    LRUCache.set key value now c = Ok (LRUCache.with_cache c d) /\
    assoc key d = Some (value, now).
Proof.
  intros Habsent Hcap. unfold LRUCache.set, mem. rewrite Habsent.
  cbn [mbind res_bind Py.bind].
  rewrite (assoc_set_absent _ _ _ Habsent).
  assert (Hlast : forall d, assoc key d = None ->
            assoc key (d ++ [(key, (value, now))]) = Some (value, now)).
  { intros d Hd. rewrite assoc_app_absent by exact Hd.
    simpl. rewrite String.eqb_refl. reflexivity. }
  destruct (Z.gtb_spec
              (Z.of_nat (length (LRUCache.cache c ++ [(key, (value, now))])))
              (LRUCache.max_size c)) as [Hgt | Hle].
  - destruct (LRUCache.cache c) as [| e d'] eqn:E.
    + simpl in Hgt. lia.
    + simpl. eexists. split; [reflexivity |].
      apply Hlast. apply (assoc_tl_absent key (e :: d')). exact Habsent.
  - simpl. eexists. split; [reflexivity |]. apply Hlast. exact Habsent.
Qed.

Lemma get_total {V} key now (c : LRUCache.t V) :
  exists r c', LRUCache.get key now c = Ok (r, c').
Proof.
  rewrite get_cases.
  destruct (assoc key (LRUCache.cache c)) as [[value timestamp] |];
    [destruct (LRUCache.live _ _ _) |]; eauto.
Qed.

Lemma generate_bridge_key context :
  json_serializable (toolArgs context) = true ->
  json_serializable (persona context) = true ->
  generate_cache_key env "bridge_route"
    (PDict [ ("tool", PStr (toolName context));
             ("args", toolArgs context);
             ("persona", persona context) ])
  = Ok (bridge_key env context).
Proof.
  intros Hargs Hpersona.
  unfold generate_cache_key, json_dumps. cbn [json_serializable forallb snd].
  rewrite Hargs, Hpersona. reflexivity.
Qed.

(** [cache.get] reads the clock when the key is present, and only
    then. *)
Lemma cache_get_run key g :
  exists r c,
    LRUCache.get key (time env (time_reads g)) (cache g) = Ok (r, c) /\
    cache_get env key g
    = (Ok r,
       {| cache := c; monitor := monitor g;
          time_reads := if mem key (LRUCache.cache (cache g))
                        then S (time_reads g) else time_reads g;
          perf_reads := perf_reads g |}).
Proof.
  destruct (get_total key (time env (time_reads g)) (cache g))
    as (r & c & Hget).
  exists r, c. split; [exact Hget |].
  unfold cache_get, mem.
  destruct (assoc key (LRUCache.cache (cache g))) as [entry |] eqn:E.
  - unfold read_time, cache_get_at.
    unfold mbind, G_bind, bind. cbn [cache time_reads]. rewrite Hget.
    reflexivity.
  - unfold cache_get_at. rewrite get_cases in Hget |- *. rewrite E in Hget |- *.
    injection Hget as <- <-. destruct g; reflexivity.
Qed.

Lemma bridge_lookup_run context g :
  should_use_cache (toolName context) = true ->
  json_serializable (toolArgs context) = true ->
  json_serializable (persona context) = true ->
  exists r c,
    LRUCache.get (bridge_key env context) (time env (time_reads g)) (cache g)
      = Ok (r, c) /\
    bridge_lookup env context g
    = (Ok (Some (bridge_key env context), r),
       {| cache := c; monitor := monitor g;
          time_reads :=
            if mem (bridge_key env context) (LRUCache.cache (cache g))
            then S (time_reads g) else time_reads g;
          perf_reads := perf_reads g |}).
Proof.
  intros Hcache Hargs Hpersona. unfold bridge_lookup. rewrite Hcache.
  rewrite (generate_bridge_key context Hargs Hpersona).
  destruct (cache_get_run (bridge_key env context) g) as (r & c & Hget & Hrun).
  exists r, c. split; [exact Hget |].
  unfold mbind, mret, G_bind, G_ret, bind, ret, lift.
  rewrite Hrun. reflexivity.
Qed.

Lemma bridge_request_answered context key result g :
  post env = Ok (200, Ok result) ->
  assoc key (LRUCache.cache (cache g)) = None ->
  1 <= LRUCache.max_size (cache g) ->
  exists d,
    assoc key d = Some (result, time env (time_reads g)) /\
    bridge_request_guarded env timeout context (Some key) g
    = (Ok result,
       {| cache := LRUCache.with_cache (cache g) d;
          monitor :=
            PerformanceMonitor.record_timing "bridge_request"
              (milliseconds_between (perf_counter env (perf_reads g))
                 (perf_counter env (S (perf_reads g))))
              (monitor g);
          time_reads := S (time_reads g);
          perf_reads := S (S (perf_reads g)) |}).
Proof.
  intros Hpost Habsent Hcap.
  destruct (set_absent key result (time env (time_reads g)) (cache g)
              Habsent Hcap) as (d & Hset & Hd).
  exists d. split; [exact Hd |].
  unfold bridge_request_guarded, bridge_request.
  unfold cache_set, read_time, cache_set_at, read_perf_counter,
    record_timing.
  unfold mbind, mret, G_bind, G_ret, bind, ret, lift.
  rewrite Hpost. cbn [fst snd Z.eqb Pos.eqb cache time_reads perf_reads
                        monitor].
  rewrite Hset. reflexivity.
Qed.

(** A miss: the bridge is asked, and its answer is returned and stored
    with the one reading of the clock that the call takes. *)
Lemma route_to_bridge_miss context result g :
  should_use_cache (toolName context) = true ->
  json_serializable (toolArgs context) = true ->
  json_serializable (persona context) = true ->
  post env = Ok (200, Ok result) ->
  assoc (bridge_key env context) (LRUCache.cache (cache g)) = None ->
  1 <= LRUCache.max_size (cache g) ->
  exists g1,
    route_to_bridge env timeout context g = (Ok result, g1) /\
    assoc (bridge_key env context) (LRUCache.cache (cache g1))
      = Some (result, time env (time_reads g)) /\
    time_reads g1 = S (time_reads g) /\
    LRUCache.ttl_seconds (cache g1) = LRUCache.ttl_seconds (cache g) /\
    LRUCache.hits (cache g1) = LRUCache.hits (cache g) /\
    LRUCache.misses (cache g1) = LRUCache.misses (cache g) + 1.
Proof.
  intros Hcache Hargs Hpersona Hpost Habsent Hcap.
  unfold route_to_bridge. rewrite timed_operation_run.
  set (g0 := snd (read_perf_counter env g)).
  destruct (bridge_lookup_run context g0 Hcache Hargs Hpersona)
    as (r & c & Hget & Hlookup).
  rewrite get_cases in Hget. change (cache g0) with (cache g) in Hget, Hlookup.
  unfold mem in Hlookup.
  rewrite Habsent in Hget, Hlookup. injection Hget as <- <-.
  match goal with
  | |- context [fst (?body g0)] =>
      assert (Hbody : exists gb,
                body g0 = (Ok result, gb) /\
                assoc (bridge_key env context) (LRUCache.cache (cache gb))
                  = Some (result, time env (time_reads g)) /\
                time_reads gb = S (time_reads g) /\
                LRUCache.ttl_seconds (cache gb)
                  = LRUCache.ttl_seconds (cache g) /\
                LRUCache.hits (cache gb) = LRUCache.hits (cache g) /\
                LRUCache.misses (cache gb) = LRUCache.misses (cache g) + 1)
  end.
  { unfold mbind, G_bind, bind. rewrite Hlookup.
    match goal with
    | |- context [bridge_request_guarded env timeout context _ ?g'] =>
        destruct (bridge_request_answered context (bridge_key env context)
                    result g' Hpost Habsent Hcap) as (d & Hd & ->)
    end.
    eexists. split; [reflexivity |]. cbn.
    split; [exact Hd |]. repeat split. }
  destruct Hbody as (gb & -> & Hbound & Htime & Httl & Hhits & Hmisses).
  eexists. split; [reflexivity |]. cbn. auto.
Qed.

(** A hit: a live entry that is truthy is returned, and the bridge is not
    asked. *)
Lemma route_to_bridge_hit context value timestamp g :
  should_use_cache (toolName context) = true ->
  json_serializable (toolArgs context) = true ->
  json_serializable (persona context) = true ->
  assoc (bridge_key env context) (LRUCache.cache (cache g))
    = Some (value, timestamp) ->
  LRUCache.live (time env (time_reads g)) timestamp
    (LRUCache.ttl_seconds (cache g)) = true ->
  truthy value = true ->
  exists g1,
    route_to_bridge env timeout context g = (Ok value, g1) /\
    monitor g1 !! "bridge_request" = monitor g !! "bridge_request" /\
    LRUCache.hits (cache g1) = LRUCache.hits (cache g) + 1 /\
    LRUCache.misses (cache g1) = LRUCache.misses (cache g).
Proof.
  intros Hcache Hargs Hpersona Hbound Hlive Htruthy.
  unfold route_to_bridge. rewrite timed_operation_run.
  set (g0 := snd (read_perf_counter env g)).
  destruct (bridge_lookup_run context g0 Hcache Hargs Hpersona)
    as (r & c & Hget & Hlookup).
  rewrite get_cases in Hget.
  change (cache g0) with (cache g) in Hget.
  change (time_reads g0) with (time_reads g) in Hget.
  rewrite Hbound, Hlive in Hget. injection Hget as <- <-.
  match goal with
  | |- context [fst (?body g0)] =>
      assert (Hbody : exists gb,
                body g0 = (Ok value, gb) /\
                monitor gb = monitor g /\
                LRUCache.hits (cache gb) = LRUCache.hits (cache g) + 1 /\
                LRUCache.misses (cache gb) = LRUCache.misses (cache g))
  end.
  { unfold mbind, G_bind, bind. rewrite Hlookup. rewrite Htruthy.
    eexists. split; [reflexivity |]. cbn. repeat split. }
  destruct Hbody as (gb & -> & Hmonitor & Hhits & Hmisses).
  eexists. split; [reflexivity |]. cbn.
  split; [| split; assumption].
  rewrite Hmonitor. apply record_timing_other. discriminate.
Qed.

Lemma set_keeps_counters {V} key (value : V) now (c : LRUCache.t V) :
  exists d, LRUCache.set key value now c = Ok (LRUCache.with_cache c d).
Proof.
  unfold LRUCache.set, mem, LRUCache.move_to_end.
  destruct (assoc key (LRUCache.cache c)) as [v0 |];
    cbn [mbind res_bind Py.bind];
    match goal with
    | |- context [assoc_set ?k ?v ?d] =>
        destruct (assoc_set k v d) as [| e l] eqn:E
    end;
    try (destruct (_ >? _); simpl; eauto).
  - destruct (assoc_del key (LRUCache.cache c)) as [| [k' v'] d'];
      simpl in E; [rewrite String.eqb_refl in E; discriminate E |].
    destruct (String.eqb key k'); discriminate E.
  - destruct (LRUCache.cache c) as [| [k' v'] d']; simpl in E;
      [discriminate E |].
    destruct (String.eqb key k'); discriminate E.
Qed.

(** A hit on an entry that is not truthy: the bridge is asked again. *)
Lemma route_to_bridge_falsy_hit context value timestamp result g :
  should_use_cache (toolName context) = true ->
  json_serializable (toolArgs context) = true ->
  json_serializable (persona context) = true ->
  assoc (bridge_key env context) (LRUCache.cache (cache g))
    = Some (value, timestamp) ->
  LRUCache.live (time env (time_reads g)) timestamp
    (LRUCache.ttl_seconds (cache g)) = true ->
  truthy value = false ->
  post env = Ok (200, Ok result) ->
  exists g1 duration_ms,
    route_to_bridge env timeout context g = (Ok result, g1) /\
    monitor g1 !! "bridge_request"
      = Some (PerformanceMonitor.last_n 1000
                (default [] (monitor g !! "bridge_request")
                 ++ [duration_ms])) /\
    LRUCache.hits (cache g1) = LRUCache.hits (cache g) + 1 /\
    LRUCache.misses (cache g1) = LRUCache.misses (cache g).
Proof.
  intros Hcache Hargs Hpersona Hbound Hlive Hfalsy Hpost.
  unfold route_to_bridge. rewrite timed_operation_run.
  set (g0 := snd (read_perf_counter env g)).
  destruct (bridge_lookup_run context g0 Hcache Hargs Hpersona)
    as (r & c & Hget & Hlookup).
  rewrite get_cases in Hget.
  change (cache g0) with (cache g) in Hget.
  change (time_reads g0) with (time_reads g) in Hget.
  rewrite Hbound, Hlive in Hget. injection Hget as <- <-.
  match goal with
  | |- context [fst (?body g0)] =>
      assert (Hbody : exists gb duration_ms,
                body g0 = (Ok result, gb) /\
                monitor gb
                  = PerformanceMonitor.record_timing "bridge_request"
                      duration_ms (monitor g) /\
                LRUCache.hits (cache gb) = LRUCache.hits (cache g) + 1 /\
                LRUCache.misses (cache gb) = LRUCache.misses (cache g))
  end.
  { unfold mbind, G_bind, bind. rewrite Hlookup. rewrite Hfalsy.
    unfold bridge_request_guarded, bridge_request.
    unfold cache_set, read_time, cache_set_at, read_perf_counter,
      record_timing.
    unfold mbind, mret, G_bind, G_ret, bind, ret, lift.
    rewrite Hpost. cbn [fst snd Z.eqb Pos.eqb cache time_reads perf_reads
                          monitor].
    match goal with
    | |- context [LRUCache.set ?k ?v ?t ?c] =>
        destruct (set_keeps_counters k v t c) as (d & ->)
    end.
    eexists _, _. split; [reflexivity |]. cbn. repeat split. }
  destruct Hbody as (gb & duration_ms & -> & Hmonitor & Hhits & Hmisses).
  eexists _, duration_ms. split; [reflexivity |]. cbn.
  split; [| split; assumption].
  rewrite record_timing_other by discriminate.
  rewrite Hmonitor. apply record_timing_series.
Qed.

End BridgeCache.



(** X26: An answer of the bridge is served from the cache: for a tool whose
    decisions are cached, when the bridge answers 200 with a truthy
    result that is not cached yet, [route_to_bridge] returns the result
    and stores it with the one reading that the call takes of
    [time.time()]; a second call for the same context, whose lookup takes
    the next reading, returns the result again without a request,
    whatever the bridge would answer, when the test of the cache on the
    two readings, [now - timestamp < ttl_seconds], succeeds; the cache
    has counted one miss and one hit. *)
Theorem route_to_bridge_serves_cached_answer
    (env : PreToolUseHook.Env) (timeout timeout' : Binary64.float)
    (context : PreToolUseHook.Context) (result : pyval)
    (answer : res (Z * res pyval)) (g : PreToolUseHook.Globals)
    (Hcacheable :
       PreToolUseHook.should_use_cache (PreToolUseHook.toolName context)
       = true)
    (Hargs : json_serializable (PreToolUseHook.toolArgs context) = true)
    (Hpersona : json_serializable (PreToolUseHook.persona context) = true)
    (Hpost : PreToolUseHook.post env = Ok (200, Ok result))
    (Htruthy : PreToolUseHook.truthy result = true)
    (Hnew : assoc (bridge_key env context)
              (LRUCache.cache (PreToolUseHook.cache g)) = None)
    (Hcapacity : 1 <= LRUCache.max_size (PreToolUseHook.cache g))
    (Hlive :
       LRUCache.live
         (PreToolUseHook.time env (S (PreToolUseHook.time_reads g)))
         (PreToolUseHook.time env (PreToolUseHook.time_reads g))
         (LRUCache.ttl_seconds (PreToolUseHook.cache g)) = true) :
  exists g1 g2,
    PreToolUseHook.route_to_bridge env timeout context g = (Ok result, g1) /\
    PreToolUseHook.route_to_bridge (with_post env answer) timeout' context g1
      = (Ok result, g2) /\
    PreToolUseHook.monitor g2 !! "bridge_request"
      = PreToolUseHook.monitor g1 !! "bridge_request" /\
    LRUCache.hits (PreToolUseHook.cache g2)
      = LRUCache.hits (PreToolUseHook.cache g) + 1 /\
    LRUCache.misses (PreToolUseHook.cache g2)
      = LRUCache.misses (PreToolUseHook.cache g) + 1.
Proof.
  destruct (route_to_bridge_miss env timeout context result g Hcacheable
              Hargs Hpersona Hpost Hnew Hcapacity)
    as (g1 & Hfirst & Hbound & Htime & Httl & Hhits & Hmisses).
  destruct (route_to_bridge_hit (with_post env answer) timeout' context
              result
              (PreToolUseHook.time env (PreToolUseHook.time_reads g)) g1
              Hcacheable Hargs Hpersona Hbound)
    as (g2 & Hsecond & Hmonitor & Hhits2 & Hmisses2).
  - cbn [with_post PreToolUseHook.time]. rewrite Htime, Httl. exact Hlive.
  - exact Htruthy.
  - exists g1, g2. split; [exact Hfirst |]. split; [exact Hsecond |].
    split; [exact Hmonitor |]. split; congruence.
Qed.

Lemma route_to_bridge_serves_cached_answer_witness :
  exists g1 g2,
    PreToolUseHook.route_to_bridge (bridge_up allowed) timeout_100ms
      grep_todo new_globals = (Ok allowed, g1) /\
    PreToolUseHook.route_to_bridge
      (with_post (bridge_up allowed)
         (Raise (mkExc RequestsTimeout "Read timed out.")))
      timeout_100ms grep_todo g1 = (Ok allowed, g2) /\
    PreToolUseHook.monitor g2 !! "bridge_request"
      = PreToolUseHook.monitor g1 !! "bridge_request" /\
    LRUCache.hits (PreToolUseHook.cache g2)
      = LRUCache.hits (PreToolUseHook.cache new_globals) + 1 /\
    LRUCache.misses (PreToolUseHook.cache g2)
      = LRUCache.misses (PreToolUseHook.cache new_globals) + 1.
Proof.
  apply (route_to_bridge_serves_cached_answer (bridge_up allowed)
           timeout_100ms timeout_100ms grep_todo allowed
           (Raise (mkExc RequestsTimeout "Read timed out.")) new_globals);
    try reflexivity.
  simpl. lia.
Defined.

(** An entry that has expired is not served: with the readings 0, 1000,
    1001 of [time.time()], the first call stores the answer at time 0, the
    lookup of the second call reads 1000 and finds the entry expired, and
    the bridge is asked again; the cache has counted two misses. *)
Example route_to_bridge_expired_entry :
  let first :=
    PreToolUseHook.route_to_bridge (bridge_up_late allowed) timeout_100ms
      grep_todo new_globals in
  let second :=
    PreToolUseHook.route_to_bridge
      (with_post (bridge_up_late allowed) (Ok (200, Ok blocked)))
      timeout_100ms grep_todo (snd first) in
  fst first = Ok allowed /\
  fst second = Ok blocked /\
  LRUCache.hits (PreToolUseHook.cache (snd second)) = 0 /\
  LRUCache.misses (PreToolUseHook.cache (snd second)) = 2 /\
  PreToolUseHook.time_reads (snd second) = 3%nat.
Proof. vm_compute. repeat split; reflexivity. Qed.

(** X27: A falsy answer of the bridge (an empty object, for one) is stored but
    never served: the second call for the same context, when the test of
    the cache, [now - timestamp < ttl_seconds], succeeds on the reading of
    its lookup and the reading stored by the first call, is counted as a
    hit by the cache, and still asks the bridge and returns its new
    answer. *)
Theorem route_to_bridge_asks_again_after_falsy_answer
    (env : PreToolUseHook.Env) (timeout timeout' : Binary64.float)
    (context : PreToolUseHook.Context) (result result' : pyval)
    (g : PreToolUseHook.Globals)
    (Hcacheable :
       PreToolUseHook.should_use_cache (PreToolUseHook.toolName context)
       = true)
    (Hargs : json_serializable (PreToolUseHook.toolArgs context) = true)
    (Hpersona : json_serializable (PreToolUseHook.persona context) = true)
    (Hpost : PreToolUseHook.post env = Ok (200, Ok result))
    (Hfalsy : PreToolUseHook.truthy result = false)
    (Hnew : assoc (bridge_key env context)
              (LRUCache.cache (PreToolUseHook.cache g)) = None)
    (Hcapacity : 1 <= LRUCache.max_size (PreToolUseHook.cache g))
    (Hlive :
       LRUCache.live
         (PreToolUseHook.time env (S (PreToolUseHook.time_reads g)))
         (PreToolUseHook.time env (PreToolUseHook.time_reads g))
         (LRUCache.ttl_seconds (PreToolUseHook.cache g)) = true) :
  exists g1 g2 duration_ms,
    PreToolUseHook.route_to_bridge env timeout context g = (Ok result, g1) /\
    PreToolUseHook.route_to_bridge (with_post env (Ok (200, Ok result')))
      timeout' context g1 = (Ok result', g2) /\
    PreToolUseHook.monitor g2 !! "bridge_request"
      = Some (PerformanceMonitor.last_n 1000
                (default [] (PreToolUseHook.monitor g1 !! "bridge_request")
                 ++ [duration_ms])) /\
    LRUCache.hits (PreToolUseHook.cache g2)
      = LRUCache.hits (PreToolUseHook.cache g) + 1 /\
    LRUCache.misses (PreToolUseHook.cache g2)
      = LRUCache.misses (PreToolUseHook.cache g) + 1.
Proof.
  destruct (route_to_bridge_miss env timeout context result g Hcacheable
              Hargs Hpersona Hpost Hnew Hcapacity)
    as (g1 & Hfirst & Hbound & Htime & Httl & Hhits & Hmisses).
  destruct (route_to_bridge_falsy_hit (with_post env (Ok (200, Ok result')))
              timeout' context result
              (PreToolUseHook.time env (PreToolUseHook.time_reads g))
              result' g1 Hcacheable Hargs Hpersona Hbound)
    as (g2 & duration_ms & Hsecond & Hmonitor & Hhits2 & Hmisses2).
  - cbn [with_post PreToolUseHook.time]. rewrite Htime, Httl. exact Hlive.
  - exact Hfalsy.
  - reflexivity.
  - exists g1, g2, duration_ms. split; [exact Hfirst |].
    split; [exact Hsecond |]. split; [exact Hmonitor |]. split; congruence.
Qed.

Lemma route_to_bridge_asks_again_after_falsy_answer_witness :
  exists g1 g2 duration_ms,
    PreToolUseHook.route_to_bridge (bridge_up (PDict [])) timeout_100ms
      grep_todo new_globals = (Ok (PDict []), g1) /\
    PreToolUseHook.route_to_bridge
      (with_post (bridge_up (PDict [])) (Ok (200, Ok allowed)))
      timeout_100ms grep_todo g1 = (Ok allowed, g2) /\
    PreToolUseHook.monitor g2 !! "bridge_request"
      = Some (PerformanceMonitor.last_n 1000
                (default [] (PreToolUseHook.monitor g1 !! "bridge_request")
                 ++ [duration_ms])) /\
    LRUCache.hits (PreToolUseHook.cache g2)
      = LRUCache.hits (PreToolUseHook.cache new_globals) + 1 /\
    LRUCache.misses (PreToolUseHook.cache g2)
      = LRUCache.misses (PreToolUseHook.cache new_globals) + 1.
Proof.
  apply (route_to_bridge_asks_again_after_falsy_answer (bridge_up (PDict []))
           timeout_100ms timeout_100ms grep_todo (PDict []) allowed
           new_globals);
    try reflexivity.
  simpl. lia.
Defined.

(** X28: [cached_operation] on a live entry: the cache counts a hit either
    way; a value other than [None] is returned without running the
    function, and a cached [None] is ignored, the function being run
    again. *)
Theorem cached_operation_serves_only_non_none
    (env : PreToolUseHook.Env) (cache_key : string)
    (func : PreToolUseHook.G pyval) (value : pyval)
    (timestamp : Binary64.float) (g : PreToolUseHook.Globals)
    (Hbound : assoc cache_key (LRUCache.cache (PreToolUseHook.cache g))
              = Some (value, timestamp))
    (Hlive :
       LRUCache.live
         (PreToolUseHook.time env (PreToolUseHook.time_reads g)) timestamp
         (LRUCache.ttl_seconds (PreToolUseHook.cache g)) = true) :
  exists g0,
    LRUCache.hits (PreToolUseHook.cache g0)
      = LRUCache.hits (PreToolUseHook.cache g) + 1 /\
    LRUCache.misses (PreToolUseHook.cache g0)
      = LRUCache.misses (PreToolUseHook.cache g) /\
    PreToolUseHook.monitor g0 = PreToolUseHook.monitor g /\
    (value <> PNone ->
     PreToolUseHook.cached_operation env cache_key func g = (Ok value, g0)) /\
    (value = PNone ->
     fst (PreToolUseHook.cached_operation env cache_key func g)
     = fst (func g0)).
Proof.
  assert (Hmem : mem cache_key (LRUCache.cache (PreToolUseHook.cache g))
                 = true)
    by (unfold mem; rewrite Hbound; reflexivity).
  unfold PreToolUseHook.cached_operation, PreToolUseHook.cache_get,
    PreToolUseHook.cache_set, PreToolUseHook.read_time,
    PreToolUseHook.cache_get_at, PreToolUseHook.cache_set_at.
  unfold mbind, mret, PreToolUseHook.G_bind, PreToolUseHook.G_ret,
    PreToolUseHook.bind, PreToolUseHook.ret.
  rewrite Hmem.
  cbn [PreToolUseHook.cache PreToolUseHook.time_reads].
  rewrite get_cases, Hbound, Hlive.
  eexists. split; [| split; [| split; [| split]]];
    [| | | intros Hsome | intros ->].
  4: { destruct value; try reflexivity. contradiction Hsome. reflexivity. }
  all: cbn; try reflexivity.
  destruct (func _) as [[result | e] g1]; [| reflexivity].
  cbn [PreToolUseHook.cache PreToolUseHook.time_reads].
  match goal with
  | |- context [LRUCache.set ?k ?v ?t ?c] =>
      destruct (set_keeps_counters k v t c) as (d & ->)
  end.
  reflexivity.
Qed.

Lemma cached_operation_serves_only_non_none_witness :
  exists g0,
    LRUCache.hits (PreToolUseHook.cache g0) = 0 + 1 /\
    LRUCache.misses (PreToolUseHook.cache g0) = 0 /\
    PreToolUseHook.monitor g0 = ∅ /\
    (PNone <> PNone ->
     PreToolUseHook.cached_operation (bridge_up allowed) "routing:0"
       (mret (PStr "magic")) none_cached = (Ok PNone, g0)) /\
    (PNone = PNone ->
     fst (PreToolUseHook.cached_operation (bridge_up allowed) "routing:0"
            (mret (PStr "magic")) none_cached)
     = fst ((mret (PStr "magic") : PreToolUseHook.G pyval) g0)).
Proof.
  apply (cached_operation_serves_only_non_none (bridge_up allowed)
           "routing:0" (mret (PStr "magic")) PNone (Binary64.of_int 0)
           none_cached);
    reflexivity.
Defined.

Lemma route_to_bridge_request_failure_witness :
  exists response,
    fst (PreToolUseHook.route_to_bridge bridge_down timeout_100ms grep_todo
           new_globals) = Ok response /\
    ((exists cache_key g1,
         PreToolUseHook.bridge_lookup bridge_down grep_todo
           (snd (PreToolUseHook.read_perf_counter bridge_down new_globals))
         = (Ok (Some cache_key, Some response), g1) /\
         PreToolUseHook.truthy response = true) \/
     is_bridge_fallback grep_todo response).
Proof.
  apply (route_to_bridge_request_failure bridge_down timeout_100ms grep_todo
           (mkExc RequestsTimeout "Read timed out.") new_globals);
    reflexivity.
Defined.

(** ** Monitor: the lock *)

(** X30: [get_all_stats] calls [get_stats] while it holds the lock that
    [get_stats] acquires.  With the lock free, [get_stats] returns its
    statistics; [get_all_stats] returns the empty dictionary when no
    operation was recorded, and otherwise waits forever on its own
    lock. *)
Theorem get_all_stats_waits_on_its_own_lock
    (self : MonitorLock.t)
    (Hfree : MonitorLock.held self = false) :
  (forall operation,
      MonitorLock.get_stats operation self
      = MonitorLock.Done
          (PerformanceMonitor.get_stats operation
             (MonitorLock.metrics self))) /\
  (MonitorLock.metrics self = ∅ ->
   MonitorLock.get_all_stats self = MonitorLock.Done (Ok [])) /\
  (MonitorLock.metrics self <> ∅ ->
   MonitorLock.get_all_stats self = MonitorLock.Waits).
Proof.
  unfold MonitorLock.get_all_stats, MonitorLock.get_stats,
    MonitorLock.with_lock.
  rewrite Hfree. cbn [MonitorLock.metrics]. split; [reflexivity |]. split.
  - intros ->. rewrite map_to_list_empty. reflexivity.
  - intros Hsome.
    destruct (map_to_list (MonitorLock.metrics self)) as [| [op ts] l] eqn:E.
    + apply map_to_list_empty_iff in E. contradiction.
    + reflexivity.
Qed.

Lemma get_all_stats_waits_on_its_own_lock_witness :
  MonitorLock.get_all_stats one_sample = MonitorLock.Waits.
Proof.
  apply (proj2 (proj2 (get_all_stats_waits_on_its_own_lock one_sample
                         eq_refl))).
  apply insert_non_empty.
Defined.

(** ** Tool interceptor: the thresholds of MultiEdit *)

(** X24: The thresholds of MultiEdit: with none of "--no-morph",
    "--morph-only", "--morph" and "--morphllm" given, a MultiEdit whose
    input is a dict with a list of edits is intercepted exactly when the
    interceptor has counted five operations, or there are at least three
    edits, or "--morph-fast" is given and there are at least two. *)
Theorem multiedit_interception_thresholds
    (env : MorphToolInterceptor.Env)
    (self : MorphToolInterceptor.SessionStats)
    (d : list (string * pyval)) (edits : list pyval) (flags : list string)
    (Hflags : forall flag,
        In flag ["--no-morph"; "--morph-only"; "--morph"; "--morphllm"] ->
        ~ In flag flags)
    (Hedits : assoc "edits" d = Some (PList edits)) :
  MorphToolInterceptor.should_intercept env self "MultiEdit" (PDict d) flags
  = Ok ((5 <=? MorphToolInterceptor.total_operations self)
        || (3 <=? Z.of_nat (length edits))
        || (existsb (String.eqb "--morph-fast") flags
            && (2 <=? Z.of_nat (length edits)))).
Proof.
  unfold MorphToolInterceptor.should_intercept.
  rewrite !existsb_eqb_not_In by (apply Hflags; simpl; tauto).
  cbn [orb]. unfold MorphToolInterceptor.should_auto_activate.
  set (fast := existsb (String.eqb "--morph-fast") flags).
  cbn [mem assoc MorphToolInterceptor.TOOL_MAPPING String.eqb Ascii.eqb
         Bool.eqb negb].
  unfold MorphToolInterceptor.filesystem_operations.
  rewrite Z.geb_leb.
  destruct (5 <=? MorphToolInterceptor.total_operations self);
    [reflexivity |].
  unfold MorphToolInterceptor.is_batch_operation,
    MorphToolInterceptor.batch_edits.
  cbn [contains dict_get]. rewrite Hedits.
  cbn [mbind mret res_bind res_ret Py.bind len orb].
  rewrite Z.geb_leb.
  destruct (3 <=? Z.of_nat (length edits)); [reflexivity |].
  cbn [andb orb].
  destruct fast; [| reflexivity].
  unfold MorphToolInterceptor.is_performance_critical_operation.
  cbn [in_strs existsb String.eqb Ascii.eqb Bool.eqb orb dict_get].
  rewrite Hedits.
  cbn [mbind mret res_bind res_ret Py.bind len andb].
  rewrite Z.gtb_ltb.
  destruct (Z.ltb_spec 1 (Z.of_nat (length edits))),
    (Z.leb_spec 2 (Z.of_nat (length edits))); try lia; reflexivity.
Qed.

Lemma multiedit_interception_thresholds_witness :
  MorphToolInterceptor.should_intercept no_flags
    (MorphToolInterceptor.session_stats (new_interceptor 0))
    "MultiEdit" (PDict [("edits", PList [PNone; PNone])]) ["--morph-fast"]
  = Ok ((5 <=? 0) || (3 <=? 2)
        || (existsb (String.eqb "--morph-fast") ["--morph-fast"]
            && (2 <=? 2))).
Proof.
  apply (multiedit_interception_thresholds no_flags
           (MorphToolInterceptor.session_stats (new_interceptor 0))
           [("edits", PList [PNone; PNone])] [PNone; PNone]
           ["--morph-fast"]).
  - intros flag Hin [Hflag | []]. subst flag. simpl in Hin.
    destruct Hin as [H | [H | [H | [H | []]]]]; discriminate H.
  - reflexivity.
Defined.
